(** * leadops: the pull reconciliation engine

    A shallow embedding of the pull/push mirror code of the CRM
    ([crm/services/pull.py], [crm/adapters/airtable/pull.py],
    [crm/adapters/airtable/mirror.py], [crm/adapters/airtable/client.py],
    [crm/services/pull_service.py], [crm/services/sync_state.py],
    [crm/store/sqlite.py]) and the properties established about it.

    Python dictionaries whose iteration order the code relies on
    ([field_map.items()], [mapping.tables.items()]) are association lists;
    dictionaries that are only looked up and updated ([last_pull_at],
    [table_ids], [tables_meta]) are [gmap]s.  Exceptions are values of the
    [result] type; the store, the event log and the clock are threaded
    explicitly. *)

From Stdlib Require Import ZArith Lia Ascii.
From stdpp Require Import base option list strings gmap fin_maps pretty sorting.

Set Warnings "-register-all".
Open Scope string_scope.
Open Scope Z_scope.

(** ** Exceptions *)

Inductive exc_class :=
| TypeError
| ValueError
| OverflowError
| AttributeError
| SqliteError
| AirtableError
| MirrorError
| PullError
| PullServiceError.

#[global] Instance exc_class_eq_dec : EqDecision exc_class.
Proof. solve_decision. Defined.

(** An exception object: its class, its message ([str(exc)]) and the
    attributes set on the instance besides [args]. *)
Record exn := mk_exn {
  exc_type : exc_class;
  exc_msg : string;
  exc_attrs : list (string * Z);
}.

Definition raise_msg (c : exc_class) (msg : string) : exn := mk_exn c msg [].

Inductive result (A : Type) :=
| Ok (a : A)
| Err (e : exn).
Arguments Ok {A} a.
Arguments Err {A} e.

Definition rbind {A B} (m : result A) (k : A → result B) : result B :=
  match m with
  | Ok a => k a
  | Err e => Err e
  end.

Notation "'let*' x ':=' m 'in' k" := (rbind m (fun x => k))
  (at level 10, x pattern, m at level 100, k at level 200).

Definition is_ok {A} (r : result A) : bool :=
  match r with Ok _ => true | Err _ => false end.

(** ** Dates and datetimes

    A [date] is its proleptic Gregorian ordinal ([date.toordinal()]).  A
    [datetime] is the wall-clock reading in microseconds counted from
    midnight of ordinal day 0, together with its [tzinfo]: [None] for a
    naive value, the UTC offset in microseconds for an aware one. *)

Definition date := Z.

Record datetime := mk_datetime {
  dt_wall : Z;
  dt_utcoffset : option Z;
}.

#[global] Instance datetime_eq_dec : EqDecision datetime.
Proof. solve_decision. Defined.

Definition usec_per_day : Z := 86400000000.

(** [datetime.date()] *)
Definition datetime_date (t : datetime) : date := dt_wall t `div` usec_per_day.

(** [a > b] on datetimes: naive values compare by wall clock, aware ones by
    instant, and mixing the two raises. *)
Definition datetime_gt (a b : datetime) : result bool :=
  match dt_utcoffset a, dt_utcoffset b with
  | None, None => Ok (dt_wall b <? dt_wall a)
  | Some oa, Some ob => Ok (dt_wall b - ob <? dt_wall a - oa)
  | _, _ => Err (raise_msg TypeError "can't compare offset-naive and offset-aware datetimes")
  end.

(** [a == b] on datetimes never raises: a naive and an aware value are
    simply different. *)
Definition datetime_eqb (a b : datetime) : bool :=
  match dt_utcoffset a, dt_utcoffset b with
  | None, None => dt_wall a =? dt_wall b
  | Some oa, Some ob => dt_wall a - oa =? dt_wall b - ob
  | _, _ => false
  end.

(** ** Python values

    [float] is IEEE binary64; its carrier and the conversions CPython
    implements natively form an interface. *)

Class PyFloat := {
  pyfloat : Type;
  pyfloat_eq_dec :: EqDecision pyfloat;
  (** [x == y] *)
  float_eqb : pyfloat → pyfloat → bool;
  (** [bool(x)] *)
  float_truthy : pyfloat → bool;
  (** [float(n)] for an [int]; [None] is [OverflowError] *)
  float_of_int : Z → option pyfloat;
  (** [float(s)] for a [str]; [None] is [ValueError] *)
  float_of_str : string → option pyfloat;
  (** [int(x)] for a [float]: [ValueError] for nan, [OverflowError] for an
      infinity *)
  int_of_float : pyfloat → result Z;
  (** [str(x)] *)
  str_of_float : pyfloat → string;
}.

Section Values.
Context `{PyFloat}.

Inductive pyval :=
| VNone
| VBool (b : bool)
| VInt (n : Z)
| VFloat (x : pyfloat)
| VStr (s : string)
| VDate (d : date)
| VDatetime (t : datetime)
| VList (items : list pyval)
| VDict (entries : list (string * pyval)).

Definition pydict := list (string * pyval).

Definition pyval_eq_dec : ∀ a b : pyval, {a = b} + {a ≠ b}.
Proof.
  fix IH 1. intros a b.
  decide equality; try solve [apply Z.eq_dec | apply bool_dec
    | apply String.string_dec | apply pyfloat_eq_dec | apply datetime_eq_dec].
  - apply (List.list_eq_dec IH).
  - apply List.list_eq_dec. intros [k1 v1] [k2 v2].
    destruct (String.string_dec k1 k2) as [->|Hk]; [|right; congruence].
    destruct (IH v1 v2) as [->|Hv]; [left; reflexivity|right; congruence].
Defined.

#[global] Instance pyval_eq_decision : EqDecision pyval := pyval_eq_dec.

End Values.

Arguments pyval {_}.
Arguments pydict {_}.

(** The remaining builtins the code calls: parsers and printers of the
    standard library. *)
Class PyBuiltins `{PyFloat} := {
  (** [int(s)] for a [str]; [None] is [ValueError] *)
  int_of_str : string → option Z;
  (** [date.fromisoformat(s)]; [None] is [ValueError] *)
  date_fromisoformat : string → option date;
  (** [datetime.fromisoformat(s)]; [None] is [ValueError] *)
  datetime_fromisoformat : string → option datetime;
  (** [str(d)] for a [date] and a [datetime] *)
  str_of_date : date → string;
  str_of_datetime : datetime → string;
  (** [t.isoformat()] for a [datetime] *)
  datetime_isoformat : datetime → string;
  (** [str(v)] for a [list] or a [dict], and for a tuple of strings *)
  repr_container : pyval → string;
  repr_tuple : list string → string;
}.

(** ** String helpers *)

Definition ascii_lower (c : ascii) : ascii :=
  let n := N_of_ascii c in
  if ((65 <=? n) && (n <=? 90))%N then ascii_of_N (n + 32) else c.

(** [s.lower()] on the ASCII range *)
Fixpoint str_lower (s : string) : string :=
  match s with
  | EmptyString => EmptyString
  | String c rest => String (ascii_lower c) (str_lower rest)
  end.

(** [s.replace(old, new)] for a one-character [old] *)
Fixpoint str_replace_char (old : ascii) (new : string) (s : string) : string :=
  match s with
  | EmptyString => EmptyString
  | String c rest =>
      if Ascii.eqb c old then new +:+ str_replace_char old new rest
      else String c (str_replace_char old new rest)
  end.

(** [s.split(sep)[0]] for a one-character [sep] *)
Fixpoint str_before (sep : ascii) (s : string) : string :=
  match s with
  | EmptyString => EmptyString
  | String c rest => if Ascii.eqb c sep then EmptyString else String c (str_before sep rest)
  end.

(** [str(n)] for an [int] *)
Definition str_of_int (n : Z) : string := pretty n.

Section Builtins.
Context `{PyBuiltins}.

(** [d.get(key)] *)
Fixpoint dict_get (d : pydict) (key : string) : pyval :=
  match d with
  | [] => VNone
  | (k, v) :: rest => if String.eqb k key then v else dict_get rest key
  end.

(** [key in d] *)
Fixpoint dict_has (d : pydict) (key : string) : bool :=
  match d with
  | [] => false
  | (k, _) :: rest => String.eqb k key || dict_has rest key
  end.

(** [bool(v)] *)
Definition py_truthy (v : pyval) : bool :=
  match v with
  | VNone => false
  | VBool b => b
  | VInt n => negb (n =? 0)
  | VFloat x => float_truthy x
  | VStr s => negb (String.eqb s "")
  | VDate _ | VDatetime _ => true
  | VList items => match items with [] => false | _ => true end
  | VDict entries => match entries with [] => false | _ => true end
  end.

(** [str(v)] *)
Definition py_str (v : pyval) : string :=
  match v with
  | VNone => "None"
  | VBool b => if b then "True" else "False"
  | VInt n => str_of_int n
  | VFloat x => str_of_float x
  | VStr s => s
  | VDate d => str_of_date d
  | VDatetime t => str_of_datetime t
  | VList _ | VDict _ => repr_container v
  end.

(** [float(v)] *)
Definition py_float (v : pyval) : result pyfloat :=
  match v with
  | VBool b =>
      match float_of_int (Z.b2z b) with
      | Some x => Ok x
      | None => Err (raise_msg OverflowError "int too large to convert to float")
      end
  | VInt n =>
      match float_of_int n with
      | Some x => Ok x
      | None => Err (raise_msg OverflowError "int too large to convert to float")
      end
  | VFloat x => Ok x
  | VStr s =>
      match float_of_str s with
      | Some x => Ok x
      | None => Err (raise_msg ValueError "could not convert string to float")
      end
  | _ => Err (raise_msg TypeError "float() argument must be a string or a real number")
  end.

(** [int(v)] *)
Definition py_int (v : pyval) : result Z :=
  match v with
  | VBool b => Ok (Z.b2z b)
  | VInt n => Ok n
  | VFloat x => int_of_float x
  | VStr s =>
      match int_of_str s with
      | Some n => Ok n
      | None => Err (raise_msg ValueError "invalid literal for int() with base 10")
      end
  | _ => Err (raise_msg TypeError "int() argument must be a string, a bytes-like object or a real number")
  end.

(** [except (c1, c2, ...)]: does the handler catch [e]? *)
Definition catches (classes : list exc_class) (e : exn) : bool :=
  bool_decide (exc_type e ∈ classes).

End Builtins.

(** ** [crm/services/pull.py]: field coercion, diff and decision *)

(** The declared type of a local field, [spec.get("type")]: a table that
    exists in the store has passed [_column_sql], so a present type is a
    string. *)
Record field_spec := mk_spec { spec_type : option string }.

(** What [_normalize_value] returns: [None], a [str], a [float], a [bool],
    a [date], a [datetime] or a tuple of strings. *)
Inductive nval `{PyFloat} :=
| NNone
| NStr (s : string)
| NFloat (x : pyfloat)
| NBool (b : bool)
| NDate (d : date)
| NDatetime (t : datetime)
| NTuple (items : list string).

Record PullDecision := mk_decision {
  action : string;
  changed_fields : list string;
  reason : option string;
}.

#[global] Instance PullDecision_eq_dec : EqDecision PullDecision.
Proof. solve_decision. Defined.

Definition EXCLUDED_FIELDS : list string := ["created_at"; "updated_at"].

Section PullService.
Context `{PyBuiltins}.

Definition is_NNone (v : nval) : bool :=
  match v with NNone => true | _ => false end.

(** [str(item)] for a normalized item *)
Definition nval_str (v : nval) : string :=
  match v with
  | NNone => "None"
  | NStr s => s
  | NFloat x => str_of_float x
  | NBool b => if b then "True" else "False"
  | NDate d => str_of_date d
  | NDatetime t => str_of_datetime t
  | NTuple items => repr_tuple items
  end.

(** [a == b] on normalized values.  [bool] is a subclass of [int], so a
    [bool] and a [float] compare numerically; every other pair of different
    types is unequal. *)
Definition nval_eqb (a b : nval) : bool :=
  match a, b with
  | NNone, NNone => true
  | NStr s, NStr t => String.eqb s t
  | NFloat x, NFloat y => float_eqb x y
  | NBool p, NBool q => Bool.eqb p q
  | NBool p, NFloat y | NFloat y, NBool p =>
      match float_of_int (Z.b2z p) with
      | Some x => float_eqb x y
      | None => false
      end
  | NDate d, NDate e => d =? e
  | NDatetime t, NDatetime u => datetime_eqb t u
  | NTuple l, NTuple m => bool_decide (l = m)
  | _, _ => false
  end.

Definition type_in (field_type : option string) (names : list string) : bool :=
  match field_type with
  | Some t => bool_decide (t ∈ names)
  | None => false
  end.

Definition _parse_date (value : pyval) : option date :=
  match value with
  | VNone => None
  | VDate d => Some d
  | VDatetime t => Some (datetime_date t)
  | VStr s => date_fromisoformat (str_before "T" s)
  | _ => None
  end.

Definition _parse_datetime (value : pyval) : option datetime :=
  match value with
  | VNone => None
  | VDatetime t => Some t
  | VStr s => datetime_fromisoformat (str_replace_char "Z" "+00:00" s)
  | _ => None
  end.

Definition nval_of_date (d : option date) : nval :=
  match d with Some d => NDate d | None => NNone end.

Definition nval_of_datetime (t : option datetime) : nval :=
  match t with Some t => NDatetime t | None => NNone end.

(** The branches of [_normalize_value] below the list and dict cases. *)
Definition normalize_scalar (value : pyval) (field_type : option string) : result nval :=
  if type_in field_type ["uuid"; "text"; "enum"] then Ok (NStr (py_str value))
  else if type_in field_type ["number"] then
    match py_float value with
    | Ok x => Ok (NFloat x)
    | Err e => if catches [TypeError; ValueError] e then Ok (NStr (py_str value)) else Err e
    end
  else if type_in field_type ["bool"] then
    match value with
    | VStr s => Ok (NBool (bool_decide (str_lower s ∈ ["true"; "1"; "yes"])))
    | _ => Ok (NBool (py_truthy value))
    end
  else if type_in field_type ["date"] then Ok (nval_of_date (_parse_date value))
  else if type_in field_type ["datetime"] then Ok (nval_of_datetime (_parse_datetime value))
  else Ok (NStr (py_str value)).

(** [tuple(str(item) for item in normalized if item is not None)] *)
Definition tuple_of_normalized (normalized : list nval) : nval :=
  NTuple (nval_str <$> filter (λ item, is_NNone item = false) normalized).

Fixpoint _normalize_value (value : pyval) (field_type : option string) {struct value}
  : result nval :=
  match value with
  | VNone => Ok NNone
  | VStr "" => Ok NNone
  | VList items =>
      let* normalized :=
        (fix each (l : list pyval) : result (list nval) :=
           match l with
           | [] => Ok []
           | item :: rest =>
               let* n := _normalize_value item field_type in
               let* ns := each rest in
               Ok (n :: ns)
           end) items in
      Ok (tuple_of_normalized normalized)
  | VDict entries =>
      if dict_has entries "name" then Ok (NStr (py_str (dict_get entries "name")))
      else Ok (NStr (py_str value))
  | _ => normalize_scalar value field_type
  end.

Definition _values_equal (local_value remote_value : pyval) (field_type : option string)
  : result bool :=
  let* l := _normalize_value local_value field_type in
  let* r := _normalize_value remote_value field_type in
  Ok (nval_eqb l r).

(** [local_row.get(local_field) if local_row else None]: an empty dict is
    falsy. *)
Definition row_get (local_row : option pydict) (field : string) : pyval :=
  match local_row with
  | Some ((_ :: _) as row) => dict_get row field
  | _ => VNone
  end.

Fixpoint diff_fields_from (changed : list string) (local_row : option pydict)
    (remote_fields : pydict) (schema_fields : gmap string field_spec)
    (items : list (string * string)) : result (list string) :=
  match items with
  | [] => Ok changed
  | (local_field, airtable_field) :: rest =>
      if bool_decide (local_field ∈ EXCLUDED_FIELDS)
      then diff_fields_from changed local_row remote_fields schema_fields rest
      else
        let field_type := schema_fields !! local_field ≫= spec_type in
        let local_value := row_get local_row local_field in
        let remote_value := dict_get remote_fields airtable_field in
        let* same := _values_equal local_value remote_value field_type in
        diff_fields_from (if same then changed else (changed ++ [local_field])%list)
          local_row remote_fields schema_fields rest
  end.

Definition diff_fields (local_row : option pydict) (remote_fields : pydict)
    (field_map : list (string * string)) (schema_fields : gmap string field_spec)
  : result (list string) :=
  diff_fields_from [] local_row remote_fields schema_fields field_map.

Definition has_local_changes (local_row mirror_state : option pydict) : result bool :=
  match local_row with
  | None => Ok false
  | Some row =>
      match mirror_state with
      | None => Ok true
      | Some ms =>
          let local_updated_at := _parse_datetime (dict_get row "updated_at") in
          let mirror_updated_at := _parse_datetime (dict_get ms "mirror_updated_at") in
          match mirror_updated_at with
          | None => Ok true
          | Some m =>
              match local_updated_at with
              | None => Ok false
              | Some l => datetime_gt l m
              end
          end
      end
  end.

(** [None] in the result is the "unknown" answer. *)
Definition has_remote_changes (remote_modified_at : pyval) (mirror_state : option pydict)
  : result (option bool) :=
  match remote_modified_at with
  | VNone => Ok None
  | _ =>
      match _parse_datetime remote_modified_at with
      | None => Ok None
      | Some remote_dt =>
          let mirror_updated_at :=
            match mirror_state with
            | Some ((_ :: _) as ms) => _parse_datetime (dict_get ms "mirror_updated_at")
            | _ => None
            end in
          match mirror_updated_at with
          | None => Ok (Some true)
          | Some m => let* later := datetime_gt remote_dt m in Ok (Some later)
          end
      end
  end.

Definition decide_pull_action (local_row mirror_state : option pydict)
    (changed_fields : list string) (remote_modified_at : pyval) : result PullDecision :=
  match changed_fields with
  | [] => Ok (mk_decision "skip" [] None)
  | _ =>
      match local_row with
      | None => Ok (mk_decision "create" changed_fields None)
      | Some _ =>
          let* local_changed := has_local_changes local_row mirror_state in
          let* remote_changed := has_remote_changes remote_modified_at mirror_state in
          if bool_decide (remote_changed = Some false) && local_changed
          then Ok (mk_decision "skip" changed_fields (Some "local_changes"))
          else if local_changed && bool_decide (remote_changed ∈ [Some true; None])
          then Ok (mk_decision "conflict" changed_fields (Some "local_changes"))
          else Ok (mk_decision "apply" changed_fields None)
      end
  end.

End PullService.

(** ** [crm/store/sqlite.py]: the local store

    A business table is the list of its rows, a row the dictionary
    [dict(sqlite3.Row)]; the [mirror_state] table is keyed by
    [(table_name, external_id)], its primary key.  [mirror_version] is kept
    as the integer the code writes and reads back through [int(...)], and
    [WHERE column = ?] compares values structurally. *)

Record mirror_row := mk_mirror_row {
  mr_record_id : option string;
  mr_version : Z;
  mr_updated_at : option string;
}.

Record db `{PyFloat} := mk_db {
  db_tables : gmap string (list pydict);
  db_mirror : list ((string * pyval) * mirror_row);
}.
Arguments mk_db {_} _ _.

(** The statements the mirror code sends to SQLite. *)
Inductive stmt `{PyFloat} :=
| SelectWhere (table column : string) (key : pyval)
| SelectAll (table : string)
| InsertRow (table : string) (columns : list string) (params : list pyval)
| UpdateWhere (table : string) (columns : list string) (params : list pyval)
    (column : string) (key : pyval)
| SelectMirror (table : string) (external_id : pyval)
| UpsertMirror (table : string) (external_id : pyval) (row : mirror_row).

(** What lies outside the code: whether SQLite executes a statement against
    the current database or raises (unknown table or column, a constraint
    of the schema, a parameter it cannot bind), and the readings of the
    system clock, [clock n] being the n-th one of a run. *)
Class Environment `{PyFloat} := {
  sql_admits : db → stmt → bool;
  clock : nat → string;
}.

Section Store.
Context `{PyBuiltins} `{!Environment}.

Definition opt_str (s : option string) : pyval :=
  match s with Some s => VStr s | None => VNone end.

(** [dict(mirror_state)] for a row of the ledger *)
Definition mirror_dict (table : string) (external_id : pyval) (r : mirror_row) : pydict :=
  [("table_name", VStr table); ("external_id", external_id);
   ("record_id", opt_str (mr_record_id r)); ("mirror_version", VInt (mr_version r));
   ("mirror_updated_at", opt_str (mr_updated_at r))].

Fixpoint mirror_lookup (l : list ((string * pyval) * mirror_row)) (key : string * pyval)
  : option mirror_row :=
  match l with
  | [] => None
  | (k, r) :: rest => if decide (k = key) then Some r else mirror_lookup rest key
  end.

(** [INSERT ... ON CONFLICT(table_name, external_id) DO UPDATE SET ...] *)
Fixpoint mirror_upsert (l : list ((string * pyval) * mirror_row)) (key : string * pyval)
    (r : mirror_row) : list ((string * pyval) * mirror_row) :=
  match l with
  | [] => [(key, r)]
  | (k, r0) :: rest =>
      if decide (k = key) then (k, r) :: rest else (k, r0) :: mirror_upsert rest key r
  end.

(** [d[key] = v] *)
Fixpoint dict_set (d : pydict) (key : string) (v : pyval) : pydict :=
  match d with
  | [] => [(key, v)]
  | (k, v0) :: rest =>
      if String.eqb k key then (k, v) :: rest else (k, v0) :: dict_set rest key v
  end.

Fixpoint dict_set_all (d : pydict) (columns : list string) (params : list pyval) : pydict :=
  match columns, params with
  | c :: cs, p :: ps => dict_set_all (dict_set d c p) cs ps
  | _, _ => d
  end.

Definition table_rows (d : db) (table : string) : list pydict :=
  default [] (db_tables d !! table).

(** [WHERE column = ?]: SQL's [NULL] equals nothing. *)
Definition row_matches (column : string) (key : pyval) (row : pydict) : bool :=
  match dict_get row column with
  | VNone => false
  | v => bool_decide (v = key)
  end.

Definition sqlite_error : exn := raise_msg SqliteError "sqlite3.Error".

(** [session.fetch_one("SELECT * FROM t WHERE c = ?", (key,))] *)
Definition fetch_one (d : db) (table column : string) (key : pyval) : result (option pydict) :=
  if sql_admits d (SelectWhere table column key)
  then Ok (head (filter (λ row, row_matches column key row = true) (table_rows d table)))
  else Err sqlite_error.

(** [store.fetch_all("SELECT * FROM t")] *)
Definition fetch_all (d : db) (table : string) : result (list pydict) :=
  if sql_admits d (SelectAll table) then Ok (table_rows d table) else Err sqlite_error.

Definition get_mirror_state (d : db) (table : string) (external_id : pyval)
  : result (option mirror_row) :=
  if sql_admits d (SelectMirror table external_id)
  then Ok (mirror_lookup (db_mirror d) (table, external_id))
  else Err sqlite_error.

Definition upsert_mirror_state (d : db) (table : string) (external_id : pyval)
    (record_id : option string) (mirror_version : Z) (mirror_updated_at : option string)
  : result db :=
  let row := mk_mirror_row record_id mirror_version mirror_updated_at in
  if sql_admits d (UpsertMirror table external_id row)
  then Ok (mk_db (db_tables d) (mirror_upsert (db_mirror d) (table, external_id) row))
  else Err sqlite_error.

(** [session.execute("INSERT INTO t (columns) VALUES (?, ...)", params)] *)
Definition execute_insert (d : db) (table : string) (columns : list string)
    (params : list pyval) : result db :=
  if sql_admits d (InsertRow table columns params)
  then Ok (mk_db (<[table := (table_rows d table ++ [dict_set_all [] columns params])%list]> (db_tables d))
             (db_mirror d))
  else Err sqlite_error.

(** [session.execute("UPDATE t SET c1 = ?, ... WHERE column = ?", params)] *)
Definition execute_update (d : db) (table : string) (columns : list string)
    (params : list pyval) (column : string) (key : pyval) : result db :=
  if sql_admits d (UpdateWhere table columns params column key)
  then Ok (mk_db
             (<[table := (λ row, if row_matches column key row
                                 then dict_set_all row columns params else row)
                          <$> table_rows d table]> (db_tables d))
             (db_mirror d))
  else Err sqlite_error.

End Store.

(** ** [crm/adapters/airtable/client.py]: the remote service *)

Record AirtableRecord `{PyFloat} := mk_record {
  record_id : string;
  fields : pydict;
}.
Arguments mk_record {_} _ _.

(** An HTTP reply with its decoded body. *)
Record response (A : Type) := mk_response {
  status_code : Z;
  text : string;
  json : A;
}.
Arguments mk_response {A} _ _ _.
Arguments status_code {A} _.
Arguments text {A} _.
Arguments json {A} _.

(** The replies to the successive page requests of one listing: [next] is
    present exactly when the page carries an [offset] token. *)
Inductive listing `{PyFloat} :=
| Page (reply : response (list AirtableRecord)) (next : option listing).

Record table_meta `{PyFloat} := mk_table_meta {
  tm_id : string;
  tm_name : string;
  tm_fields : list pydict;
}.
Arguments mk_table_meta {_} _ _ _.

(** The service behind the client: what it answers to the n-th
    conversation of a run. *)
Record AirtableClient `{PyFloat} := mk_client {
  reply_tables : nat → response (list table_meta);
  reply_records : nat → string → list string → option string → listing;
  reply_update : nat → string → string → pydict → response AirtableRecord;
  reply_create : nat → string → pydict → response AirtableRecord;
}.
Arguments mk_client {_} _ _ _ _.

(** ** [crm/services/events.py]: the audit log *)

Record event `{PyFloat} := mk_event {
  ev_ts : string;
  ev_workspace : string;
  ev_entity_type : string;
  ev_external_id : pyval;
  ev_event_type : string;
  ev_changed_fields : list string;
  ev_conflict : bool;
}.
Arguments mk_event {_} _ _ _ _ _ _ _.

Record EventLogger := mk_logger {
  workspace : string;
  enabled : bool;
}.

(** ** [crm/services/sync_state.py]: the watermarks *)

Record SyncState := mk_sync_state {
  last_pull_at : gmap string string;
  last_push_at : option string;
  schema_fingerprint : option string;
}.

(** ** The world a run acts on

    [w_db] is the database as the open connection sees it; [w_events] the
    lines of the event log; [w_sync_file] the decoded content of
    [.sync_state.json], [None] while the file does not exist; [w_clock] and
    [w_calls] count the clock readings and the service conversations so
    far. *)
Record world `{PyFloat} := mk_world {
  w_db : db;
  w_events : list event;
  w_sync_file : option SyncState;
  w_clock : nat;
  w_calls : nat;
}.
Arguments mk_world {_} _ _ _ _ _.

Definition M `{PyFloat} (A : Type) : Type := world → world * result A.

Definition ret `{PyFloat} {A} (a : A) : M A := λ w, (w, Ok a).
Definition throw `{PyFloat} {A} (e : exn) : M A := λ w, (w, Err e).
Definition bind `{PyFloat} {A B} (m : M A) (k : A → M B) : M B :=
  λ w, match m w with
       | (w', Ok a) => k a w'
       | (w', Err e) => (w', Err e)
       end.
Definition lift `{PyFloat} {A} (r : result A) : M A := λ w, (w, r).

Notation "'do' x ← m ; k" := (bind m (fun x => k))
  (at level 10, x pattern, m at level 100, k at level 200,
   format "'[v' 'do'  x  ←  m ;  '/' k ']'").

Section Client.
Context `{PyBuiltins} `{!Environment}.

Definition set_db (w : world) (d : db) : world :=
  mk_world d (w_events w) (w_sync_file w) (w_clock w) (w_calls w).

(** [utc_now_iso()] *)
Definition utc_now_iso : M string :=
  λ w, (mk_world (w_db w) (w_events w) (w_sync_file w) (S (w_clock w)) (w_calls w),
        Ok (clock (w_clock w))).

(** A read of the store. *)
Definition query {A} (q : db → result A) : M A := λ w, (w, q (w_db w)).

(** A write to the store. *)
Definition mutate (f : db → result db) : M unit :=
  λ w, match f (w_db w) with
       | Ok d => (set_db w d, Ok tt)
       | Err e => (w, Err e)
       end.

(** [with store.session() as session: body]: [connect] commits when the
    body returns and rolls back when it raises. *)
Definition with_session {A} (body : M A) : M A :=
  λ w, match body w with
       | (w', Ok a) => (w', Ok a)
       | (w', Err e) => (set_db w' (w_db w), Err e)
       end.

(** [EventLogger.log] *)
Definition log_event (logger : option EventLogger) (event_type entity_type : string)
    (external_id : pyval) (changed : list string) (conflict : bool) : M unit :=
  match logger with
  | None => ret tt
  | Some lg =>
      if enabled lg then
        do ts ← utc_now_iso;
        λ w, (mk_world (w_db w)
                (w_events w ++ [mk_event ts (workspace lg) entity_type external_id
                                  event_type changed conflict])%list
                (w_sync_file w) (w_clock w) (w_calls w), Ok tt)
      else ret tt
  end.

(** [AirtableClient._request] *)
Definition _request {A} (r : response A) : result A :=
  if 400 <=? status_code r
  then Err (raise_msg AirtableError
              ("Airtable error " +:+ str_of_int (status_code r) +:+ ": " +:+ text r))
  else Ok (json r).

(** One conversation with the service. *)
Definition converse {A} (f : nat → result A) : M A :=
  λ w, (mk_world (w_db w) (w_events w) (w_sync_file w) (w_clock w) (S (w_calls w)),
        f (w_calls w)).

Definition list_tables (client : AirtableClient) : M (list table_meta) :=
  converse (λ n, _request (reply_tables client n)).

(** The page loop of [list_records]. *)
Fixpoint collect_pages (l : listing) (records : list AirtableRecord)
  : result (list AirtableRecord) :=
  match l with
  | Page reply next =>
      let* data := _request reply in
      let records := (records ++ data)%list in
      match next with
      | Some l' => collect_pages l' records
      | None => Ok records
      end
  end.

Definition list_records (client : AirtableClient) (table_id : string)
    (fields : list string) (filter_formula : option string) : M (list AirtableRecord) :=
  let filter := match filter_formula with Some "" => None | f => f end in
  converse (λ n, collect_pages (reply_records client n table_id fields filter) []).

Definition create_record (client : AirtableClient) (table_id : string) (flds : pydict)
  : M AirtableRecord :=
  converse (λ n, _request (reply_create client n table_id flds)).

Definition update_record (client : AirtableClient) (table_id rid : string) (flds : pydict)
  : M AirtableRecord :=
  converse (λ n, _request (reply_update client n table_id rid flds)).

Definition find_record_by_external_id (client : AirtableClient) (table_id : string)
    (external_id : pyval) : M (option AirtableRecord) :=
  match external_id with
  | VStr s =>
      let formula := "{ExternalId}='" +:+ str_replace_char "'" "\'" s +:+ "'" in
      do records ← list_records client table_id [] (Some formula);
      match records with
      | [] => ret None
      | [r] => ret (Some r)
      | _ => throw (raise_msg AirtableError "Multiple Airtable records found for ExternalId.")
      end
  | _ => throw (raise_msg AttributeError "object has no attribute 'replace'")
  end.

End Client.

(** ** [crm/adapters/airtable/pull.py]: the pull orchestrator *)

Definition MODIFIED_FIELD : string := "AirtableModifiedAt".

Record PullSummary := mk_summary {
  scanned : nat;
  skipped : nat;
  applied : nat;
  conflicts : nat;
  created : nat;
  ignored : nat;
}.

Record PullChange `{PyFloat} := mk_change {
  pc_table : string;
  pc_external_id : pyval;
  pc_action : string;
  pc_changed_fields : list string;
  pc_reason : option string;
}.
Arguments mk_change {_} _ _ _ _ _.

(** [table_def.get("fields", {})] of a mapped table, in the order of the
    mapping file. *)
Record table_def := mk_table_def { td_fields : list (string * string) }.

Record AirtableMapping := mk_mapping {
  mirror_fields : list string;
  tables : list (string * table_def);
}.

(** [schema.tables]: for each table its ["fields"]. *)
Record Schema := mk_schema { schema_tables : gmap string (gmap string field_spec) }.

Definition incr_scanned (s : PullSummary) : PullSummary :=
  mk_summary (S (scanned s)) (skipped s) (applied s) (conflicts s) (created s) (ignored s).
Definition incr_skipped (s : PullSummary) : PullSummary :=
  mk_summary (scanned s) (S (skipped s)) (applied s) (conflicts s) (created s) (ignored s).
Definition incr_applied (s : PullSummary) : PullSummary :=
  mk_summary (scanned s) (skipped s) (S (applied s)) (conflicts s) (created s) (ignored s).
Definition incr_conflicts (s : PullSummary) : PullSummary :=
  mk_summary (scanned s) (skipped s) (applied s) (S (conflicts s)) (created s) (ignored s).
Definition incr_created (s : PullSummary) : PullSummary :=
  mk_summary (scanned s) (skipped s) (applied s) (conflicts s) (S (created s)) (ignored s).
Definition incr_ignored (s : PullSummary) : PullSummary :=
  mk_summary (scanned s) (skipped s) (applied s) (conflicts s) (created s) (S (ignored s)).

Fixpoint foldM `{PyFloat} {A S : Type} (f : S → A → M S) (s : S) (l : list A) : M S :=
  match l with
  | [] => ret s
  | a :: rest => do s' ← f s a; foldM f s' rest
  end.

Section PullAdapter.
Context `{PyBuiltins} `{!Environment}.

Fixpoint _find_external_id_field (fields_map : list (string * string)) : option string :=
  match fields_map with
  | [] => None
  | (field_name, airtable_field) :: rest =>
      if String.eqb airtable_field "ExternalId" then Some field_name
      else _find_external_id_field rest
  end.

Definition _convert_value (value : pyval) (spec : option field_spec) : result pyval :=
  match value with
  | VNone => Ok VNone
  | _ =>
      let field_type := spec ≫= spec_type in
      if type_in field_type ["uuid"; "text"; "enum"] then Ok (VStr (py_str value))
      else if type_in field_type ["number"] then
        match py_float value with
        | Ok x => Ok (VFloat x)
        | Err e => if catches [TypeError; ValueError] e then Ok VNone else Err e
        end
      else if type_in field_type ["bool"] then
        match value with
        | VStr s => Ok (VBool (bool_decide (str_lower s ∈ ["true"; "1"; "yes"])))
        | _ => Ok (VBool (py_truthy value))
        end
      else if type_in field_type ["date"; "datetime"] then
        match value with
        | VStr s => Ok value
        | VDatetime t => Ok (VStr (datetime_isoformat t))
        | VDate d => Ok (VStr (str_of_date d))
        | _ => Ok value
        end
      else Ok value
  end.

(** The columns and converted parameters of one statement, in mapping
    order; [skip] lists the local fields left out. *)
Fixpoint convert_fields (skip : list string) (fields_map : list (string * string))
    (remote_fields : pydict) (schema_fields : gmap string field_spec)
  : result (list string * list pyval) :=
  match fields_map with
  | [] => Ok ([], [])
  | (local_field, airtable_field) :: rest =>
      if bool_decide (local_field ∈ skip)
      then convert_fields skip rest remote_fields schema_fields
      else
        let value := dict_get remote_fields airtable_field in
        let* p := _convert_value value (schema_fields !! local_field) in
        let* (columns, params) := convert_fields skip rest remote_fields schema_fields in
        Ok (local_field :: columns, p :: params)
  end.

Definition _update_local (table_name external_id_field : string)
    (fields_map : list (string * string)) (remote_fields : pydict)
    (schema_fields : gmap string field_spec) : M unit :=
  do (columns, params) ←
    lift (convert_fields ["created_at"; "updated_at"] fields_map remote_fields schema_fields);
  do now ← utc_now_iso;
  mutate (λ d, execute_update d table_name (columns ++ ["updated_at"]) (params ++ [VStr now])
                 external_id_field (dict_get remote_fields "ExternalId")).

Definition _insert_local (table_name external_id_field : string)
    (fields_map : list (string * string)) (remote_fields : pydict)
    (schema_fields : gmap string field_spec) : M unit :=
  do now ← utc_now_iso;
  do (columns, params) ← lift (convert_fields [] fields_map remote_fields schema_fields);
  let stamp (name : string) (cp : list string * list pyval) :=
    if bool_decide (is_Some (schema_fields !! name))
    then ((cp.1 ++ [name])%list, (cp.2 ++ [VStr now])%list) else cp in
  let '(columns, params) := stamp "updated_at" (stamp "created_at" (columns, params)) in
  mutate (λ d, execute_insert d table_name columns params).

Definition _modified_since_formula (iso_value : string) : string :=
  let safe_value := str_replace_char "'" "\'" iso_value in
  "IS_AFTER({" +:+ MODIFIED_FIELD +:+ "}, '" +:+ safe_value +:+ "')".

Definition _has_modified_field (meta : table_meta) : bool :=
  existsb (λ field, bool_decide (dict_get field "name" = VStr MODIFIED_FIELD)) (tm_fields meta).

(** [external_id in accept_remote]: hashing a list or a dict raises. *)
Definition in_accept_remote (external_id : pyval) (accept_remote : gset string) : result bool :=
  match external_id with
  | VStr s => Ok (bool_decide (s ∈ accept_remote))
  | VList _ | VDict _ => Err (raise_msg TypeError "unhashable type")
  | _ => Ok false
  end.

(** The version written to the ledger after a create or an apply. *)
Definition pulled_version (remote_fields : pydict) (mirror_state : option mirror_row)
  : result Z :=
  let previous := match mirror_state with Some m => mr_version m | None => 0 end in
  match dict_get remote_fields "MirrorVersion" with
  | VNone => Ok previous
  | remote_version =>
      match py_int remote_version with
      | Ok v => Ok v
      | Err e => if catches [TypeError; ValueError] e then Ok previous else Err e
      end
  end.

(** The body of the loop over the records of one table. *)
Definition pull_record (table_name external_id_field : string)
    (fields_map : list (string * string)) (schema_fields : gmap string field_spec)
    (apply : bool) (accept_remote : gset string) (logger : option EventLogger)
    (st : PullSummary * list PullChange) (record : AirtableRecord)
  : M (PullSummary * list PullChange) :=
  let '(summary, changes) := st in
  let summary := incr_scanned summary in
  let external_id := dict_get (fields record) "ExternalId" in
  if negb (py_truthy external_id) then ret (incr_ignored summary, changes)
  else
    let remote_fields := fields record in
    do local_dict ← query (λ d, fetch_one d table_name external_id_field external_id);
    do mirror_state ← query (λ d, get_mirror_state d table_name external_id);
    let mirror_dict := mirror_dict table_name external_id <$> mirror_state in
    do changed ← lift (diff_fields local_dict remote_fields fields_map schema_fields);
    do decision ← lift (decide_pull_action local_dict mirror_dict changed VNone);
    if String.eqb (action decision) "skip" then ret (incr_skipped summary, changes)
    else
      do decision ←
        (if String.eqb (action decision) "conflict" then
           do accepted ← lift (in_accept_remote external_id accept_remote);
           ret (if accepted : bool then mk_decision "apply" changed None else decision)
         else ret decision);
      let changes :=
        (changes ++ [mk_change table_name external_id (action decision) changed
                       (reason decision)])%list in
      if String.eqb (action decision) "conflict" then
        do _ ← log_event logger "pull_conflict" table_name external_id changed true;
        ret (incr_conflicts summary, changes)
      else if apply then
        do summary ←
          (if String.eqb (action decision) "create" then
             do _ ← _insert_local table_name external_id_field fields_map remote_fields
                      schema_fields;
             ret (incr_created summary)
           else if String.eqb (action decision) "apply" then
             do _ ← _update_local table_name external_id_field fields_map remote_fields
                      schema_fields;
             ret (incr_applied summary)
           else ret summary);
        do mirror_version ← lift (pulled_version remote_fields mirror_state);
        do now ← utc_now_iso;
        do _ ← mutate (λ d, upsert_mirror_state d table_name external_id
                             (Some (record_id record)) mirror_version (Some now));
        do _ ← log_event logger "pull_apply" table_name external_id changed false;
        ret (summary, changes)
      else
        ret (if String.eqb (action decision) "create" then incr_created summary
             else if String.eqb (action decision) "apply" then incr_applied summary
             else summary, changes).

(** The body of the loop over the mapped tables. *)
Definition pull_table (client : AirtableClient) (schema : Schema)
    (table_ids : gmap string string) (tables_meta : option (gmap string table_meta))
    (last_pull_at : option (gmap string string)) (apply : bool)
    (accept_remote : gset string) (logger : option EventLogger)
    (st : PullSummary * list PullChange) (entry : string * table_def)
  : M (PullSummary * list PullChange) :=
  let '(table_name, table_def) := entry in
  match table_ids !! table_name with
  | None | Some "" =>
      throw (raise_msg PullError
               ("Missing table id for " +:+ table_name +:+ " in workspace config."))
  | Some table_id =>
      let fields_map := td_fields table_def in
      match _find_external_id_field fields_map with
      | None | Some "" =>
          throw (raise_msg PullError
                   ("Table " +:+ table_name +:+ " mapping must map a field to ExternalId."))
      | Some external_id_field =>
          let schema_fields := default ∅ (schema_tables schema !! table_name) in
          let query_fields :=
            (fields_map.*2 ++ ["ExternalId"; "MirrorVersion"; "MirrorUpdatedAt"; MODIFIED_FIELD])%list in
          let filter_formula :=
            match last_pull_at ≫= (.!! table_name) with
            | None | Some "" => None
            | Some since =>
                match tables_meta ≫= (.!! table_id) with
                | Some meta =>
                    if _has_modified_field meta then Some (_modified_since_formula since)
                    else None
                | None => None
                end
            end in
          do records ← list_records client table_id query_fields filter_formula;
          with_session
            (foldM (pull_record table_name external_id_field fields_map schema_fields
                      apply accept_remote logger) st records)
      end
  end.

Definition pull_records (client : AirtableClient) (mapping : AirtableMapping)
    (schema : Schema) (table_ids : gmap string string)
    (tables_meta : option (gmap string table_meta))
    (last_pull_at : option (gmap string string)) (apply : bool)
    (accept_remote : option (gset string)) (logger : option EventLogger)
  : M (PullSummary * list PullChange) :=
  let summary := mk_summary 0 0 0 0 0 0 in
  let accept_remote := default ∅ accept_remote in
  foldM (pull_table client schema table_ids tables_meta last_pull_at apply accept_remote logger)
    (summary, []) (tables mapping).

End PullAdapter.

(** ** [crm/adapters/airtable/mirror.py]: the push orchestrator *)

Section PushAdapter.
Context `{PyBuiltins} `{!Environment}.

Definition _serialize_value (value : pyval) : pyval :=
  match value with
  | VNone => VNone
  | VBool _ | VInt _ | VFloat _ | VStr _ => value
  | _ => VStr (py_str value)
  end.

(** [try: body except AirtableError as exc: raise MirrorError(str(exc))] *)
Definition as_mirror_error {A} (body : M A) : M A :=
  λ w, match body w with
       | (w', Err e) =>
           if decide (exc_type e = AirtableError)
           then (w', Err (raise_msg MirrorError (exc_msg e)))
           else (w', Err e)
       | r => r
       end.

(** [next_version = int(mirror_state["mirror_version"]) + 1 if mirror_state else 1] *)
Definition next_version (mirror_state : option mirror_row) : Z :=
  match mirror_state with
  | Some m => mr_version m + 1
  | None => 1
  end.

(** The body of the loop over the rows of one table.  A column absent from
    the row dictionary is [NULL]. *)
Definition push_row (client : AirtableClient) (table_name table_id external_id_field : string)
    (fields_map : list (string * string)) (logger : option EventLogger) (row : pydict)
  : M unit :=
  let external_id := dict_get row external_id_field in
  do mirror_state ← query (λ d, get_mirror_state d table_name external_id);
  let version := next_version mirror_state in
  do now ← utc_now_iso;
  let airtable_fields :=
    foldl (λ acc '(field_name, airtable_field),
             dict_set acc airtable_field (_serialize_value (dict_get row field_name)))
      [] fields_map in
  let airtable_fields := dict_set airtable_fields "ExternalId" external_id in
  let airtable_fields := dict_set airtable_fields "MirrorVersion" (VInt version) in
  let airtable_fields := dict_set airtable_fields "MirrorUpdatedAt" (VStr now) in
  do rid ← as_mirror_error
    (do existing ← find_record_by_external_id client table_id external_id;
     match existing with
     | Some found =>
         do record ← update_record client table_id (record_id found) airtable_fields;
         ret (record_id record)
     | None =>
         do record ← create_record client table_id airtable_fields;
         ret (record_id record)
     end);
  do _ ← mutate (λ d, upsert_mirror_state d table_name external_id (Some rid) version
                       (Some now));
  log_event logger "push" table_name external_id fields_map.*1 false.

Definition _push_table (client : AirtableClient) (table_name table_id : string)
    (table_def : table_def) (logger : option EventLogger) : M unit :=
  let fields_map := td_fields table_def in
  match _find_external_id_field fields_map with
  | None | Some "" =>
      throw (raise_msg MirrorError
               ("Table " +:+ table_name +:+ " mapping must map a field to ExternalId."))
  | Some external_id_field =>
      do rows ← query (λ d, fetch_all d table_name);
      foldM (λ _ row, push_row client table_name table_id external_id_field fields_map
                        logger row) tt rows
  end.

Definition push_all (client : AirtableClient) (mapping : AirtableMapping)
    (table_ids : gmap string string) (logger : option EventLogger) : M unit :=
  foldM (λ _ '(table_name, table_def),
           match table_ids !! table_name with
           | None | Some "" =>
               throw (raise_msg MirrorError
                        ("Missing table id for " +:+ table_name +:+ " in workspace config."))
           | Some table_id =>
               with_session (_push_table client table_name table_id table_def logger)
           end) tt (tables mapping).

End PushAdapter.

(** ** [crm/services/pull_service.py]: the pull cycle *)

Record MirrorConfig := mk_mirror_config {
  provider : string;
  base_id : option string;
  mirror_tables : gmap string string;
}.

Section PullCycle.
Context `{PyBuiltins} `{!Environment}.

(** [value if value else None] *)
Definition truthy_str (value : option string) : option string :=
  match value with Some "" => None | v => v end.

(** [load_sync_state]: a missing file reads as the empty state, and falsy
    [last_push_at] and [schema_fingerprint] read as [None]. *)
Definition load_sync_state : M SyncState :=
  λ w, (w, Ok match w_sync_file w with
              | None => mk_sync_state ∅ None None
              | Some data =>
                  mk_sync_state (last_pull_at data) (truthy_str (last_push_at data))
                    (truthy_str (schema_fingerprint data))
              end).

(** [save_sync_state]: the fingerprint is written only when truthy. *)
Definition save_sync_state (state : SyncState) : M unit :=
  λ w, (mk_world (w_db w) (w_events w)
          (Some (mk_sync_state (last_pull_at state) (last_push_at state)
                   (truthy_str (schema_fingerprint state))))
          (w_clock w) (w_calls w), Ok tt).

Definition _require_airtable_config (mirror : MirrorConfig) : result unit :=
  if negb (String.eqb (provider mirror) "airtable")
  then Err (raise_msg PullServiceError "Only the Airtable mirror provider is supported.")
  else match base_id mirror with
       | None | Some "" =>
           Err (raise_msg PullServiceError "Workspace mirror.base_id is required.")
       | Some _ => Ok tt
       end.

(** [os.getenv("AIRTABLE_API_KEY")] is the argument. *)
Definition _require_api_key (env_key : option string) : result string :=
  match env_key with
  | None | Some "" => Err (raise_msg PullServiceError "AIRTABLE_API_KEY is not set.")
  | Some key => Ok key
  end.

(** [exc.status_code] *)
Definition getattr_status_code (exc : exn) : result Z :=
  match list_find (λ kv, kv.1 = "status_code") (exc_attrs exc) with
  | Some (_, (_, v)) => Ok v
  | None =>
      Err (raise_msg AttributeError "'AirtableError' object has no attribute 'status_code'")
  end.

(** The [except] clauses of [pull]. *)
Definition pull_handler (exc : exn) : exn :=
  if decide (exc_type exc = AirtableError) then
    match getattr_status_code exc with
    | Ok status =>
        if bool_decide (status ∈ [401; 403])
        then raise_msg PullServiceError
               "Airtable auth/permission error; check PAT scopes and base access."
        else raise_msg PullServiceError (exc_msg exc)
    | Err raised => raised
    end
  else if decide (exc_type exc = PullError) then raise_msg PullServiceError (exc_msg exc)
  else exc.

Definition handle {A} (body : M A) (handler : exn → exn) : M A :=
  λ w, match body w with
       | (w', Err e) => (w', Err (handler e))
       | r => r
       end.

(** The mapping and the schema are the loaded files; [client] is the
    service reached with the key and the base id. *)
Definition pull (mirror : MirrorConfig) (env_key : option string) (client : AirtableClient)
    (mapping : AirtableMapping) (schema : Schema) (apply : bool)
    (accept_remote : option (gset string)) (logger : option EventLogger)
  : M (PullSummary * list PullChange) :=
  do _ ← lift (_require_airtable_config mirror);
  do _ ← lift (_require_api_key env_key);
  do state ← load_sync_state;
  do (summary, changes) ←
    handle
      (do listed ← list_tables client;
       let tables_meta := foldl (λ acc table, <[tm_id table := table]> acc) ∅ listed in
       pull_records client mapping schema (mirror_tables mirror) (Some tables_meta)
         (Some (last_pull_at state)) apply accept_remote logger)
      pull_handler;
  if apply && (conflicts summary =? 0)%nat then
    do now ← utc_now_iso;
    let stamped := foldl (λ acc table_name, <[table_name := now]> acc)
                     (last_pull_at state) (tables mapping).*1 in
    do _ ← save_sync_state (mk_sync_state stamped (last_push_at state)
                             (schema_fingerprint state));
    ret (summary, changes)
  else ret (summary, changes).

End PullCycle.

(** ** [crm/services/sync_state.py] on the decoded file

    The functions of the module once more, on the content of the file as
    [json.loads] returns it and [json.dumps] takes it. *)

Section SyncStateFile.
Context `{PyBuiltins}.

(** [load_sync_state]: [content] is the decoded file, [None] while the
    file does not exist. *)
Definition read_sync_state (content : option pyval) : result SyncState :=
  match content with
  | None => Ok (mk_sync_state ∅ None None)
  | Some (VDict data) =>
      let last_pull_at := dict_get data "last_pull_at" in
      let last_pull_at := if py_truthy last_pull_at then last_pull_at else VDict [] in
      let last_push_at := dict_get data "last_push_at" in
      let schema_fingerprint := dict_get data "schema_fingerprint" in
      let last_pull_at := match last_pull_at with VDict items => items | _ => [] end in
      Ok (mk_sync_state
            (list_to_map ((λ kv, (kv.1, py_str kv.2)) <$> last_pull_at))
            (if py_truthy last_push_at then Some (py_str last_push_at) else None)
            (if py_truthy schema_fingerprint then Some (py_str schema_fingerprint) else None))
  | Some _ => Err (raise_msg AttributeError "object has no attribute 'get'")
  end.

(** The [payload] of [save_sync_state]. *)
Definition sync_state_payload (state : SyncState) : pyval :=
  VDict ([("last_pull_at",
           VDict ((λ kv, (kv.1, VStr kv.2)) <$> map_to_list (last_pull_at state)));
          ("last_push_at",
           match last_push_at state with Some s => VStr s | None => VNone end)]
         ++ match schema_fingerprint state with
            | None | Some "" => []
            | Some fingerprint => [("schema_fingerprint", VStr fingerprint)]
            end).

End SyncStateFile.

(** ** [crm/services/pull_service.py]: the push watermark and the report *)

(** [a <= b] on strings, by code points. *)
Definition str_le (a b : string) : Prop := String.leb a b = true.

#[global] Instance str_le_dec : RelDecision str_le.
Proof. intros a b. unfold str_le. apply _. Defined.

(** [sorted(names)] *)
Definition sorted (names : list string) : list string := merge_sort str_le names.

(** [sep.join(parts)] *)
Definition str_join (sep : string) (parts : list string) : string := String.concat sep parts.

Section Reports.
Context `{PyBuiltins} `{!Environment}.

Definition record_push : M unit :=
  do state ← load_sync_state;
  do now ← utc_now_iso;
  save_sync_state (mk_sync_state (last_pull_at state) (Some now) (schema_fingerprint state)).

Definition str_of_nat (n : nat) : string := str_of_int (Z.of_nat n).

(** One line of [format_pull_report] for a change. *)
Definition format_change (change : PullChange) : string :=
  let reason :=
    match pc_reason change with
    | None | Some "" => ""
    | Some r => " reason=" +:+ r
    end in
  let fields := str_join "," (sorted (pc_changed_fields change)) in
  pc_table change +:+ " " +:+ py_str (pc_external_id change) +:+ " " +:+ pc_action change
  +:+ " fields=" +:+ fields +:+ reason.

Definition format_pull_report (summary : PullSummary) (changes : list PullChange)
  : list string :=
  ("summary"
   +:+ " scanned=" +:+ str_of_nat (scanned summary)
   +:+ " applied=" +:+ str_of_nat (applied summary)
   +:+ " created=" +:+ str_of_nat (created summary)
   +:+ " conflicts=" +:+ str_of_nat (conflicts summary)
   +:+ " skipped=" +:+ str_of_nat (skipped summary)
   +:+ " ignored=" +:+ str_of_nat (ignored summary))
  :: (format_change <$> changes).

End Reports.

(** ** A reference runtime

    An instance of the interfaces on which the examples below run.  Floats
    are the whole numbers (exact in binary64 below 2^53); the parsers read
    the formats the CRM itself writes: decimal integers, [YYYY-MM-DD] and
    [YYYY-MM-DD?HH:MM:SS] with an optional [+HH:MM] or [-HH:MM] offset. *)

Module Reference.

Definition digit_of (c : ascii) : option Z :=
  let n := Z.of_N (N_of_ascii c) in
  if (48 <=? n) && (n <=? 57) then Some (n - 48) else None.

Fixpoint parse_digits_from (acc : Z) (s : string) : option Z :=
  match s with
  | EmptyString => Some acc
  | String c rest =>
      match digit_of c with
      | Some d => parse_digits_from (10 * acc + d) rest
      | None => None
      end
  end.

Definition parse_digits (s : string) : option Z :=
  match s with
  | EmptyString => None
  | _ => parse_digits_from 0 s
  end.

Definition parse_int (s : string) : option Z :=
  match s with
  | String "-" rest => Z.opp <$> parse_digits rest
  | String "+" rest => parse_digits rest
  | _ => parse_digits s
  end.

Definition is_leap (y : Z) : bool :=
  (y mod 4 =? 0) && (negb (y mod 100 =? 0) || (y mod 400 =? 0)).

Definition days_in_month (y m : Z) : Z :=
  if m =? 2 then (if is_leap y then 29 else 28)
  else if bool_decide (m ∈ [4; 6; 9; 11]) then 30 else 31.

Definition days_before_year (y : Z) : Z :=
  let p := y - 1 in p * 365 + p / 4 - p / 100 + p / 400.

Definition days_before_month (y m : Z) : Z :=
  foldr Z.add 0 (days_in_month y <$> seqZ 1 (m - 1)).

Definition ymd2ord (y m d : Z) : Z := days_before_year y + days_before_month y m + d.

(** The civil date of an ordinal. *)
Definition ord2ymd (n : Z) : Z * Z * Z :=
  let z := n + 305 in
  let era := z / 146097 in
  let doe := z - era * 146097 in
  let yoe := (doe - doe / 1460 + doe / 36524 - doe / 146096) / 365 in
  let doy := doe - (365 * yoe + yoe / 4 - yoe / 100) in
  let mp := (5 * doy + 2) / 153 in
  let d := doy - (153 * mp + 2) / 5 + 1 in
  let m := if mp <? 10 then mp + 3 else mp - 9 in
  (yoe + era * 400 + (if m <=? 2 then 1 else 0), m, d).

Definition sub (from len : nat) (s : string) : string := String.substring from len s.

Definition parse_date (s : string) : option date :=
  if negb (String.length s =? 10)%nat then None
  else if negb (String.eqb (sub 4 1 s) "-" && String.eqb (sub 7 1 s) "-") then None
  else
    y ← parse_digits (sub 0 4 s);
    m ← parse_digits (sub 5 2 s);
    d ← parse_digits (sub 8 2 s);
    if (1 <=? y) && (1 <=? m) && (m <=? 12) && (1 <=? d) && (d <=? days_in_month y m)
    then Some (ymd2ord y m d) else None.

(** [HH:MM:SS] as microseconds *)
Definition parse_time (s : string) : option Z :=
  if negb (String.length s =? 8)%nat then None
  else if negb (String.eqb (sub 2 1 s) ":" && String.eqb (sub 5 1 s) ":") then None
  else
    h ← parse_digits (sub 0 2 s);
    m ← parse_digits (sub 3 2 s);
    sec ← parse_digits (sub 6 2 s);
    if (h <? 24) && (m <? 60) && (sec <? 60)
    then Some ((h * 3600 + m * 60 + sec) * 1000000) else None.

(** [+HH:MM] or [-HH:MM] as microseconds *)
Definition parse_offset (s : string) : option Z :=
  if negb (String.length s =? 6)%nat then None
  else if negb (String.eqb (sub 3 1 s) ":") then None
  else
    h ← parse_digits (sub 1 2 s);
    m ← parse_digits (sub 4 2 s);
    if (h <? 24) && (m <? 60) then
      let off := (h * 3600 + m * 60) * 1000000 in
      if String.eqb (sub 0 1 s) "+" then Some off
      else if String.eqb (sub 0 1 s) "-" then Some (- off)
      else None
    else None.

Definition parse_datetime (s : string) : option datetime :=
  d ← parse_date (sub 0 10 s);
  let n := String.length s in
  if (n =? 10)%nat then Some (mk_datetime (d * usec_per_day) None)
  else
    t ← parse_time (sub 11 8 s);
    if (n =? 19)%nat then Some (mk_datetime (d * usec_per_day + t) None)
    else
      off ← parse_offset (sub 19 (n - 19) s);
      Some (mk_datetime (d * usec_per_day + t) (Some off)).

Definition pad (width : nat) (n : Z) : string :=
  let digits := pretty n in
  String.concat "" (replicate (width - String.length digits) "0") +:+ digits.

Definition format_date (d : date) : string :=
  let '(y, m, dd) := ord2ymd d in
  pad 4 y +:+ "-" +:+ pad 2 m +:+ "-" +:+ pad 2 dd.

Definition format_datetime (sep : string) (t : datetime) : string :=
  let tod := (dt_wall t `mod` usec_per_day) `div` 1000000 in
  let clock_part :=
    pad 2 (tod / 3600) +:+ ":" +:+ pad 2 (tod / 60 mod 60) +:+ ":" +:+ pad 2 (tod mod 60) in
  let offset_part :=
    match dt_utcoffset t with
    | None => ""
    | Some off =>
        let minutes := Z.abs off / 60000000 in
        (if off <? 0 then "-" else "+") +:+ pad 2 (minutes / 60) +:+ ":" +:+ pad 2 (minutes mod 60)
    end in
  format_date (datetime_date t) +:+ sep +:+ clock_part +:+ offset_part.

#[export] Instance whole_floats : PyFloat := {|
  pyfloat := Z;
  float_eqb := Z.eqb;
  float_truthy x := negb (x =? 0);
  float_of_int n := Some n;
  float_of_str := parse_int;
  int_of_float x := Ok x;
  str_of_float x := pretty x +:+ ".0";
|}.

(** The float of a whole number. *)
Definition whole (n : Z) : pyfloat := n.

Definition quote (s : string) : string := "'" +:+ s +:+ "'".

Definition join (parts : list string) : string := String.concat ", " parts.

Fixpoint repr (v : pyval) : string :=
  match v with
  | VNone => "None"
  | VBool b => if b then "True" else "False"
  | VInt n => pretty n
  | VFloat x => str_of_float x
  | VStr s => quote s
  | VDate d => "datetime.date(" +:+ format_date d +:+ ")"
  | VDatetime t => "datetime.datetime(" +:+ format_datetime "T" t +:+ ")"
  | VList items => "[" +:+ join (map repr items) +:+ "]"
  | VDict entries =>
      "{" +:+ join (map (λ kv, quote kv.1 +:+ ": " +:+ repr kv.2) entries) +:+ "}"
  end.

#[export] Instance builtins : PyBuiltins := {|
  int_of_str := parse_int;
  date_fromisoformat := parse_date;
  datetime_fromisoformat := parse_datetime;
  str_of_date := format_date;
  str_of_datetime := format_datetime " ";
  datetime_isoformat := format_datetime "T";
  repr_container := repr;
  repr_tuple items := "(" +:+ join (quote <$> items) +:+ ")";
|}.

End Reference.

(** ** A workspace for the examples

    One mapped table, [widgets], whose [widget_id] is the join key and
    whose [name] the schema requires; the remote table tracks
    [AirtableModifiedAt]. *)

Module Example.
Import Reference.

Definition required_columns : list string := ["widget_id"; "name"].

(** The row an [INSERT] or [UPDATE] would leave must have every required
    column non-null. *)
Definition satisfies_not_null (row : pydict) : bool :=
  forallb (λ column, negb (bool_decide (dict_get row column = VNone))) required_columns.

#[export] Instance env : Environment := {|
  sql_admits d s :=
    match s with
    | InsertRow _ columns params => satisfies_not_null (dict_set_all [] columns params)
    | UpdateWhere table columns params column key =>
        forallb (λ row, negb (row_matches column key row)
                        || satisfies_not_null (dict_set_all row columns params))
          (table_rows d table)
    | _ => true
    end;
  clock n := "2026-02-01T09:00:" +:+ pad 2 (Z.of_nat n) +:+ "+00:00";
|}.

Definition mapping : AirtableMapping :=
  mk_mapping ["ExternalId"; "MirrorVersion"; "MirrorUpdatedAt"]
    [("widgets", mk_table_def [("widget_id", "ExternalId"); ("name", "Name")])].

Definition schema : Schema :=
  mk_schema {[ "widgets" :=
    {[ "widget_id" := mk_spec (Some "uuid"); "name" := mk_spec (Some "text");
       "created_at" := mk_spec (Some "datetime"); "updated_at" := mk_spec (Some "datetime") ]} ]}.

Definition table_ids : gmap string string := {[ "widgets" := "tblWidgets" ]}.

Definition tables_meta : list table_meta :=
  [mk_table_meta "tblWidgets" "Widgets"
     [[("id", VStr "fldExternal"); ("name", VStr "ExternalId")];
      [("id", VStr "fldName"); ("name", VStr "Name")];
      [("id", VStr "fldModified"); ("name", VStr "AirtableModifiedAt")]]].

Definition ok {A} (payload : A) : response A := mk_response 200 "" payload.

(** A service that lists [records] for every table in one page. *)
Definition serving (records : list AirtableRecord) : AirtableClient :=
  mk_client (λ _, ok tables_meta) (λ _ _ _ _, Page (ok records) None)
    (λ _ _ rid flds, ok (mk_record rid flds)) (λ _ _ flds, ok (mk_record "recNew" flds)).

(** A service that answers every request with [status]. *)
Definition refusing (status : Z) (body : string) : AirtableClient :=
  mk_client (λ _, mk_response status body []) (λ _ _ _ _, Page (mk_response status body []) None)
    (λ _ _ rid flds, mk_response status body (mk_record rid flds))
    (λ _ _ flds, mk_response status body (mk_record "" flds)).

Definition world_of (d : db) : world := mk_world d [] None 0 0.

Definition empty_db : db := mk_db {[ "widgets" := [] ]} [].

(** The widget w1 was synced on 2 January and edited locally on 3 January. *)
Definition edited_db : db :=
  mk_db {[ "widgets" :=
           [[("widget_id", VStr "w1"); ("name", VStr "Alpha Corp");
             ("created_at", VStr "2026-01-01T00:00:00+00:00");
             ("updated_at", VStr "2026-01-03T00:00:00+00:00")]] ]}
    [(("widgets", VStr "w1"),
      mk_mirror_row (Some "rec1") 1 (Some "2026-01-02T00:00:00+00:00"))].

(** The remote copy of w1 has not moved since 1 January. *)
Definition stale_remote : AirtableRecord :=
  mk_record "rec1"
    [("ExternalId", VStr "w1"); ("Name", VStr "Alpha"); ("MirrorVersion", VInt 1);
     ("MirrorUpdatedAt", VStr "2026-01-02T00:00:00+00:00");
     ("AirtableModifiedAt", VStr "2026-01-01T12:00:00+00:00")].

(** The widget w1 was pushed five times and not touched since. *)
Definition synced_db : db :=
  mk_db {[ "widgets" :=
           [[("widget_id", VStr "w1"); ("name", VStr "Alpha");
             ("created_at", VStr "2026-01-01T00:00:00+00:00");
             ("updated_at", VStr "2026-01-05T00:00:00+00:00")]] ]}
    [(("widgets", VStr "w1"),
      mk_mirror_row (Some "rec1") 5 (Some "2026-01-05T00:00:00+00:00"))].

(** Its remote copy was renamed, and carries an older [MirrorVersion]. *)
Definition rewound_remote : AirtableRecord :=
  mk_record "rec1"
    [("ExternalId", VStr "w1"); ("Name", VStr "Alpha Ltd"); ("MirrorVersion", VInt 1);
     ("MirrorUpdatedAt", VStr "2026-01-01T00:00:00+00:00")].

(** Two new remote records; the second lacks the required name. *)
Definition new_remote : AirtableRecord :=
  mk_record "rec2" [("ExternalId", VStr "w2"); ("Name", VStr "Beta"); ("MirrorVersion", VInt 1)].

Definition nameless_remote : AirtableRecord :=
  mk_record "rec3" [("ExternalId", VStr "w3"); ("MirrorVersion", VInt 1)].

Definition run_pull_records (records : list AirtableRecord) (apply : bool) (d : db) :=
  pull_records (serving records) mapping schema table_ids
    (Some (list_to_map ((λ t, (tm_id t, t)) <$> tables_meta))) (Some ∅) apply None None
    (world_of d).

Definition airtable_mirror : MirrorConfig := mk_mirror_config "airtable" (Some "appBase") table_ids.

End Example.

(** ** Vocabulary of the statements *)

Definition skip_local : list string → PullDecision :=
  λ changed, mk_decision "skip" changed (Some "local_changes").
Definition conflict_local : list string → PullDecision :=
  λ changed, mk_decision "conflict" changed (Some "local_changes").

(** The decision once both change flags are known. *)
Definition decision_of (local_changed : bool) (remote_changed : option bool)
    (changed : list string) : PullDecision :=
  if local_changed then
    match remote_changed with
    | Some false => skip_local changed
    | Some true | None => conflict_local changed
    end
  else mk_decision "apply" changed None.

(** [local_changed] as the specification words it: true without a ledger
    entry, else true exactly when the local [updated_at] parses and is
    strictly later than the ledger's [mirror_updated_at]. *)
Definition stated_local_changed `{PyBuiltins} (row : pydict) (mirror_state : option pydict)
  : bool :=
  match mirror_state with
  | None => true
  | Some ms =>
      match _parse_datetime (dict_get row "updated_at"),
            _parse_datetime (dict_get ms "mirror_updated_at") with
      | Some l, Some m =>
          match datetime_gt l m with Ok later => later | Err _ => false end
      | _, _ => false
      end
  end.

(** The decision table over that flag. *)
Definition stated_decision `{PyBuiltins} (local_row mirror_state : option pydict)
    (changed : list string) (remote_changed : option bool) : PullDecision :=
  match changed, local_row with
  | [], _ => mk_decision "skip" [] None
  | _, None => mk_decision "create" changed None
  | _, Some row => decision_of (stated_local_changed row mirror_state) remote_changed changed
  end.

(** [keeps R m]: every run of [m] relates the world it starts from to the
    world it ends in by [R], whether it returns or raises. *)
Definition keeps `{PyFloat} {A} (R : world → world → Prop) (m : M A) : Prop :=
  ∀ w, R w (m w).1.

Definition same_db `{PyFloat} (w w' : world) : Prop := w_db w' = w_db w.

Definition same_sync_file `{PyFloat} (w w' : world) : Prop := w_sync_file w' = w_sync_file w.

(** The counters partition the scanned records. *)
Definition partitioned (s : PullSummary) : Prop :=
  scanned s = (skipped s + applied s + created s + conflicts s + ignored s)%nat.

(** [after] is [before] with [scanned] and exactly one of the five other
    counters incremented. *)
Definition one_counter (before after : PullSummary) : Prop :=
  let s := incr_scanned before in
  after = incr_skipped s ∨ after = incr_applied s ∨ after = incr_created s
  ∨ after = incr_conflicts s ∨ after = incr_ignored s.

(** The ledger's version for a key, [None] without an entry. *)
Definition ledger_version `{PyFloat} (w : world) (key : string * pyval) : option Z :=
  mr_version <$> mirror_lookup (db_mirror (w_db w)) key.

(** The string-coerced non-absent members of a list value, in list order. *)
Fixpoint list_members `{PyBuiltins} (items : list pyval) (field_type : option string)
  : result (list string) :=
  match items with
  | [] => Ok []
  | item :: rest =>
      let* n := _normalize_value item field_type in
      let* members := list_members rest field_type in
      Ok (if is_NNone n then members else nval_str n :: members)
  end.

(** A relation on databases, read on the worlds that hold them. *)
Definition lifts `{PyFloat} (Q : db → db → Prop) (w w' : world) : Prop := Q (w_db w) (w_db w').

(** A relation on event logs, read on the worlds that hold them. *)
Definition on_events `{PyFloat} (E : list event → list event → Prop) (w w' : world) : Prop :=
  E (w_events w) (w_events w').

(** No ledger entry is lost. *)
Definition ledger_kept `{PyFloat} (d d' : db) : Prop :=
  ∀ key, is_Some (mirror_lookup (db_mirror d) key) → is_Some (mirror_lookup (db_mirror d') key).

(** No row is lost, and the tables outside [names] are as they were. *)
Definition rows_kept `{PyFloat} (names : list string) (d d' : db) : Prop :=
  (∀ table, (length (table_rows d table) ≤ length (table_rows d' table))%nat) ∧
  (∀ table, table ∉ names → db_tables d' !! table = db_tables d !! table).

Definition same_tables `{PyFloat} (d d' : db) : Prop := db_tables d' = db_tables d.

(** Every reply of a listing is below status 400. *)
Fixpoint listing_ok `{PyFloat} (l : listing) : bool :=
  match l with
  | Page reply next =>
      negb (400 <=? status_code reply)
      && match next with Some l' => listing_ok l' | None => true end
  end.

(** The records of all the pages of a listing, in page order. *)
Fixpoint listing_records `{PyFloat} (l : listing) : list AirtableRecord :=
  match l with
  | Page reply next =>
      (json reply ++ match next with Some l' => listing_records l' | None => [] end)%list
  end.

(** What a create or an apply writes when the run is in apply mode. *)
Definition ledger_written `{PyBuiltins} (apply : bool) (table_name : string)
    (record : AirtableRecord) (previous : option mirror_row) (w w' : world) : Prop :=
  if apply then
    ∃ v now,
      pulled_version (fields record) previous = Ok v ∧
      db_mirror (w_db w')
      = mirror_upsert (db_mirror (w_db w)) (table_name, dict_get (fields record) "ExternalId")
          (mk_mirror_row (Some (record_id record)) v (Some now))
  else w_db w' = w_db w.

Definition changes_accounted `{PyFloat} (names : list string)
    (st : PullSummary * list PullChange) : Prop :=
  (length st.2 = applied st.1 + created st.1 + conflicts st.1)%nat ∧
  Forall (λ c, pc_action c ∈ ["create"; "apply"; "conflict"] ∧ pc_table c ∈ names) st.2.

(** [l'] is [l] followed by events that all satisfy [P]. *)
Definition appends `{PyFloat} (P : event → Prop) (l l' : list event) : Prop :=
  ∃ new, l' = (l ++ new)%list ∧ Forall P new.

(** The event was written by an enabled logger, under its workspace. *)
Definition logged_by `{PyFloat} (logger : option EventLogger) (ev : event) : Prop :=
  ∃ lg, logger = Some lg ∧ enabled lg = true ∧ ev_workspace ev = workspace lg.

(** [raises P m]: every exception a run of [m] ends with satisfies [P]. *)
Definition raises `{PyFloat} {A} (P : exn → Prop) (m : M A) : Prop :=
  ∀ w w' e, m w = (w', Err e) → P e.

(** A change is logged when it is a conflict or when the run applies it. *)
Definition is_logged `{PyFloat} (apply : bool) (c : PullChange) : bool :=
  String.eqb (pc_action c) "conflict" || apply.

(** The event is the audit record of the change. *)
Definition records_change `{PyFloat} (lg : EventLogger) (ev : event) (c : PullChange) : Prop :=
  ev_workspace ev = workspace lg ∧ ev_entity_type ev = pc_table c ∧
  ev_external_id ev = pc_external_id c ∧ ev_changed_fields ev = pc_changed_fields c ∧
  ev_event_type ev
  = (if String.eqb (pc_action c) "conflict" then "pull_conflict" else "pull_apply") ∧
  ev_conflict ev = String.eqb (pc_action c) "conflict".

(** The change is a create into [table] that the run performs. *)
Definition inserts_into `{PyFloat} (apply : bool) (table : string) (c : PullChange) : bool :=
  String.eqb (pc_action c) "create" && String.eqb (pc_table c) table && apply.

(** An integer that the REAL version column of the ledger holds exactly:
    of magnitude at most 2 ^ 53. *)
Definition exact_version (v : Z) : Prop := Z.abs v ≤ 9007199254740992.

(** The ledger as its table holds it: the external ids are strings, as in
    its TEXT key column, and the versions are held exactly. *)
Definition sqlite_ledger `{PyFloat} (w : world) : Prop :=
  Forall (λ entry : (string * pyval) * mirror_row,
            (∃ id, entry.1.2 = VStr id) ∧ exact_version (mr_version entry.2))
    (db_mirror (w_db w)).

(** [chain step st xs st']: [st'] is reached from [st] by one [step] for
    each element of [xs], in order. *)
Inductive chain {A S : Type} (step : S → A → S → Prop) : S → list A → S → Prop :=
| chain_nil st : chain step st [] st
| chain_cons st x st1 xs st' :
    step st x st1 → chain step st1 xs st' → chain step st (x :: xs) st'.




Definition same_calls `{PyFloat} (w w' : world) : Prop := w_calls w' = w_calls w.



(** * Properties *)

(** ** The decision table *)

Section Decision.
Context `{PyBuiltins}.

Lemma decide_pull_action_flags row mirror_state changed remote_modified_at lc rc :
  changed ≠ [] →
  has_local_changes (Some row) mirror_state = Ok lc →
  has_remote_changes remote_modified_at mirror_state = Ok rc →
  decide_pull_action (Some row) mirror_state changed remote_modified_at
  = Ok (decision_of lc rc changed).
Proof.
  intros Hne Hl Hr. unfold decide_pull_action.
  destruct changed as [|f changed]; [done|].
  rewrite Hl, Hr. simpl.
  destruct lc, rc as [[]|]; reflexivity.
Qed.

Lemma has_local_changes_cases row mirror_state :
  has_local_changes (Some row) mirror_state =
  match mirror_state with
  | None => Ok true
  | Some ms =>
      match _parse_datetime (dict_get ms "mirror_updated_at"),
            _parse_datetime (dict_get row "updated_at") with
      | None, _ => Ok true
      | Some _, None => Ok false
      | Some m, Some l => datetime_gt l m
      end
  end.
Proof.
  unfold has_local_changes. destruct mirror_state as [ms|]; [|done].
  destruct (_parse_datetime (dict_get ms _)); [|done].
  by destruct (_parse_datetime (dict_get row _)).
Qed.

(** Without a remote-modified timestamp the remote side is never known to
    be unchanged, so a locally changed row is always a conflict. *)
Lemma decide_pull_action_without_remote_signal row mirror_state changed :
  changed ≠ [] →
  has_local_changes (Some row) mirror_state = Ok true →
  decide_pull_action (Some row) mirror_state changed VNone = Ok (conflict_local changed).
Proof.
  intros Hne Hl. by rewrite (decide_pull_action_flags _ _ _ _ true None Hne Hl).
Qed.

(** Every decision is one of the four actions. *)
Lemma decide_pull_action_actions local_row mirror_state changed remote_modified_at d :
  decide_pull_action local_row mirror_state changed remote_modified_at = Ok d →
  (action d = "skip" ∨ action d = "conflict") ∨ (action d = "create" ∨ action d = "apply").
Proof.
  unfold decide_pull_action. destruct changed; [intros [= <-]; auto|].
  destruct local_row; [|intros [= <-]; auto].
  destruct (has_local_changes _ _); [|done]. simpl.
  destruct (has_remote_changes _ _); [|done]. simpl.
  repeat case_match; intros [= <-]; auto.
Qed.

(** C1 (amended).  [decide_pull_action] implements the ordered table: no
    changed field gives [skip]; changed fields without a local row give
    [create]; otherwise, whenever the two timestamp comparisons are
    defined, a locally changed row gives [skip]/[local_changes] when the
    remote is known unchanged and [conflict]/[local_changes] when it
    changed or is unknown, and a locally unchanged row gives [apply].  A
    local row counts as changed when there is no ledger entry or the
    ledger's [mirror_updated_at] does not parse; else as unchanged when its
    own [updated_at] does not parse; else exactly when [updated_at] is
    strictly later than [mirror_updated_at]. *)
Theorem decide_pull_action_table (local_row mirror_state : option pydict)
    (changed : list string) (remote_modified_at : pyval) :
  (changed = [] →
   decide_pull_action local_row mirror_state changed remote_modified_at
   = Ok (mk_decision "skip" [] None)) ∧
  (changed ≠ [] → local_row = None →
   decide_pull_action local_row mirror_state changed remote_modified_at
   = Ok (mk_decision "create" changed None)) ∧
  (∀ row lc rc,
     changed ≠ [] → local_row = Some row →
     has_local_changes local_row mirror_state = Ok lc →
     has_remote_changes remote_modified_at mirror_state = Ok rc →
     decide_pull_action local_row mirror_state changed remote_modified_at
     = Ok (if lc then
             if bool_decide (rc = Some false) then skip_local changed
             else conflict_local changed
           else mk_decision "apply" changed None)) ∧
  (∀ row, local_row = Some row →
     match mirror_state with
     | None => has_local_changes local_row mirror_state = Ok true
     | Some ms =>
         match _parse_datetime (dict_get ms "mirror_updated_at") with
         | None => has_local_changes local_row mirror_state = Ok true
         | Some m =>
             match _parse_datetime (dict_get row "updated_at") with
             | None => has_local_changes local_row mirror_state = Ok false
             | Some l => has_local_changes local_row mirror_state = datetime_gt l m
             end
         end
     end).
Proof.
  split; [by intros ->|].
  split; [intros Hne ->; by destruct changed|].
  split.
  - intros row lc rc Hne -> Hl Hr.
    rewrite (decide_pull_action_flags _ _ _ _ _ _ Hne Hl Hr).
    unfold decision_of. by destruct lc, rc as [[]|].
  - intros row ->. rewrite has_local_changes_cases.
    destruct mirror_state as [ms|]; [|done].
    destruct (_parse_datetime (dict_get ms _)); [|done].
    by destruct (_parse_datetime (dict_get row _)).
Qed.

End Decision.

(** ** Normalization of list values *)

Section Normalization.
Context `{PyBuiltins}.

Lemma normalize_list items field_type :
  _normalize_value (VList items) field_type
  = let* members := list_members items field_type in Ok (NTuple members).
Proof.
  simpl.
  match goal with |- rbind (?each items) _ = _ => set (each_item := each) end.
  assert (∀ l, rbind (each_item l) (λ normalized, Ok (tuple_of_normalized normalized))
               = rbind (list_members l field_type) (λ members, Ok (NTuple members))) as Heach;
    [|apply Heach].
  induction l as [|item rest IH]; simpl; [done|].
  destruct (_normalize_value item field_type) as [n|e]; simpl; [|done].
  destruct (each_item rest) as [ns|e]; destruct (list_members rest field_type) as [ms|e'];
    simpl in *; try done.
  injection IH as IH. unfold tuple_of_normalized in *. simpl.
  rewrite filter_cons. subst ms. by destruct n.
Qed.

Lemma diff_fields_from_spec acc local_row remote_fields schema_fields items out :
  diff_fields_from acc local_row remote_fields schema_fields items = Ok out →
  ∃ new,
    out = (acc ++ new)%list ∧ sublist new items.*1 ∧
    ∀ f, f ∈ new ↔
         (f ∉ EXCLUDED_FIELDS) ∧
         ∃ airtable_field,
           (f, airtable_field) ∈ items ∧
           _values_equal (row_get local_row f) (dict_get remote_fields airtable_field)
             (schema_fields !! f ≫= spec_type) = Ok false.
Proof.
  revert acc out. induction items as [|[lf af] rest IH]; intros acc out; simpl.
  - intros [= <-]. exists []. rewrite app_nil_r. split; [done|]. split; [done|].
    intros f. split; [by intros ?%elem_of_nil|]. by intros (_ & af & ?%elem_of_nil & _).
  - case_bool_decide as Hex.
    + intros (new & -> & Hsub & Hmem)%IH. exists new. split; [done|].
      split; [by apply sublist_cons|]. intros f. rewrite Hmem. split.
      * intros (Hf & af' & Hin & Heq). split; [done|]. exists af'. split; [by right|done].
      * intros (Hf & af' & Hin & Heq). split; [done|]. exists af'. split; [|done].
        apply elem_of_cons in Hin as [[= -> ->]|Hin]; [done|done].
    + destruct (_values_equal _ _ _) as [[]|e] eqn:Hsame; simpl; [| |done].
      * intros (new & -> & Hsub & Hmem)%IH. exists new. split; [done|].
        split; [by apply sublist_cons|]. intros f. rewrite Hmem. split.
        -- intros (Hf & af' & Hin & Heq). split; [done|]. exists af'. split; [by right|done].
        -- intros (Hf & af' & Hin & Heq). split; [done|]. exists af'. split; [|done].
           apply elem_of_cons in Hin as [[= -> ->]|Hin]; [congruence|done].
      * intros (new & -> & Hsub & Hmem)%IH. exists (lf :: new).
        split; [by rewrite <- app_assoc|]. split; [by apply sublist_skip|].
        intros f. rewrite elem_of_cons, Hmem. split.
        -- intros [->|(Hf & af' & Hin & Heq)].
           ++ split; [done|]. exists af. split; [by left|done].
           ++ split; [done|]. exists af'. split; [by right|done].
        -- intros (Hf & af' & Hin & Heq).
           apply elem_of_cons in Hin as [[= -> ->]|Hin]; [by left|].
           right. split; [done|]. by exists af'.
Qed.

Lemma diff_fields_from_returns acc local_row remote_fields schema_fields items :
  (∀ f airtable_field,
     (f, airtable_field) ∈ items → f ∉ EXCLUDED_FIELDS →
     ∃ same, _values_equal (row_get local_row f) (dict_get remote_fields airtable_field)
               (schema_fields !! f ≫= spec_type) = Ok same) →
  ∃ out, diff_fields_from acc local_row remote_fields schema_fields items = Ok out.
Proof.
  revert acc. induction items as [|[lf af] rest IH]; intros acc Hall; simpl; [by eexists|].
  case_bool_decide as Hex.
  - apply IH. intros f af' Hin. apply Hall. by right.
  - destruct (Hall lf af) as [same ->]; [by left|done|]. simpl.
    apply IH. intros f af' Hin. apply Hall. by right.
Qed.

(** C4 (amended).  For every field type, a list value normalizes to the
    tuple of its string-coerced non-absent members in list order.  Two list
    values are therefore equal after normalization exactly when those
    member sequences are equal; and for every field map, [diff_fields]
    reports a compared field whose local and remote values are such lists
    exactly when the sequences differ, reorderings included.  The diff
    returns whenever the comparison of every compared field does, so it
    returns on the map of that field alone. *)
Theorem list_normalization_keeps_order (field_type : option string) (l1 l2 : list pyval)
    (s1 s2 : list string) :
  list_members l1 field_type = Ok s1 →
  list_members l2 field_type = Ok s2 →
  _normalize_value (VList l1) field_type = Ok (NTuple s1) ∧
  _normalize_value (VList l2) field_type = Ok (NTuple s2) ∧
  _values_equal (VList l1) (VList l2) field_type = Ok (bool_decide (s1 = s2)) ∧
  (∀ row remote_fields schema_fields local_field airtable_field,
     local_field ∉ EXCLUDED_FIELDS →
     schema_fields !! local_field ≫= spec_type = field_type →
     row_get (Some row) local_field = VList l1 →
     dict_get remote_fields airtable_field = VList l2 →
     diff_fields (Some row) remote_fields [(local_field, airtable_field)] schema_fields
     = Ok (if bool_decide (s1 = s2) then [] else [local_field])) ∧
  (∀ local_row remote_fields (field_map : list (string * string)) schema_fields local_field
     airtable_field,
     NoDup field_map.*1 →
     (local_field, airtable_field) ∈ field_map →
     local_field ∉ EXCLUDED_FIELDS →
     schema_fields !! local_field ≫= spec_type = field_type →
     row_get local_row local_field = VList l1 →
     dict_get remote_fields airtable_field = VList l2 →
     (∀ changed,
        diff_fields local_row remote_fields field_map schema_fields = Ok changed →
        (local_field ∈ changed ↔ s1 ≠ s2)) ∧
     ((∀ f af,
         (f, af) ∈ field_map → f ∉ EXCLUDED_FIELDS → f ≠ local_field →
         ∃ same, _values_equal (row_get local_row f) (dict_get remote_fields af)
                   (schema_fields !! f ≫= spec_type) = Ok same) →
      ∃ changed, diff_fields local_row remote_fields field_map schema_fields = Ok changed)).
Proof.
  intros H1 H2.
  assert (_normalize_value (VList l1) field_type = Ok (NTuple s1)) as N1
    by (rewrite normalize_list, H1; done).
  assert (_normalize_value (VList l2) field_type = Ok (NTuple s2)) as N2
    by (rewrite normalize_list, H2; done).
  assert (_values_equal (VList l1) (VList l2) field_type = Ok (bool_decide (s1 = s2))) as E
    by (unfold _values_equal; rewrite N1, N2; done).
  do 3 (split; [done|]). split.
  - intros row remote_fields schema_fields local_field airtable_field Hex Hty Hl Hr.
    unfold diff_fields, diff_fields_from.
    rewrite bool_decide_eq_false_2 by done.
    rewrite Hty, Hl, Hr, E. simpl. by case_bool_decide.
  - intros local_row remote_fields field_map schema_fields local_field airtable_field
      Hnodup Hin Hex Hty Hl Hr.
    assert (∀ af, (local_field, af) ∈ field_map → af = airtable_field) as Hone.
    { intros af Haf. apply list_elem_of_lookup in Hin as [i Hi].
      apply list_elem_of_lookup in Haf as [k Hk].
      assert (i = k) as ->; [|congruence].
      eapply NoDup_lookup; [exact Hnodup| |]; rewrite list_lookup_fmap.
      - by rewrite Hi.
      - by rewrite Hk. }
    split.
    + intros changed Hdiff. unfold diff_fields in Hdiff.
      apply diff_fields_from_spec in Hdiff as (new & -> & _ & Hmem). simpl.
      rewrite Hmem. split.
      * intros (_ & af & Haf & Hdiffers). apply Hone in Haf as ->.
        rewrite Hty, Hl, Hr, E in Hdiffers. injection Hdiffers as Hdiffers.
        by apply bool_decide_eq_false in Hdiffers.
      * intros Hne. split; [done|]. exists airtable_field. split; [done|].
        rewrite Hty, Hl, Hr, E. by rewrite bool_decide_eq_false_2.
    + intros Hothers. apply diff_fields_from_returns. intros f af Haf Hf.
      destruct (decide (f = local_field)) as [->|Hne]; [|by apply Hothers].
      apply Hone in Haf as ->. rewrite Hty, Hl, Hr, E. by eexists.
Qed.

End Normalization.

(** ** Diff, coercion and decision: further properties *)

Section Coercion.
Context `{PyBuiltins}.

(** X1.  [diff_fields] reports exactly the mapped local fields, other than
    [created_at] and [updated_at], whose normalized local and remote values
    differ, each field in the order of the mapping. *)
Theorem diff_fields_reports_the_differing_fields local_row remote_fields field_map
    schema_fields changed :
  diff_fields local_row remote_fields field_map schema_fields = Ok changed →
  sublist changed field_map.*1 ∧
  ∀ f, f ∈ changed ↔
       (f ∉ EXCLUDED_FIELDS) ∧
       ∃ airtable_field,
         (f, airtable_field) ∈ field_map ∧
         _values_equal (row_get local_row f) (dict_get remote_fields airtable_field)
           (schema_fields !! f ≫= spec_type) = Ok false.
Proof.
  unfold diff_fields. intros (new & -> & Hsub & Hmem)%diff_fields_from_spec. done.
Qed.









(** X3.  A decision carries the changed fields it was given; [create] and
    [apply] never carry a reason, [conflict] always carries
    [local_changes], and [skip] carries that reason exactly when there were
    changed fields to skip.  [create] is decided exactly for changed fields
    without a local row. *)
Theorem decide_pull_action_shape local_row mirror_state changed remote_modified_at d :
  decide_pull_action local_row mirror_state changed remote_modified_at = Ok d →
  changed_fields d = changed ∧
  (action d = "create" ∨ action d = "apply" → reason d = None) ∧
  (action d = "conflict" → reason d = Some "local_changes") ∧
  (action d = "skip" → (reason d = None ↔ changed = [])) ∧
  (action d = "create" ↔ changed ≠ [] ∧ local_row = None).
Proof.
  unfold decide_pull_action. destruct changed as [|f changed].
  { intros [= <-]. simpl. intuition congruence. }
  destruct local_row as [row|].
  2: { intros [= <-]. simpl. intuition congruence. }
  destruct (has_local_changes _ _) as [lc|]; [|done]. simpl.
  destruct (has_remote_changes _ _) as [rc|]; [|done]. simpl.
  repeat case_match; intros [= <-]; simpl; intuition congruence.
Qed.

(** X4.  The remote side is "unknown" exactly when the remote-modified
    value does not parse as a timestamp ([None] included); it is known
    unchanged only against a ledger timestamp that parses and that the
    remote one is not strictly after; and without such a ledger timestamp a
    parsable remote timestamp always counts as changed. *)
Theorem has_remote_changes_cases remote_modified_at mirror_state r :
  has_remote_changes remote_modified_at mirror_state = Ok r →
  (r = None ↔ _parse_datetime remote_modified_at = None) ∧
  (r = Some false →
   ∃ ms remote ledger,
     mirror_state = Some ms ∧ _parse_datetime remote_modified_at = Some remote ∧
     _parse_datetime (dict_get ms "mirror_updated_at") = Some ledger ∧
     datetime_gt remote ledger = Ok false) ∧
  ((∀ ms, mirror_state = Some ms → _parse_datetime (dict_get ms "mirror_updated_at") = None) →
   r ≠ None → r = Some true).
Proof.
  unfold has_remote_changes.
  destruct (_parse_datetime remote_modified_at) as [remote|] eqn:Hremote.
  2: { destruct remote_modified_at; intros [= <-]; repeat split; try done. }
  assert (remote_modified_at ≠ VNone) as Hnn by (by intros ->).
  destruct mirror_state as [[|entry ms]|].
  - destruct remote_modified_at; try done; intros [= <-]; repeat split; try done.
  - set (ledger := _parse_datetime (dict_get (entry :: ms) "mirror_updated_at")).
    intros Hr.
    assert (match ledger with
            | None => r = Some true
            | Some m => ∃ b, datetime_gt remote m = Ok b ∧ r = Some b
            end) as Hcases.
    { destruct remote_modified_at; try done; fold ledger in Hr; destruct ledger as [m|];
        simpl in Hr; try (by injection Hr as <-);
        destruct (datetime_gt remote m) as [b|]; simpl in Hr; try done;
        injection Hr as <-; eauto. }
    clear Hr. destruct ledger as [m|] eqn:Hledger.
    + destruct Hcases as (b & Hb & ->). repeat split; try done.
      * intros [= ->]. exists (entry :: ms), remote, m.
        split; [done|]. split; [done|]. split; [exact Hledger|exact Hb].
      * intros Hall. specialize (Hall _ eq_refl). fold ledger in Hall. congruence.
    + subst r. repeat split; try done.
  - destruct remote_modified_at; try done; intros [= <-]; repeat split; try done.
Qed.

Lemma nval_eqb_refl_parsed (n : nval) :
  match n with NFloat _ | NBool _ | NTuple _ => False | _ => True end → nval_eqb n n = true.
Proof.
  destruct n as [|s| | |d|t|]; simpl; try done.
  - intros _. apply String.eqb_refl.
  - intros _. apply Z.eqb_refl.
  - intros _. unfold datetime_eqb. destruct (dt_utcoffset t); apply Z.eqb_refl.
Qed.

(** X5.  A pulled string converges: once [_convert_value] has produced the
    value to store for a non-empty remote string, the diff of that stored
    value against the same remote string finds no change, for every field
    type; in a number field this needs the string to parse to a float equal
    to itself (not a NaN). *)
Theorem converted_string_matches_remote (c : ascii) (rest : string) (spec : option field_spec)
    converted :
  let s := String c rest in
  (type_in (spec ≫= spec_type) ["number"] = true →
   ∃ x, float_of_str s = Some x ∧ float_eqb x x = true) →
  _convert_value (VStr s) spec = Ok converted →
  _values_equal converted (VStr s) (spec ≫= spec_type) = Ok true.
Proof.
  intros s Hnumber. unfold _convert_value, _values_equal.
  set (ft := spec ≫= spec_type) in *.
  change (_normalize_value (VStr s) ft) with (normalize_scalar (VStr s) ft).
  destruct (type_in ft ["uuid"; "text"; "enum"]) eqn:Htext.
  { intros [= <-]. change (py_str (VStr s)) with s.
    change (_normalize_value (VStr s) ft) with (normalize_scalar (VStr s) ft).
    unfold normalize_scalar. rewrite Htext. cbv [rbind nval_eqb].
    by rewrite String.eqb_refl. }
  destruct (type_in ft ["number"]) eqn:Hnum.
  { destruct (Hnumber eq_refl) as (x & Hx & Hxx).
    change (py_float (VStr s)) with
      (match float_of_str s with
       | Some x => Ok x
       | None => Err (raise_msg ValueError "could not convert string to float")
       end).
    rewrite Hx. intros [= <-].
    change (_normalize_value (VFloat x) ft) with (normalize_scalar (VFloat x) ft).
    unfold normalize_scalar. rewrite Htext, Hnum.
    change (py_float (VFloat x)) with (Ok (A:=pyfloat) x).
    change (py_float (VStr s)) with
      (match float_of_str s with
       | Some x => Ok x
       | None => Err (raise_msg ValueError "could not convert string to float")
       end).
    rewrite Hx. cbv [rbind nval_eqb]. by rewrite Hxx. }
  destruct (type_in ft ["bool"]) eqn:Hbool.
  { intros [= <-].
    match goal with |- context [VBool ?b] =>
      change (_normalize_value (VBool b) ft) with (normalize_scalar (VBool b) ft)
    end.
    unfold normalize_scalar. rewrite Htext, Hnum, Hbool. cbv [rbind nval_eqb py_truthy].
    by destruct (bool_decide _). }
  assert (∀ n, normalize_scalar (VStr s) ft = Ok n →
               match n with NFloat _ | NBool _ | NTuple _ => False | _ => True end) as Hkind.
  { unfold normalize_scalar. rewrite Htext, Hnum, Hbool.
    intros n.
    destruct (type_in ft ["date"]);
      [intros [= <-]; unfold nval_of_date, _parse_date;
       by destruct (date_fromisoformat _)|].
    destruct (type_in ft ["datetime"]);
      [intros [= <-]; unfold nval_of_datetime, _parse_datetime;
       by destruct (datetime_fromisoformat _)|].
    by intros [= <-]. }
  assert (rbind (normalize_scalar (VStr s) ft)
            (λ l, rbind (normalize_scalar (VStr s) ft) (λ r, Ok (nval_eqb l r))) = Ok true)
    as Hsame.
  { destruct (normalize_scalar (VStr s) ft) as [n|e] eqn:Hn; simpl.
    - by rewrite (nval_eqb_refl_parsed n (Hkind n eq_refl)).
    - unfold normalize_scalar in Hn. rewrite Htext, Hnum, Hbool in Hn.
      by repeat case_match. }
  destruct (type_in ft ["date"; "datetime"]); intros [= <-]; exact Hsame.
Qed.

End Coercion.

(** ** The orchestrators

    First the frames of the effectful operations: what a run of each can
    and cannot have touched. *)

Section Orchestrator.
Context `{PyBuiltins} `{!Environment}.

#[local] Instance same_db_preorder : PreOrder same_db.
Proof. split; unfold same_db; [done|intros x y z; congruence]. Qed.

#[local] Instance same_sync_file_preorder : PreOrder same_sync_file.
Proof. split; unfold same_sync_file; [done|intros x y z; congruence]. Qed.

Section Generic.
Context (R : world → world → Prop) `{!PreOrder R}.

Lemma keeps_ret {A} (a : A) : keeps R (ret a).
Proof. intros w. reflexivity. Qed.

Lemma keeps_throw {A} e : keeps R (throw (A:=A) e).
Proof. intros w. reflexivity. Qed.

Lemma keeps_lift {A} (r : result A) : keeps R (lift r).
Proof. intros w. reflexivity. Qed.

Lemma keeps_query {A} (q : db → result A) : keeps R (query q).
Proof. intros w. reflexivity. Qed.

Lemma keeps_bind {A B} (m : M A) (k : A → M B) :
  keeps R m → (∀ a, keeps R (k a)) → keeps R (bind m k).
Proof.
  intros Hm Hk w. unfold bind. specialize (Hm w).
  destruct (m w) as [w' [a|e]]; simpl in *; [|done].
  etrans; [exact Hm|apply Hk].
Qed.

Lemma keeps_foldM {A S} (f : S → A → M S) (l : list A) :
  (∀ s a, keeps R (f s a)) → ∀ s, keeps R (foldM f s l).
Proof.
  intros Hf. induction l as [|a l IH]; intros s; simpl.
  - apply keeps_ret.
  - apply keeps_bind; auto.
Qed.

Lemma keeps_handle {A} (m : M A) h : keeps R m → keeps R (handle m h).
Proof.
  intros Hm w. unfold handle. specialize (Hm w).
  by destruct (m w) as [w' [a|e]].
Qed.

Lemma keeps_as_mirror_error {A} (m : M A) : keeps R m → keeps R (as_mirror_error m).
Proof.
  intros Hm w. unfold as_mirror_error. specialize (Hm w).
  destruct (m w) as [w' [a|e]]; [done|]. by case_decide.
Qed.

End Generic.

(** Reading the clock, logging and talking to the service leave the
    database alone. *)
Lemma same_db_utc_now_iso : keeps same_db utc_now_iso.
Proof. by intros w. Qed.

Lemma same_db_log_event logger et en ext ch c : keeps same_db (log_event logger et en ext ch c).
Proof. intros w. unfold log_event. destruct logger as [lg|]; [|done]. by destruct (enabled lg). Qed.

Lemma same_db_converse {A} (f : nat → result A) : keeps same_db (converse f).
Proof. by intros w. Qed.

(** A session ends in the database it started from or in the one its body
    reached. *)
Lemma same_db_with_session {A} (body : M A) : keeps same_db body → keeps same_db (with_session body).
Proof.
  intros Hb w. unfold with_session. specialize (Hb w).
  by destruct (body w) as [w' [a|e]].
Qed.

(** Nothing but [save_sync_state] writes the sync-state file. *)
Lemma same_sync_file_utc_now_iso : keeps same_sync_file utc_now_iso.
Proof. by intros w. Qed.

Lemma same_sync_file_log_event logger et en ext ch c :
  keeps same_sync_file (log_event logger et en ext ch c).
Proof. intros w. unfold log_event. destruct logger as [lg|]; [|done]. by destruct (enabled lg). Qed.

Lemma same_sync_file_converse {A} (f : nat → result A) : keeps same_sync_file (converse f).
Proof. by intros w. Qed.

Lemma same_sync_file_mutate f : keeps same_sync_file (mutate f).
Proof. intros w. unfold mutate. by destruct (f (w_db w)). Qed.

Lemma same_sync_file_with_session {A} (body : M A) :
  keeps same_sync_file body → keeps same_sync_file (with_session body).
Proof.
  intros Hb w. unfold with_session. specialize (Hb w).
  by destruct (body w) as [w' [a|e]].
Qed.

Lemma same_sync_file_query {A} (q : db → result A) : keeps same_sync_file (query q).
Proof. by intros w. Qed.

Ltac frame_step :=
  first
    [ apply keeps_ret; tc_solve | apply keeps_throw; tc_solve | apply keeps_lift; tc_solve
    | apply keeps_query; tc_solve
    | apply same_db_utc_now_iso | apply same_db_log_event | apply same_db_converse
    | apply same_sync_file_utc_now_iso | apply same_sync_file_log_event
    | apply same_sync_file_converse | apply same_sync_file_mutate
    | apply same_db_with_session | apply same_sync_file_with_session
    | apply keeps_handle; [tc_solve|] | apply keeps_handle
    | apply keeps_as_mirror_error; [tc_solve|] | apply keeps_as_mirror_error
    | apply keeps_foldM; [tc_solve|intros ??]
    | apply keeps_bind; [tc_solve| |intros ?] ].

Ltac frame := repeat (frame_step || (progress simpl) || case_match).

(** ** The pull orchestrator *)



(** *** Inverting a run that returned *)

Lemma bind_ok {A B} (m : M A) (k : A → M B) w w' b :
  bind m k w = (w', Ok b) → ∃ a w1, m w = (w1, Ok a) ∧ k a w1 = (w', Ok b).
Proof.
  unfold bind. destruct (m w) as [w1 [a|e]] eqn:Hm; [|done]. intros Hk. eauto.
Qed.

Lemma ret_ok {A} (a b : A) w w' : ret a w = (w', Ok b) → w' = w ∧ b = a.
Proof. by intros [= -> ->]. Qed.

Lemma lift_ok {A} (r : result A) w w' a : lift r w = (w', Ok a) → w' = w ∧ r = Ok a.
Proof. by intros [= -> ->]. Qed.

Lemma query_ok {A} (q : db → result A) w w' a :
  query q w = (w', Ok a) → w' = w ∧ q (w_db w) = Ok a.
Proof. by intros [= -> ->]. Qed.

Lemma with_session_ok {A} (body : M A) w w' a :
  with_session body w = (w', Ok a) → body w = (w', Ok a).
Proof. unfold with_session. destruct (body w) as [w1 [x|e]]; [|done]. by intros [= -> ->]. Qed.

Lemma foldM_ok_invariant {A S} (P : S → Prop) (f : S → A → M S) (l : list A) :
  (∀ s a w w' s', P s → f s a w = (w', Ok s') → P s') →
  ∀ s w w' s', P s → foldM f s l w = (w', Ok s') → P s'.
Proof.
  intros Hf. induction l as [|a l IH]; simpl; intros s w w' s' Hs Hrun.
  - apply ret_ok in Hrun as [_ ->]. done.
  - apply bind_ok in Hrun as (s1 & w1 & Hstep & Hrest). eauto.
Qed.

Ltac invert_run :=
  repeat match goal with
    | H : bind _ _ _ = (_, Ok _) |- _ =>
        let a := fresh "a" in let w := fresh "w" in let Ha := fresh "Hrun" in
        apply bind_ok in H as (a & w & Ha & H)
    | H : ret _ _ = (_, Ok _) |- _ => apply ret_ok in H as [-> H]; simplify_eq
    | H : lift _ _ = (_, Ok _) |- _ => apply lift_ok in H as [-> H]
    | H : query _ _ = (_, Ok _) |- _ => apply query_ok in H as [-> H]
    | H : throw _ _ = (_, Ok _) |- _ => discriminate H
    end.

Lemma dict_has_false_get (d : pydict) key : dict_has d key = false → dict_get d key = VNone.
Proof.
  induction d as [|[k v] d IH]; simpl; [done|].
  destruct (String.eqb k key); simpl; [done|auto].
Qed.

(** C10.  A remote record whose [ExternalId] is falsy (an empty string,
    [None], zero, an empty list) is only counted: [pull_record] returns with
    [scanned] and [ignored] incremented, the change list as it was, and the
    world (rows, ledger, event log, clock) untouched, in apply mode as in a
    dry run; and it does on it exactly what it does on a record that lacks
    the field. *)
Theorem pull_record_ignores_falsy_external_id table_name ext_field fields_map schema_fields
    apply accept logger summary changes (record missing : AirtableRecord) (w : world) :
  py_truthy (dict_get (fields record) "ExternalId") = false →
  dict_has (fields missing) "ExternalId" = false →
  pull_record table_name ext_field fields_map schema_fields apply accept logger
    (summary, changes) record w
  = (w, Ok (incr_ignored (incr_scanned summary), changes)) ∧
  pull_record table_name ext_field fields_map schema_fields apply accept logger
    (summary, changes) record w
  = pull_record table_name ext_field fields_map schema_fields apply accept logger
      (summary, changes) missing w.
Proof.
  intros Hfalsy Hmissing. apply dict_has_false_get in Hmissing.
  unfold pull_record. rewrite Hfalsy, Hmissing. done.
Qed.

Lemma pull_record_final_action table_name ext_field fields_map schema_fields apply accept
    logger summary changes record w w' st' :
  pull_record table_name ext_field fields_map schema_fields apply accept logger
    (summary, changes) record w = (w', Ok st') →
  let s := incr_scanned summary in
  (st' = (incr_ignored s, changes) ∧ w' = w) ∨
  (st' = (incr_skipped s, changes) ∧ w' = w) ∨
  ∃ change, st'.2 = (changes ++ [change])%list ∧
    ((pc_action change = "conflict" ∧ st'.1 = incr_conflicts s) ∨
     (pc_action change = "create" ∧ st'.1 = incr_created s) ∨
     (pc_action change = "apply" ∧ st'.1 = incr_applied s)).
Proof.
  unfold pull_record. intros Hrun. cbv zeta.
  destruct (py_truthy _); simpl in Hrun; [|invert_run; auto].
  invert_run.
  destruct (String.eqb (action _) "skip") eqn:Hskip; [invert_run; auto|].
  invert_run. right. right.
  match goal with H : decide_pull_action _ _ _ _ = Ok _ |- _ =>
    pose proof (decide_pull_action_actions _ _ _ _ _ H) as Hact
  end.
  destruct Hact as [[E|E]|[E|E]]; rewrite E in *; simpl in *; [done|..]; invert_run;
    repeat (case_match; simpl in *; rewrite ?E in *; simpl in *); invert_run;
    eexists; (split; [reflexivity|]); simpl; rewrite ?E; auto.
Qed.



Lemma one_counter_partitioned before after :
  partitioned before → one_counter before after → partitioned after.
Proof.
  unfold partitioned, one_counter. destruct before. simpl.
  intros Hp [-> | [-> | [-> | [-> | ->] ] ] ]; simpl; lia.
Qed.

Lemma pull_record_one_counter table_name ext_field fields_map schema_fields apply accept logger
    summary changes record w w' summary' changes' :
  pull_record table_name ext_field fields_map schema_fields apply accept logger
    (summary, changes) record w = (w', Ok (summary', changes')) →
  one_counter summary summary'.
Proof.
  intros Hrun. apply pull_record_final_action in Hrun. unfold one_counter. simpl in Hrun.
  destruct Hrun as [ [? _] | [ [? _] | (change & _ & [ [_ ->] | [ [_ ->] | [_ ->] ] ]) ] ];
    simplify_eq; auto.
Qed.

Lemma pull_table_partitioned client schema table_ids tables_meta last apply accept logger
    st entry w w' st' :
  partitioned st.1 →
  pull_table client schema table_ids tables_meta last apply accept logger st entry w
  = (w', Ok st') →
  partitioned st'.1.
Proof.
  intros Hp. unfold pull_table. destruct entry as [table_name table_def].
  repeat case_match; intros Hrun; invert_run.
  all: apply with_session_ok in Hrun.
  all: eapply (foldM_ok_invariant (λ st, partitioned st.1)); [|exact Hp|exact Hrun].
  all: intros [??] ??? [??] Hs Hstep; simpl in *.
  all: eapply one_counter_partitioned; [exact Hs|].
  all: eapply pull_record_one_counter; exact Hstep.
Qed.

(** C9.  When [pull_records] returns, its counters partition the scanned
    records: [scanned = skipped + applied + created + conflicts + ignored];
    and every record the loop gets through increments [scanned] and exactly
    one of the five other counters, in apply mode and in a dry run alike. *)
Theorem pull_records_counters_partition client mapping schema table_ids tables_meta last apply
    accept logger (w w' : world) summary changes :
  pull_records client mapping schema table_ids tables_meta last apply accept logger w
  = (w', Ok (summary, changes)) →
  partitioned summary ∧
  ∀ table_name ext_field fields_map schema_fields s ch record w1 w2 s' ch',
    pull_record table_name ext_field fields_map schema_fields apply (default ∅ accept) logger
      (s, ch) record w1 = (w2, Ok (s', ch')) →
    one_counter s s'.
Proof.
  intros Hrun. split.
  - unfold pull_records in Hrun.
    eapply (foldM_ok_invariant (λ st, partitioned st.1)) in Hrun; [exact Hrun| |done].
    intros st entry w1 w2 st' Hst Hstep. eapply pull_table_partitioned; eauto.
  - intros. eapply pull_record_one_counter; eauto.
Qed.



#[local] Instance same_calls_preorder : PreOrder same_calls.
Proof. split; [done|]. unfold same_calls. intros w1 w2 w3. congruence. Qed.






Lemma chain_fmap {A B S} (f : A → B) (step : S → B → S → Prop) st xs st' :
  chain (λ st x st1, step st (f x) st1) st xs st' → chain step st (f <$> xs) st'.
Proof. induction 1; simpl; econstructor; eauto. Qed.






(** ** The watermark *)

Lemma pull_records_keeps_sync_file client mapping schema table_ids tables_meta last apply accept
    logger :
  keeps same_sync_file
    (pull_records client mapping schema table_ids tables_meta last apply accept logger).
Proof.
  unfold pull_records. apply keeps_foldM; [tc_solve|]. intros st [table_name table_def].
  unfold pull_table. repeat case_match; try (apply keeps_throw; tc_solve).
  all: apply keeps_bind; [tc_solve|apply same_sync_file_converse|intros records].
  all: apply same_sync_file_with_session, keeps_foldM; [tc_solve|intros [??] ?].
  all: unfold pull_record, _insert_local, _update_local; frame.
Qed.

Lemma stamp_lookup (now : string) (names : list string) (m : gmap string string) t :
  foldl (λ acc name, <[name := now]> acc) m names !! t
  = if bool_decide (t ∈ names) then Some now else m !! t.
Proof.
  revert m. induction names as [|name names IH]; intros m; simpl; [done|].
  rewrite IH. destruct (decide (t = name)) as [->|Hne].
  - rewrite lookup_insert_eq. rewrite (bool_decide_eq_true_2 (name ∈ name :: names)) by set_solver.
    by case_bool_decide.
  - rewrite lookup_insert_ne by done.
    rewrite (bool_decide_ext (t ∈ name :: names) (t ∈ names)); [done|].
    rewrite elem_of_cons. tauto.
Qed.


(** C3.  A pull cycle that returns in apply mode with no conflict in its
    summary takes one last reading of the clock and writes it as the
    [last_pull_at] watermark of every mapped table, leaving the watermarks
    of the other tables as they were loaded.  A cycle that records a
    conflict, a dry run, and a cycle that raises leave the sync-state file
    untouched, so no watermark advances. *)
Theorem pull_advances_watermark mirror env_key client mapping schema apply accept logger
    (w : world) :
  let run := pull mirror env_key client mapping schema apply accept logger w in
  let loaded := default ∅ (last_pull_at <$> w_sync_file w) in
  match run.2 with
  | Ok (summary, _) =>
      if apply && (conflicts summary =? 0)%nat then
        ∃ n state,
          w_clock run.1 = S n ∧ w_sync_file run.1 = Some state ∧
          ∀ t, last_pull_at state !! t
               = if bool_decide (t ∈ (tables mapping).*1) then Some (clock n)
                 else loaded !! t
      else w_sync_file run.1 = w_sync_file w
  | Err _ => w_sync_file run.1 = w_sync_file w
  end.
Proof.
  intros run loaded. subst loaded.
  assert (run = pull mirror env_key client mapping schema apply accept logger w) as Hrun
    by done.
  clearbody run. unfold pull in Hrun.
  unfold bind at 1, lift at 1 in Hrun.
  destruct (_require_airtable_config mirror); [|by subst run].
  unfold bind at 1, lift at 1 in Hrun.
  destruct (_require_api_key env_key); [|by subst run].
  unfold bind at 1, load_sync_state at 1 in Hrun. unfold bind at 1 in Hrun.
  match type of Hrun with context [handle ?body ?h w] =>
    assert (keeps same_sync_file body) as Hbody;
    [|pose proof (keeps_handle same_sync_file _ h Hbody w) as Hkeep;
      destruct (handle body h w) as [w1 [[summary changes]|e]]]
  end.
  - unfold list_tables. apply keeps_bind; [tc_solve|apply same_sync_file_converse|].
    intros listed. apply pull_records_keeps_sync_file.
  - unfold same_sync_file in Hkeep. simpl in Hkeep.
    destruct (apply && (conflicts summary =? 0)%nat) eqn:Hgo; subst run; simpl; rewrite Hgo;
      [|done].
    eexists _, _. split; [reflexivity|]. split; [reflexivity|].
    intros t. simpl. rewrite stamp_lookup. by destruct (w_sync_file w).
  - subst run. done.
Qed.


(** ** Errors of the remote service *)

(** C7 (what the code does).  [AirtableError] carries the status only
    inside its message, so the handler of [pull], which reads
    [exc.status_code], raises [AttributeError] whatever the status of the
    failed reply: 401 and 403 surface exactly as 500 does. *)
Theorem pull_surfaces_attribute_error mirror env_key client mapping schema apply accept logger
    (w : world) :
  is_ok (_require_airtable_config mirror) = true →
  is_ok (_require_api_key env_key) = true →
  400 ≤ status_code (reply_tables client (w_calls w)) →
  (pull mirror env_key client mapping schema apply accept logger w).2
  = Err (raise_msg AttributeError "'AirtableError' object has no attribute 'status_code'").
Proof.
  intros Hconfig Hkey Hstatus. unfold pull.
  unfold bind at 1, lift at 1. destruct (_require_airtable_config mirror); [|done].
  unfold bind at 1, lift at 1. destruct (_require_api_key env_key); [|done].
  unfold bind at 1, load_sync_state at 1. unfold bind at 1.
  unfold handle, list_tables, converse, _request. unfold bind at 1.
  apply Z.leb_le in Hstatus. rewrite Hstatus. reflexivity.
Qed.

(** ** Transactions *)

Lemma foldM_app {A S} (f : S → A → M S) (l1 l2 : list A) s w :
  foldM f s (l1 ++ l2)%list w =
  match foldM f s l1 w with
  | (w1, Ok s1) => foldM f s1 l2 w1
  | (w1, Err e) => (w1, Err e)
  end.
Proof.
  revert s w. induction l1 as [|a l1 IH]; intros s w; simpl; [done|].
  unfold bind. destruct (f s a w) as [w1 [s1|e]]; [apply IH|done].
Qed.

Lemma pull_table_rolls_back client schema table_ids tables_meta last apply accept logger st
    entry w w' e :
  pull_table client schema table_ids tables_meta last apply accept logger st entry w
  = (w', Err e) →
  w_db w' = w_db w.
Proof.
  unfold pull_table. destruct entry as [table_name table_def].
  repeat case_match; try by intros [= <- _].
  all: unfold bind, list_records, converse; simpl.
  all: destruct (collect_pages _ _); [|by intros [= <- _]].
  all: unfold with_session.
  all: match goal with |- context [foldM ?f ?s ?l ?w0] => destruct (foldM f s l w0) as [w1 [x|e1]] end.
  all: by intros [= <- _].
Qed.

(** C5 (amended).  The row mutations and ledger upserts of all the records
    of one table form one transaction.  When processing a record raises,
    the database is back to what it was before the table's first record, so
    that no record of the table keeps its row mutation or its ledger upsert
    (in particular never one without the other); the tables processed
    earlier in the run stay committed. *)
Theorem pull_table_is_one_transaction client mapping schema table_ids tables_meta last apply
    accept logger before entry after (w w1 w2 : world) st1 e :
  tables mapping = (before ++ entry :: after)%list →
  foldM (pull_table client schema table_ids tables_meta last apply (default ∅ accept) logger)
    (mk_summary 0 0 0 0 0 0, []) before w = (w1, Ok st1) →
  pull_table client schema table_ids tables_meta last apply (default ∅ accept) logger st1
    entry w1 = (w2, Err e) →
  pull_records client mapping schema table_ids tables_meta last apply accept logger w
  = (w2, Err e) ∧
  w_db w2 = w_db w1.
Proof.
  intros Htables Hbefore Hentry. split.
  - unfold pull_records. rewrite Htables, foldM_app, Hbefore. simpl.
    unfold bind. by rewrite Hentry.
  - eapply pull_table_rolls_back; eauto.
Qed.


(** ** The mirror-state ledger *)

Lemma mirror_lookup_upsert l key r k :
  mirror_lookup (mirror_upsert l key r) k
  = if decide (key = k) then Some r else mirror_lookup l k.
Proof.
  induction l as [|[k0 r0] l IH]; simpl.
  - by repeat case_decide.
  - destruct (decide (k0 = key)) as [->|Hne]; simpl.
    + by repeat case_decide.
    + rewrite IH. repeat case_decide; congruence.
Qed.

Lemma utc_now_iso_ok w w' now :
  utc_now_iso w = (w', Ok now) →
  w_db w' = w_db w ∧ now = clock (w_clock w).
Proof. by intros [= <- <-]. Qed.

Lemma mutate_ok f w w' u :
  mutate f w = (w', Ok u) → f (w_db w) = Ok (w_db w').
Proof. unfold mutate. destruct (f (w_db w)); [|done]. by intros [= <- _]. Qed.

Lemma log_event_db logger et en ext ch c w w' r :
  log_event logger et en ext ch c w = (w', r) → w_db w' = w_db w.
Proof. intros Hrun. pose proof (same_db_log_event logger et en ext ch c w) as Hk. by rewrite Hrun in Hk. Qed.

Lemma insert_local_ledger table_name ext_field fields_map remote_fields schema_fields w w' r :
  _insert_local table_name ext_field fields_map remote_fields schema_fields w = (w', r) →
  db_mirror (w_db w') = db_mirror (w_db w).
Proof.
  unfold _insert_local, bind, utc_now_iso, lift, mutate, execute_insert. simpl.
  repeat case_match; simplify_eq; intros; simplify_eq; done.
Qed.

Lemma update_local_ledger table_name ext_field fields_map remote_fields schema_fields w w' r :
  _update_local table_name ext_field fields_map remote_fields schema_fields w = (w', r) →
  db_mirror (w_db w') = db_mirror (w_db w).
Proof.
  unfold _update_local, bind, utc_now_iso, lift, mutate, execute_update. simpl.
  repeat case_match; simplify_eq; intros; simplify_eq; done.
Qed.

Lemma get_mirror_state_ok d table ext r :
  get_mirror_state d table ext = Ok r → r = mirror_lookup (db_mirror d) (table, ext).
Proof. unfold get_mirror_state. case_match; by intros [= <-]. Qed.

Lemma upsert_mirror_state_ok d table ext rid v ts d' :
  upsert_mirror_state d table ext rid v ts = Ok d' →
  db_mirror d' = mirror_upsert (db_mirror d) (table, ext) (mk_mirror_row rid v ts).
Proof. unfold upsert_mirror_state. case_match; by intros [= <-]. Qed.

Ltac ledger_steps :=
  repeat match goal with
    | H : utc_now_iso _ = (_, Ok _) |- _ => apply utc_now_iso_ok in H as [? ?]
    | H : mutate _ _ = (_, Ok _) |- _ => apply mutate_ok, upsert_mirror_state_ok in H
    | H : log_event _ _ _ _ _ _ _ = (_, _) |- _ => apply log_event_db in H
    | H : _insert_local _ _ _ _ _ _ = (_, _) |- _ => apply insert_local_ledger in H
    | H : _update_local _ _ _ _ _ _ = (_, _) |- _ => apply update_local_ledger in H
    | H : get_mirror_state _ _ _ = Ok _ |- _ => apply get_mirror_state_ok in H
    end.

Lemma pull_record_ledger table_name ext_field fields_map schema_fields apply accept logger st
    record w w' st' :
  pull_record table_name ext_field fields_map schema_fields apply accept logger st record w
  = (w', Ok st') →
  let key := (table_name, dict_get (fields record) "ExternalId") in
  db_mirror (w_db w') = db_mirror (w_db w) ∨
  ∃ v now,
    pulled_version (fields record) (mirror_lookup (db_mirror (w_db w)) key) = Ok v ∧
    db_mirror (w_db w')
    = mirror_upsert (db_mirror (w_db w)) key (mk_mirror_row (Some (record_id record)) v (Some now)).
Proof.
  unfold pull_record. destruct st as [summary changes]. intros Hrun. cbv zeta.
  destruct (py_truthy _); simpl in Hrun; [|invert_run; auto].
  invert_run.
  destruct (String.eqb (action _) "skip") eqn:Hskip; [invert_run; auto|].
  invert_run.
  match goal with H : decide_pull_action _ _ _ _ = Ok _ |- _ =>
    pose proof (decide_pull_action_actions _ _ _ _ _ H) as Hact
  end.
  destruct Hact as [[E|E]|[E|E]]; rewrite E in *; simpl in *; [done|..]; invert_run;
    repeat (case_match; simpl in *; rewrite ?E in *; simpl in *); invert_run;
    ledger_steps; subst; try (left; congruence).
  all: right; eexists _, _; split; [eassumption|].
  all: repeat match goal with
         | H : w_db ?x = _ |- context [w_db ?x] => rewrite H
         | H : db_mirror (w_db ?x) = _ |- context [db_mirror (w_db ?x)] => rewrite H
         end; reflexivity.
Qed.


Lemma find_update_create_db client table_id external_id flds w w' r :
  as_mirror_error
    (do existing ← find_record_by_external_id client table_id external_id;
     match existing with
     | Some found =>
         do record ← update_record client table_id (record_id found) flds;
         ret (record_id record)
     | None =>
         do record ← create_record client table_id flds;
         ret (record_id record)
     end) w = (w', r) →
  w_db w' = w_db w.
Proof.
  intros Hrun.
  match type of Hrun with ?m w = _ =>
    assert (keeps same_db m) as Hkeep
  end.
  { unfold find_record_by_external_id, list_records, update_record, create_record. frame. }
  specialize (Hkeep w). by rewrite Hrun in Hkeep.
Qed.

Lemma push_row_ledger client table_name table_id ext_field fields_map logger row w w' u :
  push_row client table_name table_id ext_field fields_map logger row w = (w', Ok u) →
  let key := (table_name, dict_get row ext_field) in
  ∃ rid now,
    db_mirror (w_db w')
    = mirror_upsert (db_mirror (w_db w)) key
        (mk_mirror_row (Some rid) (next_version (mirror_lookup (db_mirror (w_db w)) key))
           (Some now)).
Proof.
  unfold push_row. intros Hrun. cbv zeta. invert_run.
  match goal with H : as_mirror_error _ _ = _ |- _ => apply find_update_create_db in H end.
  ledger_steps. subst. eexists _, _.
  repeat match goal with
    | H : w_db ?x = _ |- context [w_db ?x] => rewrite H
    | H : db_mirror (w_db ?x) = _ |- context [db_mirror (w_db ?x)] => rewrite H
    end; reflexivity.
Qed.

Lemma pulled_version_cases remote_fields mirror_state v :
  pulled_version remote_fields mirror_state = Ok v →
  let previous := match mirror_state with Some m => mr_version m | None => 0 end in
  match dict_get remote_fields "MirrorVersion" with
  | VNone => v = previous
  | remote_version =>
      match py_int remote_version with
      | Ok n => v = n
      | Err _ => v = previous
      end
  end.
Proof.
  unfold pulled_version.
  destruct (dict_get remote_fields "MirrorVersion") eqn:Hget; simpl;
    repeat case_match; intros; simplify_eq; done.
Qed.

Lemma pull_record_outcome table_name ext_field fields_map schema_fields apply accept logger
    summary changes record w w' st' :
  pull_record table_name ext_field fields_map schema_fields apply accept logger
    (summary, changes) record w = (w', Ok st') →
  let ext := dict_get (fields record) "ExternalId" in
  let s := incr_scanned summary in
  (py_truthy ext = false ∧ st' = (incr_ignored s, changes) ∧ w' = w) ∨
  ∃ local previous changed d,
    py_truthy ext = true ∧
    fetch_one (w_db w) table_name ext_field ext = Ok local ∧
    get_mirror_state (w_db w) table_name ext = Ok previous ∧
    diff_fields local (fields record) fields_map schema_fields = Ok changed ∧
    decide_pull_action local (mirror_dict table_name ext <$> previous) changed VNone = Ok d ∧
    ((action d = "skip" ∧ st' = (incr_skipped s, changes) ∧ w' = w) ∨
     (action d = "conflict" ∧ in_accept_remote ext accept = Ok false ∧
      st' = (incr_conflicts s,
             (changes ++ [mk_change table_name ext "conflict" changed (reason d)])%list) ∧
      w_db w' = w_db w) ∨
     (action d = "create" ∧
      st' = (incr_created s,
             (changes ++ [mk_change table_name ext "create" changed (reason d)])%list) ∧
      ledger_written apply table_name record previous w w') ∨
     (action d = "apply" ∧
      st' = (incr_applied s,
             (changes ++ [mk_change table_name ext "apply" changed (reason d)])%list) ∧
      ledger_written apply table_name record previous w w') ∨
     (action d = "conflict" ∧ in_accept_remote ext accept = Ok true ∧
      st' = (incr_applied s,
             (changes ++ [mk_change table_name ext "apply" changed None])%list) ∧
      ledger_written apply table_name record previous w w')).
Proof.
  unfold pull_record, ledger_written. intros Hrun. cbv zeta.
  destruct (py_truthy _) eqn:Htruthy; simpl in Hrun; [|invert_run; left; auto].
  invert_run. right. do 4 eexists. do 5 (split; [first [reflexivity|eassumption]|]).
  match goal with H : decide_pull_action _ _ _ _ = Ok ?d |- _ =>
    pose proof (decide_pull_action_actions _ _ _ _ _ H) as Hact
  end.
  destruct Hact as [[E|E]|[E|E]]; rewrite E in Hrun; simpl in Hrun.
  - invert_run. left. by repeat split.
  - invert_run.
    match goal with H : in_accept_remote _ _ = Ok ?b |- _ => destruct b end; simpl in Hrun.
    + do 4 right. split; [done|]. split; [done|].
      destruct apply; invert_run; ledger_steps; subst; (split; [done|]); [|congruence].
      eexists _, _. split; [eassumption|].
      repeat match goal with
        | H : w_db ?x = _ |- context [w_db ?x] => rewrite H
        | H : db_mirror (w_db ?x) = _ |- context [db_mirror (w_db ?x)] => rewrite H
        end; reflexivity.
    + rewrite E in Hrun. simpl in Hrun. invert_run. ledger_steps.
      right. left. by repeat split.
  - invert_run. rewrite E in Hrun. simpl in Hrun. do 2 right. left. split; [done|].
    destruct apply; invert_run; ledger_steps; subst; (split; [done|]); [|congruence].
    eexists _, _. split; [eassumption|].
    repeat match goal with
      | H : w_db ?x = _ |- context [w_db ?x] => rewrite H
      | H : db_mirror (w_db ?x) = _ |- context [db_mirror (w_db ?x)] => rewrite H
      end; reflexivity.
  - invert_run. rewrite E in Hrun. simpl in Hrun. do 3 right. left. split; [done|].
    destruct apply; invert_run; ledger_steps; subst; (split; [done|]); [|congruence].
    eexists _, _. split; [eassumption|].
    repeat match goal with
      | H : w_db ?x = _ |- context [w_db ?x] => rewrite H
      | H : db_mirror (w_db ?x) = _ |- context [db_mirror (w_db ?x)] => rewrite H
      end; reflexivity.
Qed.

(** C6 (amended).  On a ledger as its table holds it (string external
    ids in the TEXT key column, versions the REAL column holds exactly): a
    push of a local row writes [mirror_version] as the previous ledger value
    plus one, 1 when the key has no entry, and leaves every other key as it
    was.  A pull that gets through a record with a string [ExternalId]
    leaves every other key as it was, and writes the record's key exactly
    when it runs in apply mode and counts the record as created or applied;
    it then writes the remote record's [MirrorVersion] when that is present
    and converts to an integer, and the previous ledger value (0 without an
    entry) otherwise, so the version is no lower than before exactly when
    the remote-supplied one is not below it.  In every other case the pull
    leaves the whole ledger as it was. *)
Theorem mirror_version_writes table_name ext_field fields_map (w w' : world) :
  sqlite_ledger w →
  (∀ client table_id logger row u,
     push_row client table_name table_id ext_field fields_map logger row w = (w', Ok u) →
     let key := (table_name, dict_get row ext_field) in
     exact_version (next_version (mirror_lookup (db_mirror (w_db w)) key)) →
     ledger_version w' key
     = Some (match ledger_version w key with Some previous => previous + 1 | None => 1 end) ∧
     ∀ t id, (t, VStr id) ≠ key →
             ledger_version w' (t, VStr id) = ledger_version w (t, VStr id)) ∧
  (∀ schema_fields apply accept logger summary changes record summary' changes' id,
     dict_get (fields record) "ExternalId" = VStr id →
     (∀ n, py_int (dict_get (fields record) "MirrorVersion") = Ok n → exact_version n) →
     pull_record table_name ext_field fields_map schema_fields apply accept logger
       (summary, changes) record w = (w', Ok (summary', changes')) →
     let key := (table_name, VStr id) in
     let previous := default 0 (ledger_version w key) in
     (∀ t id', (t, VStr id') ≠ key →
               ledger_version w' (t, VStr id') = ledger_version w (t, VStr id')) ∧
     if apply && bool_decide (created summary' ≠ created summary
                              ∨ applied summary' ≠ applied summary)
     then
       ∃ v, ledger_version w' key = Some v ∧
            match dict_get (fields record) "MirrorVersion" with
            | VNone => v = previous
            | remote_version =>
                match py_int remote_version with
                | Ok n => v = n
                | Err _ => v = previous
                end
            end ∧
            (previous ≤ v ↔
             match dict_get (fields record) "MirrorVersion" with
             | VNone => True
             | remote_version =>
                 match py_int remote_version with
                 | Ok n => previous ≤ n
                 | Err _ => True
                 end
             end)
     else db_mirror (w_db w') = db_mirror (w_db w)).
Proof.
  intros _. split.
  - intros * Hrun key _. apply push_row_ledger in Hrun as (rid & now & Hledger).
    fold key in Hledger. unfold ledger_version. rewrite Hledger. split.
    + rewrite mirror_lookup_upsert. rewrite decide_True by done. simpl.
      unfold next_version. by destruct (mirror_lookup _ key).
    + intros t id Hk. rewrite mirror_lookup_upsert. by rewrite decide_False.
  - intros schema_fields apply accept logger summary changes record summary' changes' id
      Hid _ Hrun key previous.
    apply pull_record_outcome in Hrun. cbv zeta in Hrun. rewrite Hid in Hrun.
    fold key in Hrun. unfold ledger_written in Hrun. rewrite Hid in Hrun. fold key in Hrun.
    assert (∀ v now,
              pulled_version (fields record) (mirror_lookup (db_mirror (w_db w)) key) = Ok v →
              db_mirror (w_db w')
              = mirror_upsert (db_mirror (w_db w)) key
                  (mk_mirror_row (Some (record_id record)) v (Some now)) →
              (∀ t id', (t, VStr id') ≠ key →
                 ledger_version w' (t, VStr id') = ledger_version w (t, VStr id')) ∧
              ∃ v, ledger_version w' key = Some v ∧
                   match dict_get (fields record) "MirrorVersion" with
                   | VNone => v = previous
                   | remote_version =>
                       match py_int remote_version with
                       | Ok n => v = n
                       | Err _ => v = previous
                       end
                   end ∧
                   (previous ≤ v ↔
                    match dict_get (fields record) "MirrorVersion" with
                    | VNone => True
                    | remote_version =>
                        match py_int remote_version with
                        | Ok n => previous ≤ n
                        | Err _ => True
                        end
                    end)) as Hwritten.
    { intros v now Hv Hledger. unfold ledger_version. rewrite Hledger. split.
      - intros t id' Hk. rewrite mirror_lookup_upsert. by rewrite decide_False.
      - exists v. rewrite mirror_lookup_upsert, decide_True by done. split; [done|].
        apply pulled_version_cases in Hv. cbv zeta in Hv.
        assert (previous
                = match mirror_lookup (db_mirror (w_db w)) key with
                  | Some m => mr_version m
                  | None => 0
                  end) as Hprev.
        { subst previous. unfold ledger_version. by destruct (mirror_lookup _ key). }
        rewrite <- Hprev in Hv.
        destruct (dict_get (fields record) "MirrorVersion"); try destruct (py_int _);
          subst v; (split; [done|]); split; done || lia. }
    assert (∀ s : PullSummary, created (incr_created (incr_scanned s)) ≠ created s) as Hcreated
      by (intros []; simpl; lia).
    assert (∀ s : PullSummary, applied (incr_applied (incr_scanned s)) ≠ applied s) as Happlied
      by (intros []; simpl; lia).
    destruct Hrun as [(_ & [= -> ->] & ->)
                     |(local & previous_row & changed & d & _ & _ & Hget & _ & _ & Hcase)].
    { rewrite bool_decide_eq_false_2 by (destruct summary; simpl; lia).
      rewrite andb_false_r. done. }
    apply get_mirror_state_ok in Hget. fold key in Hget. subst previous_row.
    destruct Hcase as [(_ & [= -> ->] & ->)|[(_ & _ & [= -> ->] & Hdb)|[(_ & [= -> ->] & Hw)
                      |[(_ & [= -> ->] & Hw)|(_ & _ & [= -> ->] & Hw)]]]].
    + rewrite bool_decide_eq_false_2 by (destruct summary; simpl; lia).
      rewrite andb_false_r. done.
    + rewrite bool_decide_eq_false_2 by (destruct summary; simpl; lia).
      rewrite andb_false_r. unfold ledger_version. by rewrite Hdb.
    + rewrite bool_decide_eq_true_2 by (left; apply Hcreated). rewrite andb_true_r.
      destruct apply; [destruct Hw as (v & now & Hv & Hledger); by eapply Hwritten|].
      unfold ledger_version. by rewrite Hw.
    + rewrite bool_decide_eq_true_2 by (right; apply Happlied). rewrite andb_true_r.
      destruct apply; [destruct Hw as (v & now & Hv & Hledger); by eapply Hwritten|].
      unfold ledger_version. by rewrite Hw.
    + rewrite bool_decide_eq_true_2 by (right; apply Happlied). rewrite andb_true_r.
      destruct apply; [destruct Hw as (v & now & Hv & Hledger); by eapply Hwritten|].
      unfold ledger_version. by rewrite Hw.
Qed.


(** ** Further properties of the orchestrators *)

(** What a pass over one record that returns has done, case by case. *)
(** X6.  Accepting the remote version of an id settles its conflicts: a
    pass over a record whose [ExternalId] is in [accept_remote] never counts
    a conflict and never reports one; the only changes it can append are a
    create or an apply. *)
Theorem accepted_remote_never_conflicts table_name ext_field fields_map schema_fields apply
    (accept : gset string) logger summary changes (record : AirtableRecord) (w w' : world)
    summary' changes' id :
  dict_get (fields record) "ExternalId" = VStr id →
  id ∈ accept →
  pull_record table_name ext_field fields_map schema_fields apply accept logger
    (summary, changes) record w = (w', Ok (summary', changes')) →
  conflicts summary' = conflicts summary ∧
  (changes' = changes ∨
   ∃ change, changes' = (changes ++ [change])%list ∧
             (pc_action change = "create" ∨ pc_action change = "apply")).
Proof.
  intros Hid Hin Hrun. apply pull_record_outcome in Hrun. cbv zeta in Hrun.
  assert (in_accept_remote (dict_get (fields record) "ExternalId") accept = Ok true) as Hacc.
  { rewrite Hid. simpl. by rewrite bool_decide_eq_true_2. }
  destruct Hrun as [(_ & [= -> ->] & _)|(local & previous & changed & d & _ & _ & _ & _ & _ & Hcase)];
    [auto|].
  destruct Hcase as [(_ & [= -> ->] & _)|[(_ & Hno & _)|[(_ & [= -> ->] & _)|[(_ & [= -> ->] & _)
                    |(_ & _ & [= -> ->] & _)]]]]; simpl; try congruence; auto.
  all: split; [done|right; eexists; split; [done|simpl; auto]].
Qed.

(** X7.  A pass that counts neither a create nor an apply leaves the
    database as it found it, in apply mode too: ignored, skipped and
    conflicting records never touch a row or the ledger. *)
Theorem unapplied_record_changes_nothing table_name ext_field fields_map schema_fields apply
    accept logger summary changes (record : AirtableRecord) (w w' : world) summary' changes' :
  pull_record table_name ext_field fields_map schema_fields apply accept logger
    (summary, changes) record w = (w', Ok (summary', changes')) →
  created summary' = created summary →
  applied summary' = applied summary →
  w_db w' = w_db w.
Proof.
  intros Hrun Hcreated Happlied. apply pull_record_outcome in Hrun. cbv zeta in Hrun.
  destruct Hrun as [(_ & _ & ->)|(local & previous & changed & d & _ & _ & _ & _ & _ & Hcase)];
    [done|].
  destruct Hcase as [(_ & _ & ->)|[(_ & _ & _ & Hdb)|[(_ & [= -> ->] & _)|[(_ & [= -> ->] & _)
                    |(_ & _ & [= -> ->] & _)]]]]; try done; simpl in *; lia.
Qed.

(** X8.  In apply mode a record counted as created or applied leaves,
    under its key, a ledger entry that carries the remote record's id and a
    timestamp. *)
Theorem applied_record_is_in_the_ledger table_name ext_field fields_map schema_fields
    accept logger summary changes (record : AirtableRecord) (w w' : world) summary' changes' :
  pull_record table_name ext_field fields_map schema_fields true accept logger
    (summary, changes) record w = (w', Ok (summary', changes')) →
  created summary' ≠ created summary ∨ applied summary' ≠ applied summary →
  ∃ v now,
    mirror_lookup (db_mirror (w_db w')) (table_name, dict_get (fields record) "ExternalId")
    = Some (mk_mirror_row (Some (record_id record)) v (Some now)).
Proof.
  intros Hrun Hcount. apply pull_record_outcome in Hrun. cbv zeta in Hrun.
  unfold ledger_written in Hrun.
  destruct Hrun as [(_ & [= -> ->] & _)|(local & previous & changed & d & _ & _ & _ & _ & _ & Hcase)].
  { simpl in Hcount. lia. }
  destruct Hcase as [(_ & [= -> ->] & _)|[(_ & _ & [= -> ->] & _)|[(_ & _ & Hw)|[(_ & _ & Hw)
                    |(_ & _ & _ & Hw)]]]]; try (simpl in Hcount; lia).
  all: destruct Hw as (v & now & _ & ->); exists v, now.
  all: rewrite mirror_lookup_upsert; by rewrite decide_True.
Qed.

Lemma foldM_ok_invariant_elem {A S} (P : S → Prop) (f : S → A → M S) (l : list A) :
  (∀ s a w w' s', a ∈ l → P s → f s a w = (w', Ok s') → P s') →
  ∀ s w w' s', P s → foldM f s l w = (w', Ok s') → P s'.
Proof.
  induction l as [|a l IH]; simpl; intros Hf s w w' s' Hs Hrun.
  - apply ret_ok in Hrun as [_ ->]. done.
  - apply bind_ok in Hrun as (s1 & w1 & Hstep & Hrest).
    eapply IH; [|eapply (Hf s a); [by left|done|done]|done].
    intros ????? Hin. apply Hf. by right.
Qed.

Lemma pull_table_changes client schema table_ids tables_meta last apply accept logger
    (names : list string) st entry w w' st' :
  entry.1 ∈ names →
  pull_table client schema table_ids tables_meta last apply accept logger st entry w
  = (w', Ok st') →
  changes_accounted names st → changes_accounted names st'.
Proof.
  intros Hname. unfold pull_table. destruct entry as [table_name table_def]. simpl in Hname.
  repeat case_match; intros Hrun Hst; invert_run.
  all: apply with_session_ok in Hrun.
  all: eapply (foldM_ok_invariant (changes_accounted names)); [|exact Hst|exact Hrun].
  all: intros [sm ch] record w1 w2 [sm' ch'] [Hlen Hall] Hstep.
  all: apply pull_record_outcome in Hstep; cbv zeta in Hstep.
  all: unfold changes_accounted; simpl in *.
  all: destruct Hstep as [(_ & [= -> ->] & _)
         |(local & previous & changed & d & _ & _ & _ & _ & _ & Hcase)]; [done|].
  all: destruct Hcase as [(_ & [= -> ->] & _)|[(_ & _ & [= -> ->] & _)|[(_ & [= -> ->] & _)
         |[(_ & [= -> ->] & _)|(_ & _ & [= -> ->] & _)]]]]; [done|..].
  all: rewrite length_app, Forall_app, Forall_singleton; simpl.
  all: repeat split; [lia|done|set_solver|done].
Qed.

(** X9.  The change list of a pull that returns accounts for exactly the
    records counted as applied, created or conflicting: its length is the
    sum of those three counters, no change has another action (skipped and
    ignored records are never listed), and every change names a table of
    the mapping. *)
Theorem pull_records_changes_match_counters client mapping schema table_ids tables_meta
    last apply accept logger (w w' : world) summary changes :
  pull_records client mapping schema table_ids tables_meta last apply accept logger w
  = (w', Ok (summary, changes)) →
  (length changes = applied summary + created summary + conflicts summary)%nat ∧
  Forall (λ c, pc_action c ∈ ["create"; "apply"; "conflict"] ∧
               pc_table c ∈ (tables mapping).*1) changes.
Proof.
  unfold pull_records. intros Hrun.
  change (changes_accounted (tables mapping).*1 (summary, changes)).
  revert Hrun.
  apply (foldM_ok_invariant_elem (changes_accounted (tables mapping).*1)).
  - intros st entry w1 w2 st' Hin Hst Hstep.
    eapply pull_table_changes; [|exact Hstep|exact Hst].
    by apply list_elem_of_fmap_2.
  - split; [done|constructor].
Qed.

(** *** What a run may do to the database *)

Section DbFrame.
Context (Q : db → db → Prop) `{!PreOrder Q}.

#[local] Instance lifts_preorder : PreOrder (lifts Q).
Proof.
  split.
  - intros w. unfold lifts. reflexivity.
  - intros w1 w2 w3. unfold lifts. intros. by etrans.
Qed.

Lemma lifts_same_db {A} (m : M A) : keeps same_db m → keeps (lifts Q) m.
Proof. intros Hm w. unfold lifts. rewrite (Hm w). reflexivity. Qed.

Lemma lifts_mutate f : (∀ d d', f d = Ok d' → Q d d') → keeps (lifts Q) (mutate f).
Proof.
  intros Hf w. unfold lifts, mutate.
  destruct (f (w_db w)) as [d'|e] eqn:E; simpl; [by apply Hf|reflexivity].
Qed.

Lemma lifts_with_session {A} (body : M A) :
  keeps (lifts Q) body → keeps (lifts Q) (with_session body).
Proof.
  intros Hbody w. unfold lifts, with_session. specialize (Hbody w). unfold lifts in Hbody.
  destruct (body w) as [w' [a|e]]; simpl in *; [done|reflexivity].
Qed.

Lemma keeps_foldM_elem {A S} (R : world → world → Prop) `{!PreOrder R}
    (f : S → A → M S) (l : list A) :
  (∀ s a, a ∈ l → keeps R (f s a)) → ∀ s, keeps R (foldM f s l).
Proof.
  induction l as [|a l IH]; intros Hf s; simpl.
  - by apply keeps_ret.
  - apply keeps_bind; [done|apply Hf; by left|].
    intros s'. apply IH. intros ???. apply Hf. by right.
Qed.

Ltac db_frame_step :=
  first
    [ apply keeps_ret; tc_solve | apply keeps_throw; tc_solve | apply keeps_lift; tc_solve
    | apply keeps_query; tc_solve
    | apply lifts_same_db, same_db_utc_now_iso
    | apply lifts_same_db, same_db_log_event
    | apply lifts_same_db, same_db_converse
    | apply keeps_as_mirror_error; [tc_solve|] | apply keeps_as_mirror_error
    | apply keeps_bind; [tc_solve| |intros ?] ].

Ltac db_frame := repeat (db_frame_step || (progress simpl) || case_match).

(** A pass over a record does to the database nothing but the three
    writes of its table. *)
Lemma pull_record_lifts table_name ext_field fields_map schema_fields apply accept logger st
    record :
  (∀ d columns params d', execute_insert d table_name columns params = Ok d' → Q d d') →
  (∀ d columns params column key d',
     execute_update d table_name columns params column key = Ok d' → Q d d') →
  (∀ d ext rid v at_ d', upsert_mirror_state d table_name ext rid v at_ = Ok d' → Q d d') →
  keeps (lifts Q)
    (pull_record table_name ext_field fields_map schema_fields apply accept logger st record).
Proof.
  intros Hins Hupd Hled. unfold pull_record, _insert_local, _update_local.
  destruct st as [summary changes]. db_frame.
  all: try (apply lifts_mutate; intros d d'; by (apply Hins || apply Hupd || apply Hled)).
Qed.

Lemma pull_records_lifts client mapping schema table_ids tables_meta last apply accept logger :
  (∀ table_name d columns params d',
     table_name ∈ (tables mapping).*1 →
     execute_insert d table_name columns params = Ok d' → Q d d') →
  (∀ table_name d columns params column key d',
     table_name ∈ (tables mapping).*1 →
     execute_update d table_name columns params column key = Ok d' → Q d d') →
  (∀ table_name d ext rid v at_ d',
     upsert_mirror_state d table_name ext rid v at_ = Ok d' → Q d d') →
  keeps (lifts Q)
    (pull_records client mapping schema table_ids tables_meta last apply accept logger).
Proof.
  intros Hins Hupd Hled. unfold pull_records.
  apply keeps_foldM_elem; [tc_solve|]. intros st [table_name table_def] Hin.
  assert (table_name ∈ (tables mapping).*1) as Hname.
  { by apply (list_elem_of_fmap_2 fst) in Hin. }
  unfold pull_table. repeat case_match; try (apply keeps_throw; tc_solve).
  all: apply keeps_bind; [tc_solve|apply lifts_same_db, same_db_converse|intros records].
  all: apply lifts_with_session, keeps_foldM; [tc_solve|intros ??].
  all: apply pull_record_lifts; eauto.
Qed.

(** A push does to the database nothing but writes to the ledger. *)
Lemma push_all_lifts client mapping table_ids logger :
  (∀ table_name d ext rid v at_ d',
     upsert_mirror_state d table_name ext rid v at_ = Ok d' → Q d d') →
  keeps (lifts Q) (push_all client mapping table_ids logger).
Proof.
  intros Hled. unfold push_all. apply keeps_foldM; [tc_solve|]. intros [] [table_name table_def].
  repeat case_match; try (apply keeps_throw; tc_solve).
  all: apply lifts_with_session. all: unfold _push_table.
  all: repeat case_match; try (apply keeps_throw; tc_solve).
  all: apply keeps_bind; [tc_solve|apply keeps_query; tc_solve|intros rows].
  all: apply keeps_foldM; [tc_solve|intros [] row].
  all: unfold push_row, find_record_by_external_id, list_records, update_record, create_record.
  all: db_frame.
  all: try (apply lifts_mutate; intros d d'; by apply Hled).
Qed.

End DbFrame.

#[local] Instance ledger_kept_preorder : PreOrder ledger_kept.
Proof. split; [by intros d key|]. intros d1 d2 d3 H12 H23 key Hkey. auto. Qed.

#[local] Instance rows_kept_preorder names : PreOrder (rows_kept names).
Proof.
  split; [by split|]. intros d1 d2 d3 [Hlen12 Hout12] [Hlen23 Hout23]. split.
  - intros table. etrans; [apply Hlen12|apply Hlen23].
  - intros table Hout. by rewrite Hout23, Hout12.
Qed.

#[local] Instance same_tables_preorder : PreOrder same_tables.
Proof. split; [done|]. unfold same_tables. intros d1 d2 d3. congruence. Qed.

Lemma mirror_upsert_keeps l key row key' :
  is_Some (mirror_lookup l key') → is_Some (mirror_lookup (mirror_upsert l key row) key').
Proof.
  induction l as [|[k r] l IH]; simpl; [by intros [? [=]]|].
  repeat (case_decide; simpl); try done; congruence.
Qed.

Lemma upsert_mirror_state_ledger_kept table_name d ext rid v at_ d' :
  upsert_mirror_state d table_name ext rid v at_ = Ok d' → ledger_kept d d'.
Proof.
  unfold upsert_mirror_state. case_match; [|done]. intros [= <-] key. simpl.
  apply mirror_upsert_keeps.
Qed.

Lemma execute_insert_rows table_name d columns params d' :
  execute_insert d table_name columns params = Ok d' →
  db_mirror d' = db_mirror d ∧
  (∀ table, (length (table_rows d table) ≤ length (table_rows d' table))%nat) ∧
  (∀ table, table ≠ table_name → db_tables d' !! table = db_tables d !! table).
Proof.
  unfold execute_insert. case_match; [|done]. intros [= <-]. simpl.
  split; [done|]. split.
  - intros table. unfold table_rows at 2. simpl.
    destruct (decide (table = table_name)) as [->|Hne].
    + rewrite lookup_insert_eq. simpl. rewrite length_app. lia.
    + by rewrite lookup_insert_ne.
  - intros table Hne. by rewrite lookup_insert_ne.
Qed.

Lemma execute_update_rows table_name d columns params column key d' :
  execute_update d table_name columns params column key = Ok d' →
  db_mirror d' = db_mirror d ∧
  (∀ table, length (table_rows d' table) = length (table_rows d table)) ∧
  (∀ table, table ≠ table_name → db_tables d' !! table = db_tables d !! table).
Proof.
  unfold execute_update. case_match; [|done]. intros [= <-]. simpl.
  split; [done|]. split.
  - intros table. unfold table_rows at 1. simpl.
    destruct (decide (table = table_name)) as [->|Hne].
    + rewrite lookup_insert_eq. simpl. by rewrite length_fmap.
    + by rewrite lookup_insert_ne.
  - intros table Hne. by rewrite lookup_insert_ne.
Qed.

(** X10.  A pull never deletes a row: whatever it does, whether it
    returns or raises, in either mode, no table ends with fewer rows than it
    started with, and the tables the mapping does not name are exactly as
    they were. *)
Theorem pull_records_never_deletes_rows client mapping schema table_ids tables_meta last apply
    accept logger (w : world) :
  let w' := (pull_records client mapping schema table_ids tables_meta last apply accept logger
               w).1 in
  (∀ table, (length (table_rows (w_db w) table) ≤ length (table_rows (w_db w') table))%nat) ∧
  (∀ table, table ∉ (tables mapping).*1 →
            db_tables (w_db w') !! table = db_tables (w_db w) !! table).
Proof.
  apply (pull_records_lifts (rows_kept (tables mapping).*1)).
  - intros table_name d columns params d' Hname Hins.
    apply execute_insert_rows in Hins as (_ & Hlen & Hout).
    split; [done|]. intros table Hnot. apply Hout. congruence.
  - intros table_name d columns params column key d' Hname Hupd.
    apply execute_update_rows in Hupd as (_ & Hlen & Hout).
    split; [intros table; by rewrite Hlen|]. intros table Hnot. apply Hout. congruence.
  - intros table_name d ext rid v at_ d'. unfold upsert_mirror_state.
    case_match; [|done]. by intros [= <-].
Qed.

(** X11.  A pull never drops a ledger entry: every key the ledger held
    before the run it still holds after it, whether the run returns or
    raises. *)
Theorem pull_records_keeps_ledger_entries client mapping schema table_ids tables_meta last
    apply accept logger (w : world) key :
  is_Some (mirror_lookup (db_mirror (w_db w)) key) →
  is_Some (mirror_lookup
             (db_mirror (w_db (pull_records client mapping schema table_ids tables_meta last
                                 apply accept logger w).1)) key).
Proof.
  revert key. apply (pull_records_lifts ledger_kept).
  - intros table_name d columns params d' _ Hins.
    apply execute_insert_rows in Hins as (Hm & _). intros key. by rewrite Hm.
  - intros table_name d columns params column k d' _ Hupd.
    apply execute_update_rows in Hupd as (Hm & _). intros key. by rewrite Hm.
  - intros *. apply upsert_mirror_state_ledger_kept.
Qed.

(** X12.  A push writes to the service and to the ledger only: the
    business tables are exactly as they were, and no ledger entry is
    dropped, whether the push returns or raises. *)
Theorem push_all_keeps_the_tables client mapping table_ids logger (w : world) :
  let w' := (push_all client mapping table_ids logger w).1 in
  db_tables (w_db w') = db_tables (w_db w) ∧
  ∀ key, is_Some (mirror_lookup (db_mirror (w_db w)) key) →
         is_Some (mirror_lookup (db_mirror (w_db w')) key).
Proof.
  split.
  - apply (push_all_lifts same_tables). intros table_name d ext rid v at_ d'.
    unfold upsert_mirror_state. case_match; [|done]. by intros [= <-].
  - apply (push_all_lifts ledger_kept). intros *. apply upsert_mirror_state_ledger_kept.
Qed.

(** *** What a run may do to the audit log *)

Section EventFrame.
Context (P : event → Prop).

#[local] Instance appends_preorder : PreOrder (on_events (appends P)).
Proof.
  split.
  - intros w. exists []. by rewrite app_nil_r.
  - intros w1 w2 w3 (new1 & E1 & Hnew1) (new2 & E2 & Hnew2). exists (new1 ++ new2)%list.
    split; [by rewrite E2, E1, app_assoc|by apply Forall_app].
Qed.

Lemma appends_same {A} (m : M A) :
  (∀ w, w_events (m w).1 = w_events w) → keeps (on_events (appends P)) m.
Proof. intros Hm w. exists []. by rewrite Hm, app_nil_r. Qed.

Lemma appends_utc_now_iso : keeps (on_events (appends P)) utc_now_iso.
Proof. by apply appends_same. Qed.

Lemma appends_converse {A} (f : nat → result A) : keeps (on_events (appends P)) (converse f).
Proof. by apply appends_same. Qed.

Lemma appends_mutate f : keeps (on_events (appends P)) (mutate f).
Proof. apply appends_same. intros w. unfold mutate. by destruct (f _). Qed.

Lemma appends_load_sync_state : keeps (on_events (appends P)) load_sync_state.
Proof. by apply appends_same. Qed.

Lemma appends_save_sync_state state : keeps (on_events (appends P)) (save_sync_state state).
Proof. by apply appends_same. Qed.

Lemma appends_with_session {A} (body : M A) :
  keeps (on_events (appends P)) body → keeps (on_events (appends P)) (with_session body).
Proof.
  intros Hbody w. specialize (Hbody w). unfold with_session.
  by destruct (body w) as [w' [a|e]].
Qed.

Lemma appends_log_event logger event_type entity_type ext changed conflict :
  (∀ lg ts, logger = Some lg → enabled lg = true →
            P (mk_event ts (workspace lg) entity_type ext event_type changed conflict)) →
  keeps (on_events (appends P)) (log_event logger event_type entity_type ext changed conflict).
Proof.
  intros HP. unfold log_event. destruct logger as [lg|]; [|by apply appends_same].
  destruct (enabled lg) eqn:Hon; [|by apply appends_same].
  intros w. eexists [_]. split; [reflexivity|]. apply Forall_singleton. by apply HP.
Qed.

End EventFrame.

#[local] Existing Instance appends_preorder.

Ltac event_frame_step :=
  first
    [ apply keeps_ret; tc_solve | apply keeps_throw; tc_solve | apply keeps_lift; tc_solve
    | apply keeps_query; tc_solve
    | apply appends_utc_now_iso | apply appends_converse | apply appends_mutate
    | apply appends_load_sync_state | apply appends_save_sync_state
    | apply keeps_handle; [tc_solve|] | apply keeps_handle
    | apply keeps_as_mirror_error; [tc_solve|] | apply keeps_as_mirror_error
    | apply keeps_bind; [tc_solve| |intros ?] ].

Ltac event_frame := repeat (event_frame_step || (progress simpl) || case_match).

(** X13.  A pull only appends to the audit log, and only through an
    enabled logger: the log after the run is the log before it followed by
    events that carry the logger's workspace, name a table of the mapping,
    and are either a [pull_conflict] flagged as a conflict or, in apply mode
    only, a [pull_apply] not flagged.  With no logger, or a disabled one,
    the log is unchanged.  A dry run still logs its conflicts. *)
Theorem pull_appends_to_the_audit_log mirror env_key client mapping schema apply accept logger
    (w : world) :
  ∃ new,
    w_events (pull mirror env_key client mapping schema apply accept logger w).1
    = (w_events w ++ new)%list ∧
    Forall (λ ev, logged_by logger ev ∧
                  ev_entity_type ev ∈ (tables mapping).*1 ∧
                  ((ev_event_type ev = "pull_conflict" ∧ ev_conflict ev = true) ∨
                   (apply = true ∧ ev_event_type ev = "pull_apply" ∧ ev_conflict ev = false)))
      new.
Proof.
  pose (P := λ ev : event,
          logged_by logger ev ∧ ev_entity_type ev ∈ (tables mapping).*1 ∧
          ((ev_event_type ev = "pull_conflict" ∧ ev_conflict ev = true) ∨
           (apply = true ∧ ev_event_type ev = "pull_apply" ∧ ev_conflict ev = false))).
  cut (keeps (on_events (appends P))
         (pull mirror env_key client mapping schema apply accept logger));
    [intros Hkeeps; exact (Hkeeps w)|].
  clear w. unfold pull.
  apply keeps_bind; [tc_solve|apply keeps_lift; tc_solve|intros _].
  apply keeps_bind; [tc_solve|apply keeps_lift; tc_solve|intros _].
  apply keeps_bind; [tc_solve|apply appends_load_sync_state|intros state].
  apply keeps_bind; [tc_solve| |intros [summary changes]; event_frame].
  apply keeps_handle.
  apply keeps_bind; [tc_solve|apply appends_converse|intros listed].
  unfold pull_records. apply keeps_foldM_elem; [tc_solve|].
  intros st [table_name table_def] Hin.
  assert (table_name ∈ (tables mapping).*1) as Hname.
  { by apply (list_elem_of_fmap_2 fst) in Hin. }
  unfold pull_table. repeat case_match; try (apply keeps_throw; tc_solve).
  all: apply keeps_bind; [tc_solve|apply appends_converse|intros records].
  all: apply appends_with_session, keeps_foldM; [tc_solve|intros [sm ch] record].
  all: unfold pull_record, _insert_local, _update_local; event_frame.
  all: apply appends_log_event; intros lg ts -> Hon; simpl.
  all: (split; [by exists lg|split; [done|auto]]).
Qed.

(** *** What a run may raise *)

Section Raises.
Context (P : exn → Prop).

Lemma raises_ret {A} (a : A) : raises P (ret a).
Proof. by intros w w' e. Qed.

Lemma raises_throw {A} e : P e → raises P (throw (A:=A) e).
Proof. by intros He w w' e' [= _ <-]. Qed.

Lemma raises_lift {A} (r : result A) : (∀ e, r = Err e → P e) → raises P (lift r).
Proof. intros Hr w w' e [= _ ->]. by apply Hr. Qed.

Lemma raises_query {A} (q : db → result A) : (∀ d e, q d = Err e → P e) → raises P (query q).
Proof. intros Hq w w' e [= _ Hrun]. by eapply Hq. Qed.

Lemma raises_mutate f : (∀ d e, f d = Err e → P e) → raises P (mutate f).
Proof.
  intros Hf w w' e. unfold mutate. destruct (f (w_db w)) eqn:E; [done|].
  intros [= _ <-]. by eapply Hf.
Qed.

Lemma raises_converse {A} (f : nat → result A) :
  (∀ n e, f n = Err e → P e) → raises P (converse f).
Proof. intros Hf w w' e [= _ Hrun]. by eapply Hf. Qed.

Lemma raises_utc_now_iso : raises P utc_now_iso.
Proof. by intros w w' e. Qed.

Lemma raises_log_event logger et en ext ch c : raises P (log_event logger et en ext ch c).
Proof. intros w w' e. unfold log_event. by repeat case_match. Qed.

Lemma raises_bind {A B} (m : M A) (k : A → M B) :
  raises P m → (∀ a, raises P (k a)) → raises P (bind m k).
Proof.
  intros Hm Hk w w' e. unfold bind. destruct (m w) as [w1 [a|e1]] eqn:E.
  - apply Hk.
  - intros [= _ <-]. by eapply Hm.
Qed.

Lemma raises_foldM {A S} (f : S → A → M S) (l : list A) :
  (∀ s a, raises P (f s a)) → ∀ s, raises P (foldM f s l).
Proof.
  intros Hf. induction l as [|a l IH]; intros s; simpl.
  - apply raises_ret.
  - apply raises_bind; auto.
Qed.

Lemma raises_with_session {A} (body : M A) : raises P body → raises P (with_session body).
Proof.
  intros Hbody w w' e. unfold with_session. destruct (body w) as [w1 [a|e1]] eqn:E; [done|].
  intros [= _ <-]. by eapply Hbody.
Qed.

Lemma raises_handle {A} (body : M A) h : (∀ e, P (h e)) → raises P (handle body h).
Proof.
  intros Hh w w' e. unfold handle. destruct (body w) as [w1 [a|e1]]; [done|].
  by intros [= _ <-].
Qed.

End Raises.

Lemma raises_as_mirror_error {A} (body : M A) :
  raises (λ e, exc_type e ≠ AirtableError) (as_mirror_error body).
Proof.
  intros w w' e. unfold as_mirror_error. destruct (body w) as [w1 [a|e1]]; [done|].
  case_decide; by intros [= _ <-].
Qed.

Lemma pull_handler_classes e :
  exc_type (pull_handler e) ≠ AirtableError ∧ exc_type (pull_handler e) ≠ PullError.
Proof.
  unfold pull_handler, getattr_status_code. repeat (case_decide || case_match); simplify_eq; simpl; done.
Qed.

(** X14.  The pull service never lets an adapter error through: whatever
    a run of [pull] raises, it is neither an [AirtableError] nor a
    [PullError]. *)
Theorem pull_never_surfaces_adapter_errors mirror env_key client mapping schema apply accept
    logger (w w' : world) e :
  pull mirror env_key client mapping schema apply accept logger w = (w', Err e) →
  exc_type e ≠ AirtableError ∧ exc_type e ≠ PullError.
Proof.
  revert w w' e.
  change (raises (λ e, exc_type e ≠ AirtableError ∧ exc_type e ≠ PullError)
            (pull mirror env_key client mapping schema apply accept logger)).
  unfold pull.
  apply raises_bind; [|intros _].
  { apply raises_lift. unfold _require_airtable_config. intros e.
    repeat case_match; by intros [= <-]. }
  apply raises_bind; [|intros _].
  { apply raises_lift. unfold _require_api_key. intros e.
    repeat case_match; by intros [= <-]. }
  apply raises_bind; [by intros ???|intros state].
  apply raises_bind; [apply raises_handle, pull_handler_classes|intros [summary changes]].
  case_match; [|apply raises_ret].
  apply raises_bind; [apply raises_utc_now_iso|intros now].
  apply raises_bind; [by intros ???|intros _]. apply raises_ret.
Qed.

(** X15.  A push never lets an [AirtableError] through: a failure of the
    service while a row is looked up, updated or created reaches the caller
    as a [MirrorError], and nothing else a push raises is an
    [AirtableError]. *)
Theorem push_all_never_surfaces_airtable_error client mapping table_ids logger (w w' : world) e :
  push_all client mapping table_ids logger w = (w', Err e) →
  exc_type e ≠ AirtableError.
Proof.
  revert w w' e.
  change (raises (λ e, exc_type e ≠ AirtableError) (push_all client mapping table_ids logger)).
  assert (∀ d table_name ext e, get_mirror_state d table_name ext = Err e →
            exc_type e ≠ AirtableError) as Hget.
  { intros *. unfold get_mirror_state. case_match; [done|]. by intros [= <-]. }
  unfold push_all. apply raises_foldM. intros [] [table_name table_def].
  repeat case_match; try (by apply raises_throw).
  all: apply raises_with_session. all: unfold _push_table.
  all: repeat case_match; try (by apply raises_throw).
  all: apply raises_bind; [|intros rows].
  all: try (apply raises_query; intros d e; unfold fetch_all; case_match; [done|];
            by intros [= <-]).
  all: apply raises_foldM; intros [] row. all: unfold push_row.
  all: apply raises_bind; [apply raises_query; intros d e; apply Hget|intros state].
  all: apply raises_bind; [apply raises_utc_now_iso|intros now].
  all: apply raises_bind; [apply raises_as_mirror_error|intros rid].
  all: apply raises_bind; [|intros _; apply raises_log_event].
  all: apply raises_mutate; intros d e; unfold upsert_mirror_state.
  all: case_match; [done|]; by intros [= <-].
Qed.

(** X16.  Without an Airtable provider, a base id and an API key, the
    pull service raises a [PullServiceError] before it does anything: no
    request is made, no clock is read, and the database, the audit log and
    the sync state are exactly as they were. *)
Theorem misconfigured_pull_touches_nothing mirror env_key client mapping schema apply accept
    logger (w : world) :
  provider mirror ≠ "airtable" ∨ truthy_str (base_id mirror) = None
  ∨ truthy_str env_key = None →
  ∃ e, pull mirror env_key client mapping schema apply accept logger w = (w, Err e) ∧
       exc_type e = PullServiceError.
Proof.
  intros Hmis. unfold pull, bind, lift, _require_airtable_config, _require_api_key.
  destruct (String.eqb (provider mirror) "airtable") eqn:Hprov; simpl; [|eauto].
  apply String.eqb_eq in Hprov.
  destruct (base_id mirror) as [[|c base]|] eqn:Hbase; simpl; eauto.
  destruct env_key as [[|c' key]|]; simpl; eauto.
  simpl in Hmis. by destruct Hmis as [?|[?|?]].
Qed.

(** X17.  Over replies that are well formed (a reply below status 400
    carries a body that decodes to records with ids) and a listing that
    ends, the page loop of [list_records] returns exactly when every page
    is answered with a status below 400, and then it returns the records of
    all the pages in page order; otherwise it raises an [AirtableError]. *)
Theorem list_records_collects_every_page (l : listing) (records : list AirtableRecord) :
  match collect_pages l records with
  | Ok collected => listing_ok l = true ∧ collected = (records ++ listing_records l)%list
  | Err e => listing_ok l = false ∧ exc_type e = AirtableError
  end.
Proof.
  revert l records. fix IH 1. intros [reply next] records. simpl. unfold _request.
  destruct (400 <=? status_code reply) eqn:Hstatus; simpl; [done|].
  destruct next as [l'|]; [|by rewrite app_nil_r].
  specialize (IH l' (records ++ json reply)%list).
  destruct (collect_pages l' _) as [collected|e]; [|done].
  destruct IH as [-> ->]. by rewrite app_assoc.
Qed.

(** *** The sync state *)

Lemma truthy_str_idemp value : truthy_str (truthy_str value) = truthy_str value.
Proof. by destruct value as [[|??]|]. Qed.

(** X18.  What [load_sync_state] reads from a file that
    [save_sync_state] wrote is the state saved, with an empty
    [last_push_at] or fingerprint read as [None]: every pull watermark comes
    back as it was saved, through the JSON object and the [str] coercions
    of the loader.  This is what the sync file of the world holds after a
    save. *)
Theorem saved_sync_state_reads_back (state : SyncState) (w : world) :
  read_sync_state (Some (sync_state_payload state))
  = Ok (mk_sync_state (last_pull_at state) (truthy_str (last_push_at state))
          (truthy_str (schema_fingerprint state))) ∧
  (load_sync_state (save_sync_state state w).1).2
  = read_sync_state (Some (sync_state_payload state)).
Proof.
  assert (read_sync_state (Some (sync_state_payload state))
          = Ok (mk_sync_state (last_pull_at state) (truthy_str (last_push_at state))
                  (truthy_str (schema_fingerprint state)))) as Hread.
  { assert (list_to_map
              ((λ kv : string * pyval, (kv.1, py_str kv.2))
                 <$> ((λ kv : string * string, (kv.1, VStr kv.2))
                        <$> map_to_list (last_pull_at state)))
            = last_pull_at state) as Hmarks.
    { rewrite <- list_fmap_compose.
      rewrite (list_fmap_ext _ id (map_to_list (last_pull_at state)));
        [|by intros i [k v] _].
      by rewrite list_fmap_id, list_to_map_to_list. }
    unfold read_sync_state, sync_state_payload.
    revert Hmarks.
    generalize ((λ kv : string * string, (kv.1, VStr kv.2))
                  <$> map_to_list (last_pull_at state)).
    intros items Hmarks. simpl. f_equal. f_equal.
    - by destruct items.
    - by destruct (last_push_at state) as [[|c s]|].
    - by destruct (schema_fingerprint state) as [[|c s]|]. }
  split; [done|]. rewrite Hread. simpl. by rewrite !truthy_str_idemp.
Qed.

(** X19.  [record_push] moves the push watermark and nothing else: the
    state loaded after it has the pull watermarks and the schema fingerprint
    loaded before it, and [last_push_at] is the clock reading it took
    ([None] if that reading is the empty string); the database and the audit
    log are untouched. *)
Theorem record_push_moves_only_the_push_watermark (w : world) :
  let w' := (record_push w).1 in
  ∃ before after,
    (load_sync_state w).2 = Ok before ∧ (load_sync_state w').2 = Ok after ∧
    last_pull_at after = last_pull_at before ∧
    schema_fingerprint after = schema_fingerprint before ∧
    last_push_at after = truthy_str (Some (clock (w_clock w))) ∧
    w_db w' = w_db w ∧ w_events w' = w_events w.
Proof.
  unfold record_push, bind, load_sync_state, save_sync_state, utc_now_iso. simpl.
  eexists _, _. split; [reflexivity|]. split; [reflexivity|]. simpl.
  destruct (w_sync_file w) as [data|]; simpl; by rewrite ?truthy_str_idemp.
Qed.

(** X20.  A pull never touches the push side of the sync state: whatever
    the run does, the state loaded after it has the [last_push_at] and the
    schema fingerprint loaded before it, and every table that had a pull
    watermark still has one. *)
Theorem pull_keeps_the_push_watermark mirror env_key client mapping schema apply accept logger
    (w : world) :
  let w' := (pull mirror env_key client mapping schema apply accept logger w).1 in
  ∃ before after,
    (load_sync_state w).2 = Ok before ∧ (load_sync_state w').2 = Ok after ∧
    last_push_at after = last_push_at before ∧
    schema_fingerprint after = schema_fingerprint before ∧
    ∀ t, is_Some (last_pull_at before !! t) → is_Some (last_pull_at after !! t).
Proof.
  intros w'. eexists _, _. split; [reflexivity|]. split; [reflexivity|].
  assert (w' = (pull mirror env_key client mapping schema apply accept logger w).1) as Hrun
    by done.
  clearbody w'. unfold pull in Hrun.
  unfold bind at 1, lift at 1 in Hrun.
  destruct (_require_airtable_config mirror); [|by subst w'].
  unfold bind at 1, lift at 1 in Hrun.
  destruct (_require_api_key env_key); [|by subst w'].
  unfold bind at 1, load_sync_state at 1 in Hrun. unfold bind at 1 in Hrun.
  match type of Hrun with context [handle ?body ?h w] =>
    assert (keeps same_sync_file body) as Hbody;
    [|pose proof (keeps_handle same_sync_file _ h Hbody w) as Hkeep;
      destruct (handle body h w) as [w1 [[summary changes]|e]]]
  end.
  - unfold list_tables. apply keeps_bind; [tc_solve|apply same_sync_file_converse|].
    intros listed. apply pull_records_keeps_sync_file.
  - unfold same_sync_file in Hkeep. simpl in Hkeep.
    destruct (apply && (conflicts summary =? 0)%nat) eqn:Hgo; subst w'; simpl;
      [|by rewrite Hkeep].
    destruct (w_sync_file w) as [data|]; simpl; rewrite ?truthy_str_idemp;
      (repeat split; [done..|]).
    all: intros t; rewrite stamp_lookup; case_bool_decide; [by eexists|done].
  - subst w'. simpl in *. unfold same_sync_file in Hkeep. simpl in Hkeep. by rewrite Hkeep.
Qed.

(** *** The report *)

#[local] Instance str_le_trans : Transitive str_le.
Proof.
  unfold str_le, String.leb. intros s1.
  induction s1 as [|c1 s1 IH]; intros [|c2 s2] [|c3 s3]; simpl; try done.
  unfold Ascii.compare.
  destruct (N.compare_spec (N_of_ascii c1) (N_of_ascii c2)) as [E12|L12|G12]; [| |done];
    destruct (N.compare_spec (N_of_ascii c2) (N_of_ascii c3)) as [E23|L23|G23]; try done;
    destruct (N.compare_spec (N_of_ascii c1) (N_of_ascii c3)) as [E13|L13|G13]; try done;
    try lia.
  apply IH.
Qed.

#[local] Instance str_le_antisymm : AntiSymm eq str_le.
Proof. intros s1 s2. apply String.leb_antisym. Qed.

#[local] Instance str_le_total : Total str_le.
Proof. intros s1 s2. apply String.leb_total. Qed.

Lemma sorted_Permutation (l1 l2 : list string) : l1 ≡ₚ l2 → sorted l1 = sorted l2.
Proof.
  intros Hp. apply (Sorted_unique str_le); try apply Sorted_merge_sort; try tc_solve.
  unfold sorted. by rewrite !merge_sort_Permutation.
Qed.

(** X21.  The report has the summary line and then one line per change,
    and it does not depend on the order in which a change lists its fields:
    two change lists that agree line by line on table, id, action and reason
    and list the same fields in any order give the same report. *)
Theorem format_pull_report_ignores_field_order summary (changes changes' : list PullChange) :
  Forall2 (λ c c', pc_table c = pc_table c' ∧ pc_external_id c = pc_external_id c' ∧
                   pc_action c = pc_action c' ∧ pc_reason c = pc_reason c' ∧
                   pc_changed_fields c ≡ₚ pc_changed_fields c') changes changes' →
  format_pull_report summary changes = format_pull_report summary changes' ∧
  length (format_pull_report summary changes) = S (length changes).
Proof.
  intros Hsame. split; [|unfold format_pull_report; simpl; by rewrite length_fmap].
  unfold format_pull_report. f_equal.
  induction Hsame as [|c c' l l' (Ht & He & Ha & Hr & Hf) _ IH]; simpl; [done|].
  f_equal; [|done]. unfold format_change.
  by rewrite Ht, He, Ha, Hr, (sorted_Permutation _ _ Hf).
Qed.

(** *** The mapping *)

Lemma foldM_ok_elem {A S} (f : S → A → M S) (l : list A) s w w' s' a :
  foldM f s l w = (w', Ok s') → a ∈ l → ∃ s0 w0 s1 w1, f s0 a w0 = (w1, Ok s1).
Proof.
  revert s w. induction l as [|b l IH]; intros s w Hrun Hin; [by apply elem_of_nil in Hin|].
  simpl in Hrun. apply bind_ok in Hrun as (s1 & w1 & Hstep & Hrest).
  apply elem_of_cons in Hin as [->|Hin]; [by eauto|]. by eapply IH.
Qed.

(** X23.  A pull returns only when the mapping is usable: if
    [pull_records] returns, every mapped table has a non-empty table id in
    the workspace configuration and maps a non-empty local field to
    [ExternalId]. *)
Theorem pull_records_returns_only_with_usable_mapping client mapping schema table_ids
    tables_meta last apply accept logger (w w' : world) result :
  pull_records client mapping schema table_ids tables_meta last apply accept logger w
  = (w', Ok result) →
  ∀ table_name table_def,
    (table_name, table_def) ∈ tables mapping →
    (∃ table_id, table_ids !! table_name = Some table_id ∧ table_id ≠ "") ∧
    (∃ field, _find_external_id_field (td_fields table_def) = Some field ∧ field ≠ "").
Proof.
  unfold pull_records. intros Hrun table_name table_def Hin.
  eapply foldM_ok_elem in Hrun as (s0 & w0 & s1 & w1 & Hstep); [|exact Hin].
  unfold pull_table in Hstep. repeat case_match; try done; subst.
  all: split; eexists; (split; [reflexivity|done]).
Qed.

(** *** The audit log against the change list *)

Lemma utc_now_iso_events w w' r : utc_now_iso w = (w', r) → w_events w' = w_events w.
Proof. by intros [= <- _]. Qed.

Lemma mutate_events f w w' r : mutate f w = (w', r) → w_events w' = w_events w.
Proof. unfold mutate. destruct (f (w_db w)); by intros [= <- _]. Qed.

Lemma converse_events {A} (f : nat → result A) w w' r :
  converse f w = (w', r) → w_events w' = w_events w.
Proof. by intros [= <- _]. Qed.

Lemma insert_local_events table_name ext_field fields_map remote_fields schema_fields w w' r :
  _insert_local table_name ext_field fields_map remote_fields schema_fields w = (w', r) →
  w_events w' = w_events w.
Proof.
  unfold _insert_local, bind, utc_now_iso, lift, mutate, execute_insert. simpl.
  repeat case_match; simplify_eq; intros; simplify_eq; done.
Qed.

Lemma update_local_events table_name ext_field fields_map remote_fields schema_fields w w' r :
  _update_local table_name ext_field fields_map remote_fields schema_fields w = (w', r) →
  w_events w' = w_events w.
Proof.
  unfold _update_local, bind, utc_now_iso, lift, mutate, execute_update. simpl.
  repeat case_match; simplify_eq; intros; simplify_eq; done.
Qed.

Lemma log_event_events lg et en ext ch c w w' r :
  enabled lg = true →
  log_event (Some lg) et en ext ch c w = (w', r) →
  ∃ ts, w_events w' = (w_events w ++ [mk_event ts (workspace lg) en ext et ch c])%list.
Proof. unfold log_event. intros ->. intros [= <- _]. simpl. by eexists. Qed.

Ltac event_steps Hon :=
  repeat match goal with
    | H : utc_now_iso _ = (_, _) |- _ => apply utc_now_iso_events in H
    | H : mutate _ _ = (_, _) |- _ => apply mutate_events in H
    | H : (if enabled _ then _ else _) _ = (_, _) |- _ =>
        rewrite Hon in H; apply (f_equal (λ run, w_events run.1)) in H; simpl in H;
        symmetry in H
    | H : _insert_local _ _ _ _ _ _ = (_, _) |- _ => apply insert_local_events in H
    | H : _update_local _ _ _ _ _ _ = (_, _) |- _ => apply update_local_events in H
    end.

Ltac chain_events :=
  repeat match goal with
    | H : w_events ?x = _ |- context [w_events ?x] => rewrite H
    end.

Ltac logged_change E :=
  eexists [_], [_]; split; [reflexivity|]; split; [chain_events; reflexivity|];
  rewrite filter_cons, filter_nil; simpl; rewrite ?E; simpl;
  (constructor; [|constructor]); unfold records_change; simpl; rewrite ?E; simpl;
  by repeat split.

Ltac silent_change E :=
  eexists [_], []; split; [reflexivity|]; split; [by rewrite app_nil_r|];
  rewrite filter_cons, filter_nil; simpl; rewrite ?E; simpl; constructor.

Lemma pull_record_events table_name ext_field fields_map schema_fields apply accept lg
    summary changes record w w' summary' changes' :
  enabled lg = true →
  pull_record table_name ext_field fields_map schema_fields apply accept (Some lg)
    (summary, changes) record w = (w', Ok (summary', changes')) →
  ∃ new_changes new_events,
    changes' = (changes ++ new_changes)%list ∧
    w_events w' = (w_events w ++ new_events)%list ∧
    Forall2 (records_change lg) new_events
      (filter (λ c, is_logged apply c = true) new_changes).
Proof.
  intros Hon. unfold pull_record. intros Hrun.
  destruct (py_truthy _) eqn:Htruthy; simpl in Hrun;
    [|invert_run; exists [], []; rewrite !app_nil_r; repeat split; constructor].
  invert_run.
  match goal with H : decide_pull_action _ _ _ _ = Ok ?d |- _ =>
    pose proof (decide_pull_action_actions _ _ _ _ _ H) as Hact
  end.
  destruct Hact as [[E|E]|[E|E]]; rewrite E in Hrun; simpl in Hrun.
  - invert_run. exists [], []. rewrite !app_nil_r. repeat split; constructor.
  - invert_run.
    match goal with H : in_accept_remote _ _ = Ok ?b |- _ => destruct b end; simpl in Hrun.
    + destruct apply; invert_run; event_steps Hon; [logged_change E|silent_change E].
    + rewrite E in Hrun. simpl in Hrun. invert_run. event_steps Hon. logged_change E.
  - invert_run. rewrite E in Hrun. simpl in Hrun.
    destruct apply; invert_run; event_steps Hon; [logged_change E|silent_change E].
  - invert_run. rewrite E in Hrun. simpl in Hrun.
    destruct apply; invert_run; event_steps Hon; [logged_change E|silent_change E].
Qed.

Lemma foldM_ok_invariant_world {A S} (I : S → world → Prop) (f : S → A → M S) (l : list A) :
  (∀ s a w w' s', I s w → f s a w = (w', Ok s') → I s' w') →
  ∀ s w w' s', I s w → foldM f s l w = (w', Ok s') → I s' w'.
Proof.
  intros Hf. induction l as [|a l IH]; simpl; intros s w w' s' Hs Hrun.
  - apply ret_ok in Hrun as [-> ->]. done.
  - apply bind_ok in Hrun as (s1 & w1 & Hstep & Hrest). eauto.
Qed.

(** X24.  With an enabled logger, the audit log of a pull that returns is
    its change list: the events the run appends are, in order, one for each
    change it applied and one for each conflict, each with the logger's
    workspace and the change's table, id and changed fields, typed
    [pull_conflict] and flagged for a conflict and [pull_apply] otherwise.
    In apply mode every change is logged; a dry run logs its conflicts
    only. *)
Theorem audit_log_records_the_changes client mapping schema table_ids tables_meta last apply
    accept lg (w w' : world) summary changes :
  enabled lg = true →
  pull_records client mapping schema table_ids tables_meta last apply accept (Some lg) w
  = (w', Ok (summary, changes)) →
  ∃ new,
    w_events w' = (w_events w ++ new)%list ∧
    Forall2 (records_change lg) new (filter (λ c, is_logged apply c = true) changes).
Proof.
  intros Hon. unfold pull_records.
  pose (I := λ (st : PullSummary * list PullChange) (w1 : world),
          ∃ new, w_events w1 = (w_events w ++ new)%list ∧
                 Forall2 (records_change lg) new
                   (filter (λ c, is_logged apply c = true) st.2)).
  intros Hrun. change (I (summary, changes) w'). revert Hrun.
  apply (foldM_ok_invariant_world I); [|exists []; by rewrite app_nil_r].
  intros st [table_name table_def] w1 w2 st' Hst. unfold pull_table.
  repeat case_match; intros Hrun; invert_run.
  all: match goal with H : list_records _ _ _ _ _ = (_, _) |- _ =>
         apply converse_events in H as Hlisted end.
  all: apply with_session_ok in Hrun.
  all: revert Hrun; apply (foldM_ok_invariant_world I);
         [|destruct Hst as (new & Hev & Hall); exists new; by rewrite Hlisted].
  all: intros [sm ch] record w3 w4 [sm' ch'] (new & Hev & Hall) Hstep.
  all: apply (pull_record_events _ _ _ _ _ _ _ _ _ _ _ _ _ _ Hon) in Hstep
         as (new_changes & new_events & -> & Hev' & Hall').
  all: exists (new ++ new_events)%list; simpl in *.
  all: split; [by rewrite Hev', Hev, app_assoc|].
  all: rewrite filter_app; by apply Forall2_app.
Qed.

(** *** What a push sends *)

Lemma dict_get_set (d : pydict) k v k' :
  dict_get (dict_set d k v) k' = if String.eqb k k' then v else dict_get d k'.
Proof.
  induction d as [|[k0 v0] d IH]; simpl; [done|].
  destruct (String.eqb k0 k) eqn:E0; simpl.
  - apply String.eqb_eq in E0 as ->. by destruct (String.eqb k k').
  - rewrite IH. destruct (String.eqb k0 k') eqn:E1; [|done].
    apply String.eqb_eq in E1 as ->. by rewrite String.eqb_sym, E0.
Qed.

Lemma dict_get_set_eq (d : pydict) k v : dict_get (dict_set d k v) k = v.
Proof. by rewrite dict_get_set, String.eqb_refl. Qed.

Lemma dict_get_set_ne (d : pydict) k v k' : k ≠ k' → dict_get (dict_set d k v) k' = dict_get d k'.
Proof. intros Hne. rewrite dict_get_set. by apply String.eqb_neq in Hne as ->. Qed.

Lemma serialized_untouched (row : pydict) (l : list (string * string)) acc k :
  k ∉ l.*2 →
  dict_get (foldl (λ acc '(field_name, airtable_field),
                     dict_set acc airtable_field (_serialize_value (dict_get row field_name)))
              acc l) k
  = dict_get acc k.
Proof.
  revert acc. induction l as [|[fn af] l IH]; intros acc Hk; simpl; [done|].
  simpl in Hk. apply not_elem_of_cons in Hk as [Hne Hk].
  rewrite IH by done. by apply dict_get_set_ne.
Qed.

Lemma serialized_mapped (row : pydict) (l : list (string * string)) acc field_name
    airtable_field :
  NoDup l.*2 → (field_name, airtable_field) ∈ l →
  dict_get (foldl (λ acc '(field_name, airtable_field),
                     dict_set acc airtable_field (_serialize_value (dict_get row field_name)))
              acc l) airtable_field
  = _serialize_value (dict_get row field_name).
Proof.
  revert acc. induction l as [|[fn af] l IH]; intros acc Hnd Hin; simpl;
    [by apply elem_of_nil in Hin|].
  simpl in Hnd. apply NoDup_cons in Hnd as [Hfresh Hnd].
  apply elem_of_cons in Hin as [[= -> ->]|Hin]; [|by apply IH].
  rewrite serialized_untouched by done. apply dict_get_set_eq.
Qed.

Lemma log_event_calls logger et en ext ch c w w' r :
  log_event logger et en ext ch c w = (w', r) → w_calls w' = w_calls w.
Proof. unfold log_event. repeat case_match; by intros [= <- _]. Qed.

Lemma mutate_calls f w w' r : mutate f w = (w', r) → w_calls w' = w_calls w.
Proof. unfold mutate. destruct (f (w_db w)); by intros [= <- _]. Qed.

Lemma as_mirror_error_ok {A} (body : M A) w w' a :
  as_mirror_error body w = (w', Ok a) → body w = (w', Ok a).
Proof.
  unfold as_mirror_error. destruct (body w) as [w1 [x|e]]; [done|]. by case_decide.
Qed.

(** X25.  A push of a row that returns has done this: it read the clock
    once, looked the row's [ExternalId] (a string) up with one listing that
    found at most one record, and then, in a second request, updated the
    record found or created one; the fields it sent carry the id, the next
    ledger version and the clock reading under [ExternalId],
    [MirrorVersion] and [MirrorUpdatedAt], whatever the mapping says of
    these names, and every other mapped field serialized (for a mapping
    that maps no two local fields to one remote field); and the ledger entry
    of the row holds the id of the record the service answered with, that
    version and that reading. *)
Theorem push_row_updates_or_creates client table_name table_id ext_field fields_map logger row
    (w w' : world) u :
  push_row client table_name table_id ext_field fields_map logger row w = (w', Ok u) →
  let key := (table_name, dict_get row ext_field) in
  let version := next_version (mirror_lookup (db_mirror (w_db w)) key) in
  let now := clock (w_clock w) in
  ∃ id matches payload reply,
    dict_get row ext_field = VStr id ∧
    collect_pages (reply_records client (w_calls w) table_id []
                     (Some ("{ExternalId}='" +:+ str_replace_char "'" "\'" id +:+ "'"))) []
    = Ok matches ∧
    (length matches ≤ 1)%nat ∧
    reply = match matches with
            | found :: _ =>
                reply_update client (S (w_calls w)) table_id (record_id found) payload
            | [] => reply_create client (S (w_calls w)) table_id payload
            end ∧
    status_code reply < 400 ∧
    dict_get payload "ExternalId" = VStr id ∧
    dict_get payload "MirrorVersion" = VInt version ∧
    dict_get payload "MirrorUpdatedAt" = VStr now ∧
    (NoDup fields_map.*2 →
     ∀ field_name airtable_field,
       (field_name, airtable_field) ∈ fields_map →
       airtable_field ∉ ["ExternalId"; "MirrorVersion"; "MirrorUpdatedAt"] →
       dict_get payload airtable_field = _serialize_value (dict_get row field_name)) ∧
    w_calls w' = S (S (w_calls w)) ∧
    mirror_lookup (db_mirror (w_db w')) key
    = Some (mk_mirror_row (Some (record_id (json reply))) version (Some now)).
Proof.
  unfold push_row. intros Hrun. invert_run.
  apply get_mirror_state_ok in Hrun0 as ->.
  injection Hrun1 as <- <-.
  apply as_mirror_error_ok in Hrun2.
  apply bind_ok in Hrun2 as (existing & w4 & Hfind & Hwrite).
  unfold find_record_by_external_id in Hfind.
  destruct (dict_get row ext_field) as [| | | |id| | | |] eqn:Hext; try done.
  apply bind_ok in Hfind as (matches & w5 & Hlist & Hpick).
  unfold list_records, converse in Hlist. simpl in Hlist. injection Hlist as <- Hmatches.
  pose proof (mutate_calls _ _ _ _ Hrun3) as Hcalls3.
  apply mutate_ok, upsert_mirror_state_ok in Hrun3.
  pose proof (log_event_calls _ _ _ _ _ _ _ _ _ Hrun) as Hcalls.
  apply log_event_db in Hrun.
  exists id, matches.
  destruct matches as [|found [|]]; [| |done]; apply ret_ok in Hpick as [-> ->].
  all: apply bind_ok in Hwrite as (record & w6 & Hsend & Hret).
  all: apply ret_ok in Hret as [-> ->].
  all: unfold create_record, update_record, converse, _request in Hsend; simpl in Hsend.
  all: destruct (400 <=? status_code _) eqn:Hstatus; [done|].
  all: injection Hsend as <- <-.
  all: eexists _, _; split; [done|]; split; [exact Hmatches|]; split; [simpl; lia|].
  all: apply Z.leb_gt in Hstatus.
  all: split; [reflexivity|]; split; [exact Hstatus|].
  all: split; [by rewrite dict_get_set_ne, dict_get_set_ne, dict_get_set_eq|].
  all: split; [by rewrite dict_get_set_ne, dict_get_set_eq|].
  all: split; [by rewrite dict_get_set_eq|].
  all: split;
    [intros Hnd field_name airtable_field Hin Hmirror;
     rewrite !dict_get_set_ne by set_solver; by apply serialized_mapped|].
  all: split; [by rewrite Hcalls, Hcalls3|].
  all: rewrite Hrun, Hrun3, mirror_lookup_upsert; simpl; by rewrite decide_True.
Qed.

(** *** The rows against the change list *)

Lemma utc_now_iso_rows w w' r (t : string) :
  utc_now_iso w = (w', r) → length (table_rows (w_db w') t) = length (table_rows (w_db w) t).
Proof. by intros [= <- _]. Qed.

Lemma log_event_rows logger et en ext ch c w w' r (t : string) :
  log_event logger et en ext ch c w = (w', r) →
  length (table_rows (w_db w') t) = length (table_rows (w_db w) t).
Proof. intros Hrun%log_event_db. by rewrite Hrun. Qed.

Lemma upsert_rows table_name ext rid v at_ w w' u (t : string) :
  mutate (λ d, upsert_mirror_state d table_name ext rid v at_) w = (w', Ok u) →
  length (table_rows (w_db w') t) = length (table_rows (w_db w) t).
Proof.
  intros Hrun%mutate_ok. unfold upsert_mirror_state in Hrun.
  destruct (sql_admits _ _); [|done]. injection Hrun as <-. done.
Qed.

Lemma insert_local_rows table_name ext_field fields_map remote_fields schema_fields w w' u
    (t : string) :
  _insert_local table_name ext_field fields_map remote_fields schema_fields w = (w', Ok u) →
  length (table_rows (w_db w') t)
  = (length (table_rows (w_db w) t) + if String.eqb table_name t then 1 else 0)%nat.
Proof.
  unfold _insert_local. intros Hrun. invert_run.
  injection Hrun0 as <- _. destruct a0 as [columns params]. simpl in Hrun.
  repeat case_match; simplify_eq.
  all: apply mutate_ok in Hrun; simpl in Hrun.
  all: unfold execute_insert in Hrun; simpl in Hrun.
  all: destruct (sql_admits _ _); [|done]; injection Hrun as <-.
  all: unfold table_rows; simpl.
  all: destruct (String.eqb table_name t) eqn:E;
         [apply String.eqb_eq in E as <-; rewrite lookup_insert_eq; simpl;
          by rewrite length_app
         |apply String.eqb_neq in E; rewrite lookup_insert_ne by done; lia].
Qed.

Lemma update_local_rows table_name ext_field fields_map remote_fields schema_fields w w' u
    (t : string) :
  _update_local table_name ext_field fields_map remote_fields schema_fields w = (w', Ok u) →
  length (table_rows (w_db w') t) = length (table_rows (w_db w) t).
Proof.
  unfold _update_local. intros Hrun. invert_run. destruct a as [columns params].
  apply bind_ok in Hrun as (now & w1 & Hnow & Hrun). injection Hnow as <- _.
  apply mutate_ok, execute_update_rows in Hrun as (_ & Hlen & _). apply Hlen.
Qed.

Ltac row_steps t :=
  repeat match goal with
    | H : utc_now_iso _ = (_, _) |- _ => apply (utc_now_iso_rows _ _ _ t) in H
    | H : mutate _ _ = (_, Ok _) |- _ => apply (upsert_rows _ _ _ _ _ _ _ _ t) in H
    | H : log_event _ _ _ _ _ _ _ = (_, _) |- _ => apply (log_event_rows _ _ _ _ _ _ _ _ _ t) in H
    | H : _insert_local _ _ _ _ _ _ = (_, Ok _) |- _ =>
        apply (insert_local_rows _ _ _ _ _ _ _ _ t) in H
    | H : _update_local _ _ _ _ _ _ = (_, Ok _) |- _ =>
        apply (update_local_rows _ _ _ _ _ _ _ _ t) in H
    end.

Ltac chain_rows :=
  repeat match goal with
    | H : length (table_rows (w_db ?x) _) = _ |- context [table_rows (w_db ?x) _] => rewrite H
    end.

Ltac counted_change E t :=
  eexists [_]; split; [reflexivity|]; row_steps t; chain_rows;
  rewrite filter_cons, filter_nil; unfold inserts_into; simpl; rewrite ?E; simpl;
  rewrite ?andb_true_r, ?andb_false_r; repeat case_match; simpl; try done; lia.

Lemma pull_record_rows table_name ext_field fields_map schema_fields apply accept logger
    summary changes record w w' summary' changes' (t : string) :
  pull_record table_name ext_field fields_map schema_fields apply accept logger
    (summary, changes) record w = (w', Ok (summary', changes')) →
  ∃ new_changes,
    changes' = (changes ++ new_changes)%list ∧
    length (table_rows (w_db w') t)
    = (length (table_rows (w_db w) t)
       + length (filter (λ c, inserts_into apply t c = true) new_changes))%nat.
Proof.
  unfold pull_record. intros Hrun.
  destruct (py_truthy _) eqn:Htruthy; simpl in Hrun;
    [|invert_run; exists []; rewrite !app_nil_r; split; [done|simpl; lia]].
  invert_run.
  match goal with H : decide_pull_action _ _ _ _ = Ok ?d |- _ =>
    pose proof (decide_pull_action_actions _ _ _ _ _ H) as Hact
  end.
  destruct Hact as [[E|E]|[E|E]]; rewrite E in Hrun; simpl in Hrun.
  - invert_run. exists []. rewrite !app_nil_r. split; [done|simpl; lia].
  - invert_run.
    match goal with H : in_accept_remote _ _ = Ok ?b |- _ => destruct b end; simpl in Hrun.
    + destruct apply; invert_run; counted_change E t.
    + rewrite E in Hrun. simpl in Hrun. invert_run. counted_change E t.
  - invert_run. rewrite E in Hrun. simpl in Hrun.
    destruct apply; invert_run; counted_change E t.
  - invert_run. rewrite E in Hrun. simpl in Hrun.
    destruct apply; invert_run; counted_change E t.
Qed.

(** X26.  The rows a pull adds are the creates it reports: when a pull
    returns, every table has the rows it had plus one for each [create] in
    the change list that names it, if the run was in apply mode, and exactly
    the rows it had after a dry run.  Applying a change to an existing row
    never changes the number of rows. *)
Theorem pull_adds_one_row_per_create client mapping schema table_ids tables_meta last apply
    accept logger (w w' : world) summary changes (t : string) :
  pull_records client mapping schema table_ids tables_meta last apply accept logger w
  = (w', Ok (summary, changes)) →
  length (table_rows (w_db w') t)
  = (length (table_rows (w_db w) t)
     + length (filter (λ c, inserts_into apply t c = true) changes))%nat.
Proof.
  unfold pull_records.
  pose (inv := λ (st : PullSummary * list PullChange) (w1 : world),
          length (table_rows (w_db w1) t)
          = (length (table_rows (w_db w) t)
             + length (filter (λ c, inserts_into apply t c = true) st.2))%nat).
  intros Hrun. change (inv (summary, changes) w'). revert Hrun.
  apply (foldM_ok_invariant_world inv); [|unfold inv; simpl; lia].
  intros st [table_name table_def] w1 w2 st' Hst. unfold pull_table.
  repeat case_match; intros Hrun; invert_run.
  all: match goal with H : list_records _ _ _ _ _ = (_, _) |- _ =>
         apply (f_equal (λ run, w_db run.1)) in H; simpl in H end.
  all: apply with_session_ok in Hrun.
  all: revert Hrun; apply (foldM_ok_invariant_world inv);
         [|unfold inv in *; match goal with H : w_db _ = w_db _ |- _ => by rewrite <- H end].
  all: intros [sm ch] record w3 w4 [sm' ch'] Hinv Hstep.
  all: apply (pull_record_rows _ _ _ _ _ _ _ _ _ _ _ _ _ _ t) in Hstep
         as (new_changes & -> & Hrows).
  all: unfold inv in *; simpl in *.
  all: rewrite Hrows, Hinv, filter_app, length_app; lia.
Qed.
End Orchestrator.

(** * The properties on the example workspace *)

Module Cases.
Import Reference Example.

(** The table on the input of [test_conflict_when_local_and_remote_changed]. *)
Lemma decide_pull_action_table_witness :
  decide_pull_action
    (Some [("widget_id", VStr "w1"); ("updated_at", VStr "2026-01-02T00:00:00+00:00")])
    (Some [("mirror_updated_at", VStr "2026-01-01T00:00:00+00:00")])
    ["stage"] (VStr "2026-01-03T00:00:00+00:00")
  = Ok (conflict_local ["stage"]).
Proof.
  pose proof (decide_pull_action_table
    (Some [("widget_id", VStr "w1"); ("updated_at", VStr "2026-01-02T00:00:00+00:00")])
    (Some [("mirror_updated_at", VStr "2026-01-01T00:00:00+00:00")])
    ["stage"] (VStr "2026-01-03T00:00:00+00:00")) as (_ & _ & Htable & _).
  eapply (Htable _ true (Some true)); [done|reflexivity..].
Defined.

(** C1 as stated fails.  The ledger entry is the one [crm open airtable]
    writes for a record it discovers, version 0 and no [mirror_updated_at];
    the local [updated_at] does not parse.  The stated table has
    [local_changed] false and answers [apply]; the code answers
    [conflict]. *)
Lemma decide_pull_action_unparsable_local_conflicts :
  let local_row := [("widget_id", VStr "w1"); ("name", VStr "Alpha");
                    ("updated_at", VStr "yesterday")] in
  let mirror_state := mirror_dict "widgets" (VStr "w1") (mk_mirror_row (Some "rec1") 0 None) in
  _parse_datetime (dict_get local_row "updated_at") = None ∧
  has_remote_changes VNone (Some mirror_state) = Ok None ∧
  stated_decision (Some local_row) (Some mirror_state) ["name"] None
  = mk_decision "apply" ["name"] None ∧
  decide_pull_action (Some local_row) (Some mirror_state) ["name"] VNone
  = Ok (conflict_local ["name"]).
Proof. cbv zeta. repeat split. Qed.

(** C2 (what the code does).  The table tracks [AirtableModifiedAt], the
    record carries it, w1 was edited locally after the last sync and the
    remote copy was not: the record is classified [conflict], although the
    decision function, given the record's timestamp, answers [skip]. *)
Lemma pull_records_ignores_remote_modified_at :
  _has_modified_field <$> (tables_meta !! 0%nat) = Some true ∧
  (run_pull_records [stale_remote] false edited_db).2
  = Ok (mk_summary 1 0 0 1 0 0,
        [mk_change "widgets" (VStr "w1") "conflict" ["name"] (Some "local_changes")]) ∧
  decide_pull_action
    (head (table_rows edited_db "widgets"))
    (mirror_dict "widgets" (VStr "w1")
       <$> mirror_lookup (db_mirror edited_db) ("widgets", VStr "w1"))
    ["name"] (dict_get (fields stale_remote) MODIFIED_FIELD)
  = Ok (skip_local ["name"]).
Proof. cbv zeta. repeat split. Qed.

Lemma list_normalization_keeps_order_witness :
  _values_equal (VList [VStr "red"; VNone; VStr "blue"]) (VList [VStr "red"; VStr "blue"])
    (Some "text") = Ok true.
Proof.
  apply (list_normalization_keeps_order (Some "text") [VStr "red"; VNone; VStr "blue"]
           [VStr "red"; VStr "blue"] ["red"; "blue"] ["red"; "blue"]); reflexivity.
Defined.

(** C4 as stated fails: two lists with the same members in a different
    order normalize to different tuples, and [diff_fields] reports the
    field. *)
Lemma reordered_lists_are_a_change :
  _normalize_value (VList [VStr "red"; VStr "blue"]) (Some "text") = Ok (NTuple ["red"; "blue"]) ∧
  _normalize_value (VList [VStr "blue"; VStr "red"]) (Some "text") = Ok (NTuple ["blue"; "red"]) ∧
  _values_equal (VList [VStr "red"; VStr "blue"]) (VList [VStr "blue"; VStr "red"]) (Some "text")
  = Ok false ∧
  diff_fields (Some [("tags", VList [VStr "red"; VStr "blue"])])
    [("Tags", VList [VStr "blue"; VStr "red"])] [("tags", "Tags")]
    {[ "tags" := mk_spec (Some "text") ]}
  = Ok ["tags"].
Proof. cbv zeta. repeat split. Qed.

(** An apply-mode cycle without conflicts stamps the widgets table with the
    last clock reading of the run. *)
Lemma pull_advances_watermark_witness :
  ∃ state,
    w_sync_file (pull airtable_mirror (Some "pat") (serving [new_remote]) mapping schema
                   true None None (world_of empty_db)).1 = Some state ∧
    last_pull_at state !! "widgets" = Some "2026-02-01T09:00:02+00:00".
Proof.
  pose proof (pull_advances_watermark airtable_mirror (Some "pat") (serving [new_remote])
                mapping schema true None None (world_of empty_db)) as Hstamp.
  cbv zeta in Hstamp.
  set (run := pull airtable_mirror (Some "pat") (serving [new_remote]) mapping schema
                true None None (world_of empty_db)) in *.
  assert (run.2 = Ok (mk_summary 1 0 0 0 1 0,
                      [mk_change "widgets" (VStr "w2") "create" ["widget_id"; "name"] None]))
    as Hresult by reflexivity.
  assert (w_clock run.1 = 3%nat) as Hclock by reflexivity.
  rewrite Hresult in Hstamp. cbv beta iota in Hstamp.
  destruct Hstamp as (n & state & Hn & Hfile & Hmarks).
  rewrite Hclock in Hn. injection Hn as <-.
  exists state. split; [exact Hfile|].
  rewrite (Hmarks "widgets"). reflexivity.
Defined.

Lemma pull_surfaces_attribute_error_witness :
  (pull airtable_mirror (Some "pat") (refusing 401 "INVALID_PERMISSIONS") mapping schema
     true None None (world_of empty_db)).2
  = Err (raise_msg AttributeError "'AirtableError' object has no attribute 'status_code'").
Proof.
  apply pull_surfaces_attribute_error; [reflexivity|reflexivity|simpl; lia].
Defined.

(** C7 (what the code does), on replies: a 403 and a 500 surface as the
    same exception. *)
Lemma pull_403_surfaces_as_500 :
  (pull airtable_mirror (Some "pat") (refusing 403 "denied") mapping schema true None None
     (world_of empty_db)).2
  = (pull airtable_mirror (Some "pat") (refusing 500 "denied") mapping schema true None None
       (world_of empty_db)).2.
Proof. reflexivity. Qed.

(** C5 as stated fails: the first record alone is created and committed;
    followed in the same table by a record whose insert violates the
    schema, the run raises and leaves neither its row nor its ledger
    entry. *)
Lemma record_failure_rolls_back_earlier_records :
  let alone := run_pull_records [new_remote] true empty_db in
  let followed := run_pull_records [new_remote; nameless_remote] true empty_db in
  is_ok alone.2 = true ∧
  length (table_rows (w_db alone.1) "widgets") = 1%nat ∧
  ledger_version alone.1 ("widgets", VStr "w2") = Some 1 ∧
  followed.2 = Err sqlite_error ∧
  table_rows (w_db followed.1) "widgets" = [] ∧
  ledger_version followed.1 ("widgets", VStr "w2") = None.
Proof. cbv zeta. repeat split. Qed.

Lemma pull_table_is_one_transaction_witness :
  let run := run_pull_records [new_remote; nameless_remote] true empty_db in
  run = (run.1, Err sqlite_error) ∧ w_db run.1 = empty_db.
Proof.
  cbv zeta.
  apply (pull_table_is_one_transaction (serving [new_remote; nameless_remote]) mapping schema
           table_ids _ (Some ∅) true None None []
           ("widgets", mk_table_def [("widget_id", "ExternalId"); ("name", "Name")]) []
           (world_of empty_db) (world_of empty_db)
           (run_pull_records [new_remote; nameless_remote] true empty_db).1
           (mk_summary 0 0 0 0 0 0, []) sqlite_error).
  - reflexivity.
  - reflexivity.
  - reflexivity.
Defined.

(** C6 as stated fails: w1 stands at version 5 in the ledger, its remote
    copy carries [MirrorVersion] 1, and the apply lowers the ledger to 1. *)
Lemma pull_lowers_mirror_version :
  let run := run_pull_records [rewound_remote] true synced_db in
  ledger_version (world_of synced_db) ("widgets", VStr "w1") = Some 5 ∧
  run.2 = Ok (mk_summary 1 0 1 0 0 0,
              [mk_change "widgets" (VStr "w1") "apply" ["name"] None]) ∧
  ledger_version run.1 ("widgets", VStr "w1") = Some 1.
Proof. cbv zeta. repeat split. Qed.

(** A push of w1 from version 5 writes version 6; the apply-mode pull of
    the new record w2, which carries [MirrorVersion] 1, writes version 1. *)
Lemma mirror_version_writes_witness :
  let row := [("widget_id", VStr "w1"); ("name", VStr "Alpha")] in
  let pushed := push_row (serving []) "widgets" "tblWidgets" "widget_id"
                  [("widget_id", "ExternalId"); ("name", "Name")] None row
                  (world_of synced_db) in
  let pulled := pull_record "widgets" "widget_id"
                  [("widget_id", "ExternalId"); ("name", "Name")]
                  (default ∅ (schema_tables schema !! "widgets")) true ∅ None
                  (mk_summary 0 0 0 0 0 0, []) new_remote (world_of empty_db) in
  ledger_version pushed.1 ("widgets", VStr "w1") = Some 6 ∧
  ∃ v, ledger_version pulled.1 ("widgets", VStr "w2") = Some v ∧ v = 1.
Proof.
  cbv zeta. split.
  - assert (sqlite_ledger (world_of synced_db)) as Htext.
    { constructor; [|constructor]. split; [by exists "w1"|].
      apply Z.leb_le. reflexivity. }
    pose proof (mirror_version_writes "widgets" "widget_id"
                  [("widget_id", "ExternalId"); ("name", "Name")] (world_of synced_db)
                  (push_row (serving []) "widgets" "tblWidgets" "widget_id"
                     [("widget_id", "ExternalId"); ("name", "Name")] None
                     [("widget_id", VStr "w1"); ("name", VStr "Alpha")]
                     (world_of synced_db)).1 Htext) as [Hpush _].
    destruct (Hpush (serving []) "tblWidgets" None
                [("widget_id", VStr "w1"); ("name", VStr "Alpha")] tt) as [Hversion _].
    + reflexivity.
    + apply Z.leb_le. reflexivity.
    + exact Hversion.
  - assert (sqlite_ledger (world_of empty_db)) as Htext by constructor.
    pose proof (mirror_version_writes "widgets" "widget_id"
                  [("widget_id", "ExternalId"); ("name", "Name")] (world_of empty_db)
                  (pull_record "widgets" "widget_id"
                     [("widget_id", "ExternalId"); ("name", "Name")]
                     (default ∅ (schema_tables schema !! "widgets")) true ∅ None
                     (mk_summary 0 0 0 0 0 0, []) new_remote (world_of empty_db)).1 Htext)
      as [_ Hpull].
    destruct (Hpull (default ∅ (schema_tables schema !! "widgets")) true ∅ None
                (mk_summary 0 0 0 0 0 0) [] new_remote (mk_summary 1 0 0 0 1 0)
                [mk_change "widgets" (VStr "w2") "create" ["widget_id"; "name"] None] "w2")
      as [_ Hwritten].
    + reflexivity.
    + intros n Hn.
      assert (n = 1) as ->
        by exact (eq_sym (f_equal (λ r, match r with Ok v => v | Err _ => 0 end) Hn)).
      apply Z.leb_le. reflexivity.
    + reflexivity.
    + rewrite bool_decide_eq_true_2 in Hwritten by (left; discriminate).
      destruct Hwritten as (v & Hv & Hcase & _).
      exists v. split; [exact Hv|exact Hcase].
Defined.



(** One record created, one ignored, one in conflict: three scanned. *)
Lemma pull_records_counters_partition_witness :
  partitioned (mk_summary 3 0 0 1 1 1).
Proof.
  set (run := pull_records
                (serving [new_remote; mk_record "rec9" [("ExternalId", VStr "")]; stale_remote])
                mapping schema table_ids None None true (Some ∅) None (world_of edited_db)).
  apply (pull_records_counters_partition
           (serving [new_remote; mk_record "rec9" [("ExternalId", VStr "")]; stale_remote])
           mapping schema table_ids None None true (Some ∅) None (world_of edited_db)
           run.1 (mk_summary 3 0 0 1 1 1)
           [mk_change "widgets" (VStr "w2") "create" ["widget_id"; "name"] None;
            mk_change "widgets" (VStr "w1") "conflict" ["name"] (Some "local_changes")]).
  reflexivity.
Defined.

(** A record with an empty [ExternalId] and a record without one. *)
Lemma pull_record_ignores_falsy_external_id_witness :
  pull_record "widgets" "widget_id" [("widget_id", "ExternalId"); ("name", "Name")] ∅ true ∅
    None (mk_summary 4 1 1 1 1 0, [])
    (mk_record "rec9" [("ExternalId", VStr ""); ("Name", VStr "Gamma")]) (world_of edited_db)
  = (world_of edited_db, Ok (mk_summary 5 1 1 1 1 1, [])).
Proof.
  apply (pull_record_ignores_falsy_external_id "widgets" "widget_id" _ ∅ true ∅ None
           (mk_summary 4 1 1 1 1 0) []
           (mk_record "rec9" [("ExternalId", VStr ""); ("Name", VStr "Gamma")])
           (mk_record "rec8" [("Name", VStr "Gamma")]) (world_of edited_db));
    reflexivity.
Defined.


(** ** Instances of the further properties *)

(** A renamed widget: the diff reports [name] and not [widget_id]. *)
Lemma diff_fields_reports_the_differing_fields_witness :
  sublist ["name"] ["widget_id"; "name"].
Proof.
  pose proof (diff_fields_reports_the_differing_fields
                (Some [("widget_id", VStr "w1"); ("name", VStr "Alpha Corp")])
                [("ExternalId", VStr "w1"); ("Name", VStr "Alpha")]
                [("widget_id", "ExternalId"); ("name", "Name")]
                (default ∅ (schema_tables schema !! "widgets")) ["name"]) as Hdiff.
  destruct Hdiff as [Hsub _]; [reflexivity|exact Hsub].
Defined.

(** A remote record without a local row. *)
Lemma decide_pull_action_shape_witness :
  reason (mk_decision "create" ["name"] None) = None.
Proof.
  pose proof (decide_pull_action_shape None None ["name"] VNone
                (mk_decision "create" ["name"] None)) as Hshape.
  destruct Hshape as (_ & Hreason & _); [reflexivity|].
  apply Hreason. left. reflexivity.
Defined.

(** A remote timestamp after the ledger's. *)
Lemma has_remote_changes_cases_witness :
  Some true = Some true.
Proof.
  pose proof (has_remote_changes_cases (VStr "2026-01-03T00:00:00+00:00")
                (Some [("mirror_updated_at", VNone)]) (Some true)) as Hcases.
  destruct Hcases as (_ & _ & Hchanged); [reflexivity|].
  apply Hchanged; [|discriminate].
  intros ms [= <-]. reflexivity.
Defined.

(** The digits pulled into a number field compare equal to the float they
    were converted to. *)
Lemma converted_string_matches_remote_witness :
  _values_equal (VFloat (whole 42)) (VStr "42") (Some "number") = Ok true.
Proof.
  apply (converted_string_matches_remote "4" "2" (Some (mk_spec (Some "number")))
           (VFloat (whole 42))).
  - intros _. exists (whole 42). split; reflexivity.
  - reflexivity.
Defined.

(** w1 conflicts, and its id is accepted: the pass counts an apply. *)
Lemma accepted_remote_never_conflicts_witness :
  conflicts (mk_summary 1 0 1 0 0 0) = conflicts (mk_summary 0 0 0 0 0 0).
Proof.
  set (run := pull_record "widgets" "widget_id" [("widget_id", "ExternalId"); ("name", "Name")]
                (default ∅ (schema_tables schema !! "widgets")) false {[ "w1" ]} None
                (mk_summary 0 0 0 0 0 0, []) stale_remote (world_of edited_db)).
  pose proof (accepted_remote_never_conflicts "widgets" "widget_id"
                [("widget_id", "ExternalId"); ("name", "Name")]
                (default ∅ (schema_tables schema !! "widgets")) false {[ "w1" ]} None
                (mk_summary 0 0 0 0 0 0) [] stale_remote (world_of edited_db) run.1
                (mk_summary 1 0 1 0 0 0)
                [mk_change "widgets" (VStr "w1") "apply" ["name"] None] "w1") as Haccepted.
  destruct Haccepted as [Hconflicts _].
  - reflexivity.
  - apply elem_of_singleton. reflexivity.
  - reflexivity.
  - exact Hconflicts.
Defined.

(** w1 conflicts and is not accepted: the apply-mode pass leaves the
    database alone. *)
Lemma unapplied_record_changes_nothing_witness :
  w_db (pull_record "widgets" "widget_id" [("widget_id", "ExternalId"); ("name", "Name")]
          (default ∅ (schema_tables schema !! "widgets")) true ∅ None
          (mk_summary 0 0 0 0 0 0, []) stale_remote (world_of edited_db)).1
  = edited_db.
Proof.
  apply (unapplied_record_changes_nothing "widgets" "widget_id"
           [("widget_id", "ExternalId"); ("name", "Name")]
           (default ∅ (schema_tables schema !! "widgets")) true ∅ None
           (mk_summary 0 0 0 0 0 0) [] stale_remote (world_of edited_db)
           (pull_record "widgets" "widget_id" [("widget_id", "ExternalId"); ("name", "Name")]
              (default ∅ (schema_tables schema !! "widgets")) true ∅ None
              (mk_summary 0 0 0 0 0 0, []) stale_remote (world_of edited_db)).1
           (mk_summary 1 0 0 1 0 0)
           [mk_change "widgets" (VStr "w1") "conflict" ["name"] (Some "local_changes")]);
    reflexivity.
Defined.

(** The created widget w2 is in the ledger under the id of its record. *)
Lemma applied_record_is_in_the_ledger_witness :
  ∃ v now,
    mirror_lookup
      (db_mirror
         (w_db (pull_record "widgets" "widget_id"
                  [("widget_id", "ExternalId"); ("name", "Name")]
                  (default ∅ (schema_tables schema !! "widgets")) true ∅ None
                  (mk_summary 0 0 0 0 0 0, []) new_remote (world_of empty_db)).1))
      ("widgets", VStr "w2")
    = Some (mk_mirror_row (Some "rec2") v (Some now)).
Proof.
  apply (applied_record_is_in_the_ledger "widgets" "widget_id"
           [("widget_id", "ExternalId"); ("name", "Name")]
           (default ∅ (schema_tables schema !! "widgets")) ∅ None
           (mk_summary 0 0 0 0 0 0) [] new_remote (world_of empty_db)
           (pull_record "widgets" "widget_id" [("widget_id", "ExternalId"); ("name", "Name")]
              (default ∅ (schema_tables schema !! "widgets")) true ∅ None
              (mk_summary 0 0 0 0 0 0, []) new_remote (world_of empty_db)).1
           (mk_summary 1 0 0 0 1 0)
           [mk_change "widgets" (VStr "w2") "create" ["widget_id"; "name"] None]).
  - reflexivity.
  - left. discriminate.
Defined.

(** One record created, one ignored, one in conflict: two changes. *)
Lemma pull_records_changes_match_counters_witness :
  (length [mk_change "widgets" (VStr "w2") "create" ["widget_id"; "name"] None;
           mk_change "widgets" (VStr "w1") "conflict" ["name"] (Some "local_changes")]
   = applied (mk_summary 3 0 0 1 1 1) + created (mk_summary 3 0 0 1 1 1)
     + conflicts (mk_summary 3 0 0 1 1 1))%nat.
Proof.
  set (run := pull_records
                (serving [new_remote; mk_record "rec9" [("ExternalId", VStr "")]; stale_remote])
                mapping schema table_ids None None true (Some ∅) None (world_of edited_db)).
  pose proof (pull_records_changes_match_counters
                (serving [new_remote; mk_record "rec9" [("ExternalId", VStr "")]; stale_remote])
                mapping schema table_ids None None true (Some ∅) None (world_of edited_db)
                run.1 (mk_summary 3 0 0 1 1 1)
                [mk_change "widgets" (VStr "w2") "create" ["widget_id"; "name"] None;
                 mk_change "widgets" (VStr "w1") "conflict" ["name"] (Some "local_changes")])
    as Hmatch.
  destruct Hmatch as [Hlength _]; [reflexivity|exact Hlength].
Defined.

(** The ledger entry of w1 survives the pull that rewrites it. *)
Lemma pull_records_keeps_ledger_entries_witness :
  is_Some (mirror_lookup (db_mirror (w_db (run_pull_records [rewound_remote] true synced_db).1))
             ("widgets", VStr "w1")).
Proof.
  apply (pull_records_keeps_ledger_entries (serving [rewound_remote]) mapping schema table_ids
           (Some (list_to_map ((λ t, (tm_id t, t)) <$> tables_meta))) (Some ∅) true None None
           (world_of synced_db) ("widgets", VStr "w1")).
  eexists. reflexivity.
Defined.

(** A refused listing surfaces from the service as an [AttributeError]. *)
Lemma pull_never_surfaces_adapter_errors_witness :
  exc_type (raise_msg AttributeError "'AirtableError' object has no attribute 'status_code'")
  ≠ AirtableError.
Proof.
  set (run := pull airtable_mirror (Some "pat") (refusing 401 "INVALID_PERMISSIONS") mapping
                schema true None None (world_of empty_db)).
  pose proof (pull_never_surfaces_adapter_errors airtable_mirror (Some "pat")
                (refusing 401 "INVALID_PERMISSIONS") mapping schema true None None
                (world_of empty_db) run.1
                (raise_msg AttributeError
                   "'AirtableError' object has no attribute 'status_code'")) as Hclasses.
  destruct Hclasses as [Hclass _]; [reflexivity|exact Hclass].
Defined.

(** A refused lookup surfaces from the push as a [MirrorError]. *)
Lemma push_all_never_surfaces_airtable_error_witness :
  exc_type (raise_msg MirrorError "Airtable error 500: down") ≠ AirtableError.
Proof.
  set (run := push_all (refusing 500 "down") mapping table_ids None (world_of synced_db)).
  apply (push_all_never_surfaces_airtable_error (refusing 500 "down") mapping table_ids None
           (world_of synced_db) run.1 (raise_msg MirrorError "Airtable error 500: down")).
  reflexivity.
Defined.

(** Another provider: the service raises and the world is as it was. *)
Lemma misconfigured_pull_touches_nothing_witness :
  ∃ e, pull (mk_mirror_config "notion" None ∅) (Some "pat") (serving [new_remote]) mapping
         schema true None None (world_of empty_db)
       = (world_of empty_db, Err e) ∧ exc_type e = PullServiceError.
Proof.
  apply (misconfigured_pull_touches_nothing (mk_mirror_config "notion" None ∅) (Some "pat")
           (serving [new_remote]) mapping schema true None None (world_of empty_db)).
  left. discriminate.
Defined.

(** The report of [test_pull_report_format], with the fields listed in
    either order. *)
Lemma format_pull_report_ignores_field_order_witness :
  format_pull_report (mk_summary 1 0 1 0 0 0)
    [mk_change "organizations" (VStr "org-123") "apply" ["notes"; "name"] None]
  = format_pull_report (mk_summary 1 0 1 0 0 0)
      [mk_change "organizations" (VStr "org-123") "apply" ["name"; "notes"] None].
Proof.
  pose proof (format_pull_report_ignores_field_order (mk_summary 1 0 1 0 0 0)
                [mk_change "organizations" (VStr "org-123") "apply" ["notes"; "name"] None]
                [mk_change "organizations" (VStr "org-123") "apply" ["name"; "notes"] None])
    as Hreport.
  destruct Hreport as [Hsame _]; [|exact Hsame].
  constructor; [|constructor]. repeat split. apply perm_swap.
Defined.

(** The pull of a new widget returns: the widgets table has its id. *)
Lemma pull_records_returns_only_with_usable_mapping_witness :
  ∃ table_id, table_ids !! "widgets" = Some table_id ∧ table_id ≠ "".
Proof.
  set (run := run_pull_records [new_remote] true empty_db).
  pose proof (pull_records_returns_only_with_usable_mapping (serving [new_remote]) mapping
                schema table_ids
                (Some (list_to_map ((λ t, (tm_id t, t)) <$> tables_meta))) (Some ∅) true None
                None (world_of empty_db) run.1
                (mk_summary 1 0 0 0 1 0,
                 [mk_change "widgets" (VStr "w2") "create" ["widget_id"; "name"] None]))
    as Husable.
  destruct (Husable eq_refl "widgets"
              (mk_table_def [("widget_id", "ExternalId"); ("name", "Name")])) as [Hid _].
  - apply list_elem_of_singleton. reflexivity.
  - exact Hid.
Defined.

(** A logged dry run over the conflicting w1: one [pull_conflict] event. *)
Lemma audit_log_records_the_changes_witness :
  ∃ new,
    w_events (pull_records (serving [stale_remote]) mapping schema table_ids None None false
                (Some ∅) (Some (mk_logger "acme" true)) (world_of edited_db)).1
    = ([] ++ new)%list ∧
    Forall2 (records_change (mk_logger "acme" true)) new
      (filter (λ c, is_logged false c = true)
         [mk_change "widgets" (VStr "w1") "conflict" ["name"] (Some "local_changes")]).
Proof.
  apply (audit_log_records_the_changes (serving [stale_remote]) mapping schema table_ids None
           None false (Some ∅) (mk_logger "acme" true) (world_of edited_db)
           (pull_records (serving [stale_remote]) mapping schema table_ids None None false
              (Some ∅) (Some (mk_logger "acme" true)) (world_of edited_db)).1
           (mk_summary 1 0 0 1 0 0)
           [mk_change "widgets" (VStr "w1") "conflict" ["name"] (Some "local_changes")]);
    reflexivity.
Defined.

(** The push of w1, unknown to the service: one lookup, one create. *)
Lemma push_row_updates_or_creates_witness :
  w_calls (push_row (serving []) "widgets" "tblWidgets" "widget_id"
             [("widget_id", "ExternalId"); ("name", "Name")] None
             [("widget_id", VStr "w1"); ("name", VStr "Alpha")] (world_of synced_db)).1
  = 2%nat.
Proof.
  pose proof (push_row_updates_or_creates (serving []) "widgets" "tblWidgets" "widget_id"
                [("widget_id", "ExternalId"); ("name", "Name")] None
                [("widget_id", VStr "w1"); ("name", VStr "Alpha")] (world_of synced_db)
                (push_row (serving []) "widgets" "tblWidgets" "widget_id"
                   [("widget_id", "ExternalId"); ("name", "Name")] None
                   [("widget_id", VStr "w1"); ("name", VStr "Alpha")] (world_of synced_db)).1
                tt) as Hpush.
  destruct Hpush as (id & matches & payload & reply & _ & _ & _ & _ & _ & _ & _ & _ & _
                     & Hcalls & _); [reflexivity|exact Hcalls].
Defined.

(** The pull that creates w2 adds one row to the widgets table. *)
Lemma pull_adds_one_row_per_create_witness :
  length (table_rows (w_db (run_pull_records [new_remote] true empty_db).1) "widgets")
  = (length (table_rows (w_db (world_of empty_db)) "widgets")
     + length (filter (λ c, inserts_into true "widgets" c = true)
                 [mk_change "widgets" (VStr "w2") "create" ["widget_id"; "name"] None]))%nat.
Proof.
  apply (pull_adds_one_row_per_create (serving [new_remote]) mapping schema table_ids
           (Some (list_to_map ((λ t, (tm_id t, t)) <$> tables_meta))) (Some ∅) true None None
           (world_of empty_db) (run_pull_records [new_remote] true empty_db).1
           (mk_summary 1 0 0 0 1 0)
           [mk_change "widgets" (VStr "w2") "create" ["widget_id"; "name"] None] "widgets").
  reflexivity.
Defined.

End Cases.
